(** * youtube-chat-order: the order-extraction pipeline of
      [youtube_chat_order_clean.py], embedded in Rocq.

    The development follows the source file top-down:
    - [Py]: the Python [str] and [int] primitives the program calls
      ([strip], [split], [join], [startswith], [int], ...), over strings
      as lists of Unicode code points;
    - [Re]: the fragment of Python's backtracking [re] engine that the
      program's patterns need ([re.match], [re.search], [re.sub]);
    - the program's functions, under their own names:
      [clean_product_name], [extract_product_info], [get_valid_buyers],
      [parse_order_info], [process_excel] and the per-buyer summary
      computed in [main];
    - the properties of the specification, each stated on those
      definitions. *)

From Stdlib Require Import ZArith NArith String Ascii Lia Permutation Sorted.
From Stdlib Require DecimalPos DecimalN.
From stdpp Require Import base option list gmap.

Open Scope N_scope.

#[local] Set Warnings "-clear-no-such-hyp".

(* ===================================================================== *)
(** ** Python strings                                                     *)
(* ===================================================================== *)

Module Py.

(** A Python [str] is a sequence of Unicode code points: [len], slicing
    and the [re] module all count code points, so one Hangul syllable is
    one element. *)
Definition char : Type := N.
Definition str : Type := list char.

(** Source literals are written as UTF-8 strings and decoded once. *)
Fixpoint utf8_decode (need : nat) (acc : N) (bytes : list N) : str :=
  match bytes with
  | [] => []
  | b :: rest =>
      match need with
      | O =>
          if b <? 0x80 then b :: utf8_decode 0 0 rest
          else if b <? 0xE0 then utf8_decode 1 (b - 0xC0) rest
          else if b <? 0xF0 then utf8_decode 2 (b - 0xE0) rest
          else utf8_decode 3 (b - 0xF0) rest
      | S O => (acc * 64 + (b - 0x80)) :: utf8_decode 0 0 rest
      | S n => utf8_decode n (acc * 64 + (b - 0x80)) rest
      end
  end.

Definition lit (s : string) : str :=
  utf8_decode 0 0 (List.map N_of_ascii (list_ascii_of_string s)).

Definition slash : char := 0x2F.
Definition space : char := 0x20.
Definition newline : char := 0x0A.
Definition full_stop : char := 0x2E.
Definition exclamation : char := 0x21.
Definition tilde : char := 0x7E.
(** U+C6D0, the currency suffix of the price pattern. *)
Definition won : char := 0xC6D0.

(** [str.isspace] for one code point; the same table serves [str.strip],
    [str.split] without argument and the class [\s] of [re]. *)
Definition isspace (c : char) : bool :=
  ((0x09 <=? c) && (c <=? 0x0D)) || ((0x1C <=? c) && (c <=? 0x20))
  || (c =? 0x85) || (c =? 0xA0) || (c =? 0x1680)
  || ((0x2000 <=? c) && (c <=? 0x200A))
  || (c =? 0x2028) || (c =? 0x2029) || (c =? 0x202F) || (c =? 0x205F)
  || (c =? 0x3000).

(** The code points of digit zero of every run of ten decimal digits
    (general category Nd, Unicode 14.0 as shipped with CPython 3.11): the
    class [\d] of [re] on [str] patterns, and the digits [int] accepts. *)
Definition decimal_zeros : list char :=
  [ 0x30; 0x660; 0x6F0; 0x7C0; 0x966; 0x9E6; 0xA66; 0xAE6; 0xB66; 0xBE6;
    0xC66; 0xCE6; 0xD66; 0xDE6; 0xE50; 0xED0; 0xF20; 0x1040; 0x1090;
    0x17E0; 0x1810; 0x1946; 0x19D0; 0x1A80; 0x1A90; 0x1B50; 0x1BB0;
    0x1C40; 0x1C50; 0xA620; 0xA8D0; 0xA900; 0xA9D0; 0xA9F0; 0xAA50;
    0xABF0; 0xFF10; 0x104A0; 0x10D30; 0x11066; 0x110F0; 0x11136; 0x111D0;
    0x112F0; 0x11450; 0x114D0; 0x11650; 0x116C0; 0x11730; 0x118E0;
    0x11950; 0x11C50; 0x11D50; 0x11DA0; 0x16A60; 0x16AC0; 0x16B50;
    0x1D7CE; 0x1D7D8; 0x1D7E2; 0x1D7EC; 0x1D7F6;
    0x1E140; 0x1E2F0; 0x1E950; 0x1FBF0 ].

Definition in_run (c zero : char) : bool := (zero <=? c) && (c <? zero + 10).

(** The decimal value of a code point, [None] when it is not a digit. *)
Definition digit_value (c : char) : option Z :=
  match List.find (in_run c) decimal_zeros with
  | Some zero => Some (Z.of_N (c - zero))
  | None => None
  end.

Definition isdecimal (c : char) : bool :=
  match digit_value c with Some _ => true | None => false end.

(** Truthiness of a string: [if s:]. *)
Definition truthy (s : str) : bool :=
  match s with [] => false | _ :: _ => true end.

(** [c in s] for a one-character [c]. *)
Definition contains (c : char) (s : str) : bool := existsb (N.eqb c) s.

(** [s.startswith(p)]. *)
Fixpoint startswith (s p : str) {struct p} : bool :=
  match p with
  | [] => true
  | c :: p' =>
      match s with
      | [] => false
      | d :: s' => (c =? d) && startswith s' p'
      end
  end.

Fixpoint lstrip (s : str) : str :=
  match s with
  | [] => []
  | c :: s' => if isspace c then lstrip s' else s
  end.

Definition rstrip (s : str) : str := rev (lstrip (rev s)).

(** [s.strip()]. *)
Definition strip (s : str) : str := rstrip (lstrip s).

(** [s.split(sep)] for a one-character separator: never an empty list. *)
Fixpoint split_on (sep : char) (s : str) : list str :=
  match s with
  | [] => [[]]
  | c :: s' =>
      if c =? sep then [] :: split_on sep s'
      else match split_on sep s' with
           | piece :: pieces => (c :: piece) :: pieces
           | [] => [[c]]
           end
  end.

(** [s.split()]: the maximal runs of non-whitespace; [word] holds the
    characters of the current run, most recent first. *)
Fixpoint split_words (word : str) (s : str) : list str :=
  match s with
  | [] => match word with [] => [] | _ :: _ => [rev word] end
  | c :: s' =>
      if isspace c then
        match word with
        | [] => split_words [] s'
        | _ :: _ => rev word :: split_words [] s'
        end
      else split_words (c :: word) s'
  end.

Definition split (s : str) : list str := split_words [] s.

(** [sep.join(parts)] for a one-character separator. *)
Fixpoint join (sep : char) (parts : list str) : str :=
  match parts with
  | [] => []
  | [p] => p
  | p :: ps => p ++ sep :: join sep ps
  end.

(** The comparison of [str] values: lexicographic on code points. *)
Fixpoint compare (a b : str) : comparison :=
  match a, b with
  | [], [] => Eq
  | [], _ :: _ => Lt
  | _ :: _, [] => Gt
  | x :: a', y :: b' =>
      match (x ?= y) with
      | Eq => compare a' b'
      | c => c
      end
  end.

(** [sys.int_info.default_max_str_digits]: [int] refuses longer digit
    strings with a [ValueError] (leading zeros count). *)
Definition int_max_str_digits : nat := 4300.

Definition int_digits (s : str) : option Z :=
  fold_left
    (fun acc c =>
       match acc, digit_value c with
       | Some n, Some d => Some (10 * n + d)%Z
       | _, _ => None
       end)
    s (Some 0%Z).

(** [int(s)] on the strings the program converts, which are non-empty
    runs matched by [\d]: [None] stands for the [ValueError] raised. *)
Definition int (s : str) : option Z :=
  match s with
  | [] => None
  | _ :: _ =>
      if (int_max_str_digits <? length s)%nat then None else int_digits s
  end.

Fixpoint uint_chars (d : Decimal.uint) : str :=
  match d with
  | Decimal.Nil => []
  | Decimal.D0 d => 0x30 :: uint_chars d
  | Decimal.D1 d => 0x31 :: uint_chars d
  | Decimal.D2 d => 0x32 :: uint_chars d
  | Decimal.D3 d => 0x33 :: uint_chars d
  | Decimal.D4 d => 0x34 :: uint_chars d
  | Decimal.D5 d => 0x35 :: uint_chars d
  | Decimal.D6 d => 0x36 :: uint_chars d
  | Decimal.D7 d => 0x37 :: uint_chars d
  | Decimal.D8 d => 0x38 :: uint_chars d
  | Decimal.D9 d => 0x39 :: uint_chars d
  end.

(** [str(n)] for an integer that is not negative: its decimal numeral. *)
Definition decimal (n : N) : str := uint_chars (N.to_uint n).

End Py.

Abbreviation pystr := Py.str.

(* ===================================================================== *)
(** ** The regular expressions of the program                             *)
(* ===================================================================== *)

Module Re.

(** Every pattern of the source is a sequence of greedy repetitions of a
    character class, of single characters, and of zero-width assertions
    on the text ahead.  [Rep cls lo hi] is [cls{lo,hi}] ([hi = None] for
    an open upper bound, so [cls+] is [Rep cls 1 None] and a literal
    character is [Rep (N.eqb c) 1 (Some 1)]); [Look p] succeeds without
    consuming when [p] holds of the remaining text. *)
Inductive atom : Type :=
| Rep (cls : Py.char -> bool) (lo : nat) (hi : option nat)
| Look (p : pystr -> bool).

Definition pattern : Type := list atom.

(** Number of leading characters of [s] in [cls]. *)
Fixpoint span (cls : Py.char -> bool) (s : pystr) : nat :=
  match s with
  | [] => O
  | c :: s' => if cls c then S (span cls s') else O
  end.

Definition greedy (cls : Py.char -> bool) (hi : option nat) (s : pystr) : nat :=
  match hi with
  | Some h => Nat.min h (span cls s)
  | None => span cls s
  end.

(** Backtracking of one greedy repetition: try to continue with [k]
    after [n] characters, then after [n - 1], ... down to [lo]. *)
Fixpoint backtrack (k : pystr -> option (list pystr)) (lo n : nat) (s : pystr)
  : option (list pystr) :=
  if (n <? lo)%nat then None
  else match k (drop n s) with
       | Some segs => Some (take n s :: segs)
       | None =>
           match n with
           | O => None
           | S n' => backtrack k lo n' s
           end
       end.

(** The match of [p] at the start of [s], as the engine finds it: the
    text consumed by each atom, in order ([Look] consumes nothing). *)
Fixpoint match_here (p : pattern) (s : pystr) : option (list pystr) :=
  match p with
  | [] => Some []
  | Look f :: p' =>
      if f s then
        match match_here p' s with
        | Some segs => Some ([] :: segs)
        | None => None
        end
      else None
  | Rep cls lo hi :: p' => backtrack (match_here p') lo (greedy cls hi s) s
  end.

(** [re.match(p, s)]. *)
Definition match_ (p : pattern) (s : pystr) : option (list pystr) :=
  match_here p s.

(** [m.group(i)] when the [i]-th group is the atom of index [i]. *)
Definition seg (i : nat) (segs : list pystr) : pystr := nth i segs [].

(** [re.search(p, s)]: the leftmost position with a match; the result is
    [m.start()] and the consumed segments. *)
Fixpoint search_from (p : pattern) (i : nat) (s : pystr)
  : option (nat * list pystr) :=
  match match_here p s with
  | Some segs => Some (i, segs)
  | None =>
      match s with
      | [] => None
      | _ :: s' => search_from p (S i) s'
      end
  end.

Definition search (p : pattern) (s : pystr) : option (nat * list pystr) :=
  search_from p 0 s.

(** [re.sub(p, '', s)]: delete the non-overlapping matches, leftmost
    first.  [skip] counts the characters of the current match still to
    be deleted.  No pattern of the program matches the empty string; an
    empty match deletes nothing. *)
Fixpoint sub_from (p : pattern) (skip : nat) (s : pystr) : pystr :=
  match s with
  | [] => []
  | c :: s' =>
      match skip with
      | S k => sub_from p k s'
      | O =>
          match match_here p s with
          | Some segs =>
              match length (concat segs) with
              | O => c :: sub_from p 0 s'
              | S k => sub_from p k s'
              end
          | None => c :: sub_from p 0 s'
          end
      end
  end.

Definition sub (p : pattern) (s : pystr) : pystr := sub_from p 0 s.

(** *** Character classes *)

(** [\d] *)
Definition digit : Py.char -> bool := Py.isdecimal.
(** [\s] *)
Definition whitespace : Py.char -> bool := Py.isspace.
(** [.] without DOTALL: anything but a newline. *)
Definition dot (c : Py.char) : bool := negb (c =? Py.newline).
(** [[\s.]] *)
Definition space_or_stop (c : Py.char) : bool :=
  Py.isspace c || (c =? Py.full_stop).
(** [[가-힣a-zA-Z]] (U+AC00 .. U+D7A3, a-z, A-Z) *)
Definition letter (c : Py.char) : bool :=
  ((0xAC00 <=? c) && (c <=? 0xD7A3))
  || ((0x61 <=? c) && (c <=? 0x7A)) || ((0x41 <=? c) && (c <=? 0x5A)).
(** [[가-힣a-zA-Z!~]] *)
Definition name_char (c : Py.char) : bool :=
  letter c || (c =? Py.exclamation) || (c =? Py.tilde).

Definition chr (c : Py.char) : atom := Rep (N.eqb c) 1 (Some 1%nat).

(** A literal pattern.  The source compiles the boilerplate phrases
    with [re.IGNORECASE]; they are Hangul syllables, which have no case,
    so the engine compares them exactly. *)
Definition literal (s : pystr) : pattern := List.map chr s.

(** [$] without MULTILINE: at the end, or before a final newline. *)
Definition at_end (s : pystr) : bool :=
  match s with
  | [] => true
  | [c] => c =? Py.newline
  | _ => false
  end.

(** [(?=\s|$)] *)
Definition space_or_end_ahead (s : pystr) : bool :=
  match s with
  | c :: _ => Py.isspace c || at_end s
  | [] => at_end s
  end.

End Re.

(* ===================================================================== *)
(** ** [clean_product_name]                                               *)
(* ===================================================================== *)

(** The boilerplate phrases, in the order the source applies them. *)
Definition exclude_patterns : list pystr :=
  List.map Py.lit
    [ "선착순"; "한정"; "당일배송"; "익일배송"; "품절임박"; "마감임박";
      "재고한정"; "한분만"; "한분"; "두분만"; "두분"; "세분만"; "세분";
      "네분만"; "네분"; "다섯분만"; "다섯분"; "여섯분만"; "여섯분";
      "일곱분만"; "일곱분"; "여덟분만"; "여덟분"; "아홉분만"; "아홉분";
      "열분만"; "열분"; "출발" ]%string.

(** [[가-힣a-zA-Z]+\d+(?=\s|$)]: a buyer tag left inside a name. *)
Definition buyer_tag_pattern : Re.pattern :=
  [ Re.Rep Re.letter 1 None; Re.Rep Re.digit 1 None;
    Re.Look Re.space_or_end_ahead ].

(** The loop [for pattern in exclude_patterns: cleaned_name = re.sub(...)]. *)
Definition remove_phrases (patterns : list pystr) (cleaned_name : pystr) : pystr :=
  fold_left (fun acc pattern => Re.sub (Re.literal pattern) acc)
    patterns cleaned_name.

Definition clean_product_name (name : pystr) : pystr :=
  let cleaned_name := name in
  let cleaned_name :=
    if Py.contains Py.slash cleaned_name
    then Py.strip (hd [] (Py.split_on Py.slash cleaned_name))
    else cleaned_name in
  let cleaned_name := remove_phrases exclude_patterns cleaned_name in
  let cleaned_name := Re.sub buyer_tag_pattern cleaned_name in
  let cleaned_name := Py.join Py.space (Py.split cleaned_name) in
  Py.strip cleaned_name.

(* ===================================================================== *)
(** ** [extract_product_info]                                             *)
(* ===================================================================== *)

(** [^(\d+)[\s.]*(.+)]: group 1 is atom 0, group 2 is atom 2. *)
Definition number_pattern : Re.pattern :=
  [ Re.Rep Re.digit 1 None; Re.Rep Re.space_or_stop 0 None;
    Re.Rep Re.dot 1 None ].

(** [(\d{3,6})원]: group 1 is atom 0. *)
Definition price_pattern : Re.pattern :=
  [ Re.Rep Re.digit 3 (Some 6%nat); Re.chr Py.won ].

(** [\s*\d+원\s*$] *)
Definition trailing_price_pattern : Re.pattern :=
  [ Re.Rep Re.whitespace 0 None; Re.Rep Re.digit 1 None; Re.chr Py.won;
    Re.Rep Re.whitespace 0 None; Re.Look Re.at_end ].

(** The result is [Some (product_number, product_name, price)], and
    [None] for the triple [(None, None, None)]: no leading number, no
    price, an empty name or a zero price, or a [ValueError] of [int]
    caught by the [except] clause. *)
Definition extract_product_info (msg : pystr) : option (Z * pystr * Z) :=
  match Re.match_ number_pattern (Py.strip msg) with
  | None => None
  | Some number_match =>
      match Py.int (Re.seg 0 number_match) with
      | None => None
      | Some product_number =>
          let remaining_text := Py.strip (Re.seg 2 number_match) in
          match Re.search price_pattern remaining_text with
          | None => None
          | Some (start, price_match) =>
              match Py.int (Re.seg 0 price_match) with
              | None => None
              | Some price =>
                  let product_name := Py.strip (take start remaining_text) in
                  if Py.truthy product_name && negb (price =? 0)%Z then
                    let product_name :=
                      Re.sub trailing_price_pattern product_name in
                    let product_name := clean_product_name product_name in
                    Some (product_number, product_name, price)
                  else None
              end
          end
      end
  end.

(* ===================================================================== *)
(** ** The chat export                                                    *)
(* ===================================================================== *)

(** One row of the data frame.  A cell is [None] when pandas reads it as
    missing ([pd.notna] is false) and otherwise holds [str(cell)]. *)
Record Row : Type := mkRow {
  row_message : option pystr;   (* column "메시지" *)
  row_sender : option pystr;    (* column "사용자" *)
}.

(** [str(row["메시지"]).strip() if pd.notna(row["메시지"]) else ""] *)
Definition message_of (row : Row) : pystr :=
  match row_message row with
  | Some cell => Py.strip cell
  | None => []
  end.

Record DataFrame : Type := mkDataFrame {
  has_message_column : bool;
  has_sender_column : bool;
  has_time_column : bool;
  df_rows : list Row;
}.

(* ===================================================================== *)
(** ** [get_valid_buyers]                                                 *)
(* ===================================================================== *)

(** [^([가-힣a-zA-Z!~]+)] *)
Definition buyer_name_pattern : Re.pattern := [ Re.Rep Re.name_char 1 None ].

(** Truthiness of [found_buyer], which is [None] or a string. *)
Definition found (found_buyer : option pystr) : bool :=
  match found_buyer with
  | Some buyer => Py.truthy buyer
  | None => false
  end.

(** The text after the last ['/'], stripped: [msg.split('/')[-1].strip()]. *)
Definition order_part_of (msg : pystr) : pystr :=
  Py.strip (List.last (Py.split_on Py.slash msg) []).

(** The body of [for part in parts]: the manual identifiers are tried in
    the iteration order of their set, the first that is a prefix of the
    token ends the search; the name pattern runs only when
    [found_buyer] is falsy. *)
Definition add_part (manual_buyer_ids : list pystr) (buyers : gset pystr)
    (part : pystr) : gset pystr :=
  let found_buyer :=
    if bool_decide (manual_buyer_ids = []) then None
    else List.find (Py.startswith part) manual_buyer_ids in
  if found found_buyer then buyers
  else
    match Re.match_ buyer_name_pattern part with
    | Some m =>
        let buyer := Py.strip (Re.seg 0 m) in
        if Py.truthy buyer then {[ buyer ]} ∪ buyers else buyers
    | None => buyers
    end.

(** The body of [for _, row in df.iterrows()]. *)
Definition add_row (manual_buyer_ids : list pystr) (buyers : gset pystr)
    (row : Row) : gset pystr :=
  let msg := message_of row in
  if Py.contains Py.slash msg then
    let order_part := order_part_of msg in
    let parts := Py.split order_part in
    fold_left (add_part manual_buyer_ids) parts buyers
  else buyers.

(** [manual_buyer_ids] is the manual set in its iteration order. *)
Definition get_valid_buyers (df : list Row) (manual_buyer_ids : list pystr)
  : gset pystr :=
  let buyers : gset pystr := ∅ in
  let buyers := list_to_set manual_buyer_ids ∪ buyers in
  fold_left (add_row manual_buyer_ids) df buyers.

(* ===================================================================== *)
(** ** [parse_order_info]                                                 *)
(* ===================================================================== *)

(** [\d+] *)
Definition quantity_pattern : Re.pattern := [ Re.Rep Re.digit 1 None ].

(** The group [([가-힣a-zA-Z!~]+)] followed by the group of [\d*]: group 1
    is atom 0, group 2 is atom 1. *)
Definition name_quantity_pattern : Re.pattern :=
  [ Re.Rep Re.name_char 1 None; Re.Rep Re.digit 0 None ].

(** The three locals one iteration of the [while] loop computes. *)
Record Scan : Type := mkScan {
  found_buyer : option pystr;
  quantity : Z;
  match_length : nat;
}.

Definition no_buyer : Scan :=
  {| found_buyer := None; quantity := 1; match_length := 0 |}.

(** Pass 1, [for buyer_id in valid_buyers]: the first identifier, in the
    iteration order of the set, that the buffer starts with; [None] when
    [int] raises. *)
Fixpoint scan_ids (ids : list pystr) (remaining_text : pystr) : option Scan :=
  match ids with
  | [] => Some no_buyer
  | buyer_id :: ids' =>
      if Py.startswith remaining_text buyer_id then
        let match_length := length buyer_id in
        match Re.match_ quantity_pattern (drop match_length remaining_text) with
        | Some quantity_match =>
            let digits := Re.seg 0 quantity_match in
            match Py.int digits with
            | Some quantity =>
                Some {| found_buyer := Some buyer_id;
                        quantity := quantity;
                        match_length := match_length + length digits |}
            | None => None
            end
        | None =>
            Some {| found_buyer := Some buyer_id;
                    quantity := 1;
                    match_length := match_length |}
        end
      else scan_ids ids' remaining_text
  end.

(** Pass 2, under [if not found_buyer]: the name pattern, accepted when
    the letter run is a member of [valid_buyers]; [None] when [int]
    raises. *)
Definition scan_name (valid_buyers : list pystr) (remaining_text : pystr)
    (s : Scan) : option Scan :=
  if found (found_buyer s) then Some s
  else
    match Re.match_ name_quantity_pattern remaining_text with
    | Some m =>
        let potential_buyer := Re.seg 0 m in
        if bool_decide (potential_buyer ∈ valid_buyers) then
          if Py.truthy (Re.seg 1 m) then
            match Py.int (Re.seg 1 m) with
            | Some quantity =>
                Some {| found_buyer := Some potential_buyer;
                        quantity := quantity;
                        match_length :=
                          length (Re.seg 0 m) + length (Re.seg 1 m) |}
            | None => None
            end
          else
            Some {| found_buyer := Some potential_buyer;
                    quantity := quantity s;
                    match_length := length (Re.seg 0 m) |}
        else Some s
    | None => Some s
    end.

(** What one iteration of [while remaining_text] does. *)
Inductive Step : Type :=
| Break                                   (* the buffer is exhausted *)
| Raise                                   (* [int] raised *)
| Emit (order : pystr * Z) (rest : pystr) (* [orders.append], advance *)
| Skip (rest : pystr).                    (* drop one character *)

Definition order_step (valid_buyers : list pystr) (remaining_text : pystr)
  : Step :=
  let remaining_text := Py.strip remaining_text in
  if negb (Py.truthy remaining_text) then Break
  else
    let pass1 :=
      if bool_decide (valid_buyers = []) then Some no_buyer
      else scan_ids valid_buyers remaining_text in
    match pass1 with
    | None => Raise
    | Some s1 =>
        match scan_name valid_buyers remaining_text s1 with
        | None => Raise
        | Some s =>
            match found_buyer s with
            | Some buyer =>
                if Py.truthy buyer
                then Emit (buyer, quantity s) (drop (match_length s) remaining_text)
                else Skip (drop 1 remaining_text)
            | None => Skip (drop 1 remaining_text)
            end
        end
    end.

(** How the [while] loop ends. *)
Inductive Run : Type :=
| Returned (orders : list (pystr * Z))
| Raised
| OutOfFuel.

Fixpoint order_loop (fuel : nat) (valid_buyers : list pystr)
    (remaining_text : pystr) (orders : list (pystr * Z)) : Run :=
  match fuel with
  | O => OutOfFuel
  | S fuel' =>
      match order_step valid_buyers remaining_text with
      | Break => Returned orders
      | Raise => Raised
      | Emit order rest => order_loop fuel' valid_buyers rest (orders ++ [order])
      | Skip rest => order_loop fuel' valid_buyers rest orders
      end
  end.

(** The loop on a buffer, with fuel for one iteration per character and
    the final test. *)
Definition run_orders (valid_buyers : list pystr) (order_part : pystr) : Run :=
  order_loop (S (length order_part)) valid_buyers order_part [].

(** [valid_buyers] is the set in its iteration order.  The [except]
    clause turns an exception into the empty list. *)
Definition parse_order_info (msg : pystr) (valid_buyers : list pystr)
  : list (pystr * Z) :=
  if Py.contains Py.slash msg then
    match run_orders valid_buyers (order_part_of msg) with
    | Returned orders => orders
    | Raised => []
    | OutOfFuel => []
    end
  else [].

(* ===================================================================== *)
(** ** [process_excel]                                                    *)
(* ===================================================================== *)

(** One row of the order table: the dictionary built for every pair.
    The numbers are Python integers.  [process_excel] stores and sorts
    them, which keeps their values; the arithmetic on the columns pandas
    builds from them is that of [main], modelled with [buyer_summary]. *)
Record Order : Type := mkOrder {
  order_buyer : pystr;      (* "구매자" *)
  order_number : Z;         (* "상품번호" *)
  order_name : pystr;       (* "상품명" *)
  order_price : Z;          (* "판매가" *)
  order_quantity : Z;       (* "수량" *)
}.

Definition admins : list pystr :=
  List.map Py.lit [ "만물다잇쏘"; "다잇쏘" ]%string.

(** [df["사용자"].isin(admins)] for one row. *)
Definition is_admin (row : Row) : bool :=
  match row_sender row with
  | Some sender => bool_decide (sender ∈ admins)
  | None => false
  end.

(** The body of [for _, row in df.iterrows()]: an empty message and a
    failed guard leave [all_orders] as it is. *)
Definition append_orders (valid_buyers : list pystr) (all_orders : list Order)
    (row : Row) : list Order :=
  let msg := message_of row in
  if negb (Py.truthy msg) then all_orders
  else
    match extract_product_info msg with
    | Some (product_number, product_name, price) =>
        if negb (product_number =? 0)%Z && Py.truthy product_name
           && negb (price =? 0)%Z && Py.contains Py.slash msg
        then
          let orders := parse_order_info msg valid_buyers in
          fold_left
            (fun acc order =>
               acc ++ [ {| order_buyer := fst order;
                           order_number := product_number;
                           order_name := product_name;
                           order_price := price;
                           order_quantity := snd order |} ])
            orders all_orders
        else all_orders
    | None => all_orders
    end.

(** The order of [sort_values(by=['구매자', '상품번호'])]: buyers as
    strings, then product numbers as integers. *)
Definition key_leb (a b : Order) : bool :=
  match Py.compare (order_buyer a) (order_buyer b) with
  | Lt => true
  | Eq => (order_number a <=? order_number b)%Z
  | Gt => false
  end.

Section Sorting.
Context {A : Type} (leb : A -> A -> bool).

Fixpoint insert_sorted (x : A) (l : list A) : list A :=
  match l with
  | [] => [x]
  | y :: l' => if leb x y then x :: l else y :: insert_sorted x l'
  end.

(** A stable sort: pandas sorts on several keys with a stable
    lexicographic sort. *)
Definition stable_sort (l : list A) : list A := foldr insert_sorted [] l.

End Sorting.

Definition sort_values (df_orders : list Order) : list Order :=
  stable_sort key_leb df_orders.

Section Pipeline.

(** Two library behaviours are left open.  [sort_by_time] is
    [df.sort_values("시간")], whose result on ties is not fixed and which
    raises on a column of mixed types ([None]).  [iteration_order] is the
    order in which [for buyer_id in valid_buyers] enumerates the set. *)
Variable sort_by_time : list Row -> option (list Row).
Variable iteration_order : gset pystr -> list pystr.

(** [None] is the [None] the source returns: a missing column, no admin
    message, an exception, or no order at all. *)
Definition process_excel (df : DataFrame) (manual_buyer_ids : list pystr)
  : option (list Order) :=
  if negb (has_message_column df && has_sender_column df) then None
  else
    let rows := List.filter is_admin (df_rows df) in
    if bool_decide (rows = []) then None
    else
      match (if has_time_column df then sort_by_time rows else Some rows) with
      | None => None
      | Some rows =>
          let valid_buyers := get_valid_buyers rows manual_buyer_ids in
          let all_orders :=
            fold_left (append_orders (iteration_order valid_buyers)) rows [] in
          if bool_decide (all_orders = []) then None
          else Some (sort_values all_orders)
      end.

End Pipeline.

(* ===================================================================== *)
(** ** The per-buyer summary of [main]                                    *)
(* ===================================================================== *)

Record Summary : Type := mkSummary {
  summary_buyer : pystr;     (* "구매자" *)
  total_amount : Z;          (* "총구매금액" *)
  total_quantity : Z;        (* "총주문수량" *)
}.

(** The columns "판매가" and "수량" of [pd.DataFrame(all_orders)] are
    made of Python integers.  pandas stores such a column as int64 when
    every value of it fits in 64 signed bits. *)
Definition int64_min : Z := (- 2 ^ 63)%Z.
Definition int64_max : Z := (2 ^ 63 - 1)%Z.

Definition is_int64 (z : Z) : bool :=
  (int64_min <=? z)%Z && (z <=? int64_max)%Z.

Definition int64_columns (df_orders : list Order) : bool :=
  forallb (fun row => is_int64 (order_price row) && is_int64 (order_quantity row))
    df_orders.

(** The result of an int64 operation whose exact value is [z]: the
    arithmetic is modulo [2 ^ 64], and nothing is raised on overflow. *)
Definition wrap_int64 (z : Z) : Z :=
  ((z - int64_min) mod 2 ^ 64 + int64_min)%Z.

(** [groupby("구매자").agg({"구매금액": "sum", "수량": "sum"})] adds each row
    to the group of its buyer; "구매금액" is "판매가" times "수량".  The
    product and the two sums are int64 operations. *)
Definition add_to_group (groups : gmap pystr (Z * Z)) (row : Order)
  : gmap pystr (Z * Z) :=
  let amount := wrap_int64 (order_price row * order_quantity row) in
  match groups !! order_buyer row with
  | Some (total, count) =>
      <[ order_buyer row := (wrap_int64 (total + amount),
                             wrap_int64 (count + order_quantity row)) ]>
        groups
  | None => <[ order_buyer row := (amount, order_quantity row) ]> groups
  end.

Definition summary_leb (a b : Summary) : bool :=
  match Py.compare (summary_buyer a) (summary_buyer b) with
  | Gt => false
  | _ => true
  end.

(** [df_summary]: one row per group, in the order of the group keys.
    The model covers the tables whose two columns are int64.  [None]
    stands for the other tables: a value beyond 64 signed bits makes its
    column uint64 or object, and the amounts float64 or Python integers,
    which are left out here. *)
Definition buyer_summary (df_orders : list Order) : option (list Summary) :=
  if int64_columns df_orders then
    let groups := fold_left add_to_group df_orders ∅ in
    Some (stable_sort summary_leb
            (List.map (fun g => {| summary_buyer := fst g;
                                   total_amount := fst (snd g);
                                   total_quantity := snd (snd g) |})
               (map_to_list groups)))
  else None.

(* ===================================================================== *)
(** ** The buyer identifiers typed in [main]                              *)
(* ===================================================================== *)

Definition comma : Py.char := 0x2C.

(** The set [main] builds from the text area: [set()] for an empty
    input, else [{id.strip() for id in buyer_ids_input.split(',') if
    id.strip()}]. *)
Definition manual_ids_of_input (buyer_ids_input : pystr) : gset pystr :=
  if Py.truthy buyer_ids_input then
    list_to_set
      (List.map Py.strip
         (List.filter (fun id => Py.truthy (Py.strip id))
            (Py.split_on comma buyer_ids_input)))
  else ∅.

(* ===================================================================== *)
(** ** [save_buyer_ids] and [load_buyer_ids]                              *)
(* ===================================================================== *)

(** [st.session_state], as far as the program uses it: the values under
    the keys 'buyer_ids' and 'cached_buyer_ids', [None] for a key that
    is absent. *)
Record SessionState : Type := mkSessionState {
  state_buyer_ids : option (list pystr);
  state_cached_buyer_ids : option (list pystr);
}.

(** The body of [load_cached_buyer_ids], which the cache decorator
    replays. *)
Definition load_cached_buyer_ids : list pystr := [].

Section Session.

(** [list(buyer_ids)]: the elements of the set in its iteration order. *)
Variable to_list : gset pystr -> list pystr.

Definition save_buyer_ids (buyer_ids : gset pystr) (state : SessionState)
  : SessionState :=
  let state :=
    {| state_buyer_ids := Some (to_list buyer_ids);
       state_cached_buyer_ids := state_cached_buyer_ids state |} in
  match state_cached_buyer_ids state with
  | Some _ =>
      {| state_buyer_ids := state_buyer_ids state;
         state_cached_buyer_ids := Some (to_list buyer_ids) |}
  | None => state
  end.

(** The set returned, and the session state left behind. *)
Definition load_buyer_ids (state : SessionState) : gset pystr * SessionState :=
  match state_buyer_ids state with
  | Some ids => (list_to_set ids, state)
  | None =>
      let state :=
        match state_cached_buyer_ids state with
        | None =>
            {| state_buyer_ids := state_buyer_ids state;
               state_cached_buyer_ids := Some load_cached_buyer_ids |}
        | Some _ => state
        end in
      (match state_cached_buyer_ids state with
       | Some ids => list_to_set ids
       | None => ∅
       end, state)
  end.

(** [sep.join(parts)] for a separator of any length. *)
Fixpoint join_str (sep : pystr) (parts : list pystr) : pystr :=
  match parts with
  | [] => []
  | [p] => p
  | p :: ps => p ++ sep ++ join_str sep ps
  end.

(** The text the text area of [main] starts with:
    [", ".join(saved_buyer_ids) if saved_buyer_ids else ""]. *)
Definition default_buyer_ids (saved_buyer_ids : gset pystr) : pystr :=
  if bool_decide (saved_buyer_ids ≠ ∅)
  then join_str [comma; Py.space] (to_list saved_buyer_ids)
  else [].

End Session.

(* ===================================================================== *)
(** ** Vocabulary of the statements                                       *)
(* ===================================================================== *)

(** A string is trimmed when it neither starts nor ends with whitespace. *)
Definition trimmed (s : pystr) : Prop :=
  Py.lstrip s = s /\ Py.lstrip (rev s) = rev s.

(** The text ahead does not continue a run of digits. *)
Definition no_digit_ahead (rest : pystr) : Prop :=
  match rest with
  | c :: _ => Py.isdecimal c = false
  | [] => True
  end.

(** The quantity of a buyer token followed by the digit run [ds]: the
    default 1 without digits, else what [int] reads. *)
Definition reads_quantity (ds : pystr) (q : Z) : Prop :=
  (ds = [] /\ q = 1%Z) \/ (ds <> [] /\ Py.int ds = Some q).

(** No decimal digit belongs to the class [cls]: checked on the ten
    code points of every run of the table. *)
Definition digits_avoid (cls : Py.char -> bool) : bool :=
  forallb
    (fun zero =>
       forallb (fun i => negb (cls (zero + i))) [0; 1; 2; 3; 4; 5; 6; 7; 8; 9])
    Py.decimal_zeros.

(** The result of the loop when [acc] was already appended. *)
Definition with_prefix (acc : list (pystr * Z)) (r : Run) : Run :=
  match r with
  | Returned orders => Returned (acc ++ orders)
  | Raised => Raised
  | OutOfFuel => OutOfFuel
  end.

(** The digit zero of some script. *)
Definition zero_digit (c : Py.char) : Prop := Py.digit_value c = Some 0%Z.

(** The strict order of Python strings: a proper prefix comes first,
    otherwise the first differing code point decides. *)
Inductive str_lt : pystr -> pystr -> Prop :=
| str_lt_nil (c : Py.char) (b : pystr) : str_lt [] (c :: b)
| str_lt_head (x y : Py.char) (a b : pystr) : x < y -> str_lt (x :: a) (y :: b)
| str_lt_tail (x : Py.char) (a b : pystr) : str_lt a b -> str_lt (x :: a) (x :: b).

(** The key (buyer, product number) of [a] is not after that of [b]. *)
Definition key_le (a b : Order) : Prop :=
  str_lt (order_buyer a) (order_buyer b)
  \/ (order_buyer a = order_buyer b /\ (order_number a <= order_number b)%Z).

Definition sum_Z (l : list Z) : Z := foldr Z.add 0%Z l.

(** The integer fits in 64 signed bits. *)
Definition int64 (z : Z) : Prop := (int64_min <= z <= int64_max)%Z.

(** The rows of a buyer in the order table. *)
Definition rows_of (b : pystr) (df_orders : list Order) : list Order :=
  List.filter (fun row => bool_decide (order_buyer row = b)) df_orders.

(** The amount and the number of items of a list of rows. *)
Definition amount_of (rows : list Order) : Z :=
  sum_Z (List.map (fun row => (order_price row * order_quantity row)%Z) rows).

Definition quantity_of (rows : list Order) : Z :=
  sum_Z (List.map order_quantity rows).

(** A word of [str.split]: not empty, and without whitespace. *)
Definition word (w : pystr) : Prop :=
  w <> [] /\ Forall (fun c => Py.isspace c = false) w.

(** [B] is a non-empty valid buyer, and the only valid buyer the text
    [t] starts with. *)
Definition only_buyer_at (valid_buyers : list pystr) (t B : pystr) : Prop :=
  B <> [] /\ B ∈ valid_buyers
  /\ forall B', B' ∈ valid_buyers -> Py.startswith t B' = true -> B' = B.

(** [b] is the run of name characters the token [part] starts with: it
    is not empty, and the token does not go on with a name character. *)
Definition name_run (part b : pystr) : Prop :=
  b <> [] /\ Forall (fun c => Re.name_char c = true) b
  /\ exists rest,
       part = b ++ rest
       /\ match rest with c :: _ => Re.name_char c = false | [] => True end.

(** No manual identifier takes the token [part]: the first of them the
    token starts with, if there is one, is the empty string. *)
Definition unclaimed (manual_buyer_ids : list pystr) (part : pystr) : Prop :=
  forall id, List.find (Py.startswith part) manual_buyer_ids = Some id -> id = [].

(** A plain product name: not empty, without whitespace at either end,
    without digit or newline, and not starting with a full stop. *)
Definition plain_name (name : pystr) : Prop :=
  name <> [] /\ trimmed name
  /\ Forall (fun c => Py.isdecimal c = false /\ c <> Py.newline) name
  /\ hd_error name <> Some Py.full_stop.

(** Whitespace within one line. *)
Definition blank (gap : pystr) : Prop :=
  Forall (fun c => Py.isspace c = true /\ c <> Py.newline) gap.

(* ===================================================================== *)
(** * Properties                                                          *)
(* ===================================================================== *)

(** ** Strings *)

Lemma truthy_nonempty (s : pystr) : Py.truthy s = true <-> s <> [].
Proof. destruct s; simpl; split; congruence. Qed.

Lemma startswith_prefix (s p : pystr) :
  Py.startswith s p = true <-> exists rest, s = p ++ rest.
Proof.
  revert s. induction p as [|c p IH]; intros s; simpl.
  - split; [intros _; by exists s | done].
  - destruct s as [|d s]; simpl.
    + split; [discriminate | intros [rest H]; discriminate].
    + rewrite andb_true_iff, N.eqb_eq, IH. split.
      * intros [-> [rest ->]]. eauto.
      * intros [rest H]. injection H as -> ->. eauto.
Qed.

Lemma startswith_app (p rest : pystr) : Py.startswith (p ++ rest) p = true.
Proof. apply startswith_prefix. eauto. Qed.

Lemma lstrip_length (s : pystr) : (length (Py.lstrip s) <= length s)%nat.
Proof.
  induction s as [|c s IH]; simpl; [lia|].
  destruct (Py.isspace c); simpl; lia.
Qed.

Lemma strip_length (s : pystr) : (length (Py.strip s) <= length s)%nat.
Proof.
  unfold Py.strip, Py.rstrip. rewrite length_rev.
  etransitivity; [apply lstrip_length|]. rewrite length_rev.
  apply lstrip_length.
Qed.

Lemma lstrip_fixed (s : pystr) :
  Py.lstrip s = s <-> match s with [] => True | c :: _ => Py.isspace c = false end.
Proof.
  destruct s as [|c s]; simpl; [tauto|].
  destruct (Py.isspace c) eqn:E; split; try congruence.
  intros H. pose proof (lstrip_length s) as L. rewrite H in L. simpl in L. lia.
Qed.

Lemma lstrip_idem (s : pystr) : Py.lstrip (Py.lstrip s) = Py.lstrip s.
Proof.
  induction s as [|c s IH]; simpl; [done|].
  destruct (Py.isspace c) eqn:E; [done|]. simpl. by rewrite E.
Qed.

Lemma lstrip_suffix (s : pystr) : exists pre, s = pre ++ Py.lstrip s.
Proof.
  induction s as [|c s [pre IH]]; simpl; [by exists []|].
  destruct (Py.isspace c); [|by exists []].
  exists (c :: pre). simpl. congruence.
Qed.

Lemma trimmed_strip (s : pystr) : trimmed s -> Py.strip s = s.
Proof.
  intros [H1 H2]. unfold Py.strip, Py.rstrip. rewrite H1, H2. apply rev_involutive.
Qed.

Lemma strip_trimmed (s : pystr) : trimmed (Py.strip s).
Proof.
  unfold trimmed, Py.strip, Py.rstrip. rewrite rev_involutive, lstrip_idem.
  split; [|done].
  apply lstrip_fixed.
  destruct (rev (Py.lstrip (rev (Py.lstrip s)))) as [|c t] eqn:E; [done|].
  destruct (lstrip_suffix (rev (Py.lstrip s))) as [pre Hpre].
  apply (f_equal (@rev _)) in Hpre. rewrite rev_involutive, rev_app_distr, E in Hpre.
  pose proof (lstrip_idem s) as Hid. rewrite Hpre in Hid. simpl in Hid.
  destruct (Py.isspace c) eqn:Ec; [|done].
  pose proof (lstrip_length (t ++ rev pre)) as L. rewrite Hid in L. simpl in L. lia.
Qed.

Lemma strip_idem (s : pystr) : Py.strip (Py.strip s) = Py.strip s.
Proof. apply trimmed_strip, strip_trimmed. Qed.

Lemma in_lstrip (c : Py.char) (s : pystr) : c ∈ Py.lstrip s -> c ∈ s.
Proof.
  destruct (lstrip_suffix s) as [pre H]. intros Hc. rewrite H.
  apply elem_of_app. by right.
Qed.

Lemma in_strip (c : Py.char) (s : pystr) : c ∈ Py.strip s -> c ∈ s.
Proof.
  unfold Py.strip, Py.rstrip. intros H.
  apply list_elem_of_In, in_rev in H. apply list_elem_of_In, in_lstrip in H.
  apply list_elem_of_In, in_rev in H. by apply list_elem_of_In, in_lstrip in H.
Qed.

Lemma contains_spec (c : Py.char) (s : pystr) : Py.contains c s = true <-> c ∈ s.
Proof.
  unfold Py.contains. rewrite existsb_exists. split.
  - intros (x & Hx & E). apply N.eqb_eq in E. subst. by apply list_elem_of_In.
  - intros H. exists c. split; [by apply list_elem_of_In | apply N.eqb_refl].
Qed.

Lemma contains_false (c : Py.char) (s : pystr) : Py.contains c s = false <-> c ∉ s.
Proof.
  rewrite <- contains_spec. destruct (Py.contains c s); split; congruence.
Qed.

(** ** The matcher *)

Lemma span_le (cls : Py.char -> bool) (s : pystr) : (Re.span cls s <= length s)%nat.
Proof.
  induction s as [|c s IH]; simpl; [lia|]. destruct (cls c); simpl; lia.
Qed.

Lemma greedy_le (cls : Py.char -> bool) (hi : option nat) (s : pystr) :
  (Re.greedy cls hi s <= Re.span cls s)%nat.
Proof. destruct hi; simpl; lia. Qed.

Lemma drop_span (cls : Py.char -> bool) (s : pystr) :
  match drop (Re.span cls s) s with
  | c :: _ => cls c = false
  | [] => True
  end.
Proof.
  induction s as [|c s IH]; simpl; [done|].
  destruct (cls c) eqn:E; simpl; [done|congruence].
Qed.

Lemma span_app (cls : Py.char -> bool) (a rest : pystr) :
  Forall (fun c => cls c = true) a ->
  match rest with c :: _ => cls c = false | [] => True end ->
  Re.span cls (a ++ rest) = length a.
Proof.
  intros Ha Hrest. induction Ha as [|c a Hc _ IH]; simpl.
  - destruct rest as [|c rest]; simpl; [done|]. by rewrite Hrest.
  - by rewrite Hc, IH.
Qed.

Lemma backtrack_unfold (k : pystr -> option (list pystr)) (lo n : nat) (s : pystr) :
  Re.backtrack k lo n s =
  if (n <? lo)%nat then None
  else match k (drop n s) with
       | Some segs => Some (take n s :: segs)
       | None => match n with
                 | O => None
                 | S n' => Re.backtrack k lo n' s
                 end
       end.
Proof. destruct n; reflexivity. Qed.

Lemma backtrack_spec (k : pystr -> option (list pystr)) (lo n : nat) (s : pystr)
    (r : list pystr) :
  Re.backtrack k lo n s = Some r ->
  exists m segs, (lo <= m <= n)%nat /\ k (drop m s) = Some segs /\ r = take m s :: segs.
Proof.
  induction n as [|n IH]; rewrite backtrack_unfold.
  - destruct (Nat.ltb_spec 0 lo); [done|].
    destruct (k (drop 0 s)) as [segs|] eqn:E; [|done].
    intros [= <-]. exists O, segs. repeat split; try done; lia.
  - destruct (Nat.ltb_spec (S n) lo); [done|].
    destruct (k (drop (S n) s)) as [segs|] eqn:E.
    + intros [= <-]. exists (S n), segs. repeat split; try done; lia.
    + intros H'. destruct (IH H') as (m & segs & Hm & Hk & ->).
      exists m, segs. repeat split; try done; lia.
Qed.

(** The segments of a match are consecutive pieces of the text. *)
Lemma match_here_concat (p : Re.pattern) (s : pystr) (segs : list pystr) :
  Re.match_here p s = Some segs ->
  s = concat segs ++ drop (length (concat segs)) s.
Proof.
  revert s segs. induction p as [|a p IH]; intros s segs; simpl.
  - by intros [= <-].
  - destruct a as [cls lo hi|f].
    + intros H. apply backtrack_spec in H as (m & segs' & Hm & Hk & ->).
      pose proof (greedy_le cls hi s). pose proof (span_le cls s).
      apply IH in Hk. simpl. rewrite length_app, length_take_le by lia.
      rewrite <- drop_drop, <- app_assoc, <- Hk. by rewrite take_drop.
    + destruct (f s); [|done].
      destruct (Re.match_here p s) as [segs'|] eqn:E; [|done].
      intros [= <-]. simpl. by apply IH.
Qed.

Lemma match_here_length (p : Re.pattern) (s : pystr) (segs : list pystr) :
  Re.match_here p s = Some segs -> (length (concat segs) <= length s)%nat.
Proof.
  intros H. apply match_here_concat in H.
  apply (f_equal length) in H. rewrite length_app in H. lia.
Qed.

(** One open-ended repetition: the whole run, when it is long enough. *)
Lemma match_one_rep (cls : Py.char -> bool) (lo : nat) (s : pystr) :
  Re.match_here [Re.Rep cls lo None] s =
  if (Re.span cls s <? lo)%nat then None else Some [take (Re.span cls s) s].
Proof.
  simpl. rewrite backtrack_unfold. by destruct (_ <? _)%nat.
Qed.

(** A repetition followed by an optional run: no backtracking happens. *)
Lemma match_two_reps (c1 c2 : Py.char -> bool) (lo : nat) (s : pystr) :
  Re.match_here [Re.Rep c1 lo None; Re.Rep c2 0 None] s =
  if (Re.span c1 s <? lo)%nat then None
  else Some [take (Re.span c1 s) s;
             take (Re.span c2 (drop (Re.span c1 s) s)) (drop (Re.span c1 s) s)].
Proof.
  change (Re.match_here [Re.Rep c1 lo None; Re.Rep c2 0 None] s)
    with (Re.backtrack (Re.match_here [Re.Rep c2 0 None]) lo (Re.span c1 s) s).
  rewrite backtrack_unfold. destruct (_ <? _)%nat; [done|].
  by rewrite match_one_rep.
Qed.

(** [re.sub] leaves a text without match as it is. *)
Lemma sub_no_match (p : Re.pattern) (i : nat) (s : pystr) :
  Re.search_from p i s = None -> Re.sub_from p 0 s = s.
Proof.
  revert i. induction s as [|c s IH]; intros i; simpl; [done|].
  destruct (Re.match_here p (c :: s)); [done|].
  intros H. f_equal. by eapply IH.
Qed.

(** [re.sub] only deletes. *)
Lemma sub_from_sublist (p : Re.pattern) (k : nat) (s : pystr) :
  sublist (Re.sub_from p k s) s.
Proof.
  revert k. induction s as [|c s IH]; intros k; simpl; [constructor|].
  destruct k as [|k]; [|by constructor].
  destruct (Re.match_here p (c :: s)) as [segs|].
  - destruct (length (concat segs)); by constructor.
  - by constructor.
Qed.

Lemma sub_sublist (p : Re.pattern) (s : pystr) : sublist (Re.sub p s) s.
Proof. apply sub_from_sublist. Qed.

Lemma sublist_in {A : Type} (x : A) (l1 l2 : list A) :
  sublist l1 l2 -> x ∈ l1 -> x ∈ l2.
Proof.
  induction 1 as [|y l1 l2 _ IH|y l1 l2 _ IH]; [done| |].
  - rewrite !elem_of_cons. intros [->|H]; [by left | right; auto].
  - intros H. apply elem_of_cons. right. auto.
Qed.

(** ** Digits and [int] *)

Lemma digit_value_run (c : Py.char) (d : Z) :
  Py.digit_value c = Some d ->
  exists zero, In zero Py.decimal_zeros /\ zero <= c < zero + 10 /\ d = Z.of_N (c - zero).
Proof.
  unfold Py.digit_value.
  destruct (List.find (Py.in_run c) Py.decimal_zeros) as [zero|] eqn:E; [|done].
  intros [= <-]. apply find_some in E as [Hin Hrun].
  unfold Py.in_run in Hrun. apply andb_true_iff in Hrun as [H1 H2].
  apply N.leb_le in H1. apply N.ltb_lt in H2. eauto.
Qed.

Lemma digit_value_range (c : Py.char) (d : Z) :
  Py.digit_value c = Some d -> (0 <= d <= 9)%Z.
Proof. intros H. apply digit_value_run in H as (zero & _ & Hc & ->). lia. Qed.

Lemma isdecimal_value (c : Py.char) :
  Py.isdecimal c = true <-> exists d, Py.digit_value c = Some d.
Proof.
  unfold Py.isdecimal. destruct (Py.digit_value c); split; eauto; try done.
  by intros [d H].
Qed.

Lemma digits_avoid_spec (cls : Py.char -> bool) (c : Py.char) :
  digits_avoid cls = true -> Py.isdecimal c = true -> cls c = false.
Proof.
  intros Hall Hc. apply isdecimal_value in Hc as [d Hd].
  apply digit_value_run in Hd as (zero & Hin & Hrange & _).
  unfold digits_avoid in Hall. rewrite forallb_forall in Hall.
  specialize (Hall zero Hin). rewrite forallb_forall in Hall.
  assert (In (c - zero) [0; 1; 2; 3; 4; 5; 6; 7; 8; 9]) as Hi.
  { assert (c - zero = 0 \/ c - zero = 1 \/ c - zero = 2 \/ c - zero = 3
            \/ c - zero = 4 \/ c - zero = 5 \/ c - zero = 6 \/ c - zero = 7
            \/ c - zero = 8 \/ c - zero = 9) as H by lia.
    simpl. intuition auto. }
  specialize (Hall _ Hi). apply negb_true_iff in Hall.
  by replace (zero + (c - zero)) with c in Hall by lia.
Qed.

Lemma digit_not_name_char (c : Py.char) :
  Py.isdecimal c = true -> Re.name_char c = false.
Proof. apply digits_avoid_spec. by vm_compute. Qed.

Lemma int_digits_acc (s : pystr) (a q : Z) :
  fold_left
    (fun acc c =>
       match acc, Py.digit_value c with
       | Some n, Some d => Some (10 * n + d)%Z
       | _, _ => None
       end) s (Some a) = Some q ->
  (0 <= a)%Z -> (0 <= q)%Z /\ Forall (fun c => Py.isdecimal c = true) s.
Proof.
  revert a. induction s as [|c s IH]; intros a; simpl.
  - intros [= <-] Ha. by split.
  - destruct (Py.digit_value c) as [d|] eqn:E.
    + intros H Ha. pose proof (digit_value_range _ _ E).
      apply IH in H as [Hq Hs]; [|lia]. split; [done|].
      constructor; [|done]. apply isdecimal_value. eauto.
    + intros H. exfalso. clear -H. induction s as [|c' s IH]; simpl in H; [done|auto].
Qed.

(** What [int] accepted is a non-empty run of digits, read as a number
    that is not negative. *)
Lemma int_some (s : pystr) (q : Z) :
  Py.int s = Some q ->
  s <> [] /\ Forall (fun c => Py.isdecimal c = true) s /\ (0 <= q)%Z.
Proof.
  unfold Py.int. destruct s as [|c s]; [done|].
  destruct (_ <? _)%nat; [done|]. intros H.
  apply int_digits_acc in H as [? ?]; [|lia]. done.
Qed.

Lemma reads_quantity_digits (ds : pystr) (q : Z) :
  reads_quantity ds q -> Forall (fun c => Py.isdecimal c = true) ds /\ (0 <= q)%Z.
Proof.
  intros [[-> ->]|[_ H]]; [split; [constructor|lia]|].
  apply int_some in H. tauto.
Qed.

(** ** One iteration of the tokenizer *)

Lemma scan_ids_miss (pre ids : list pystr) (t : pystr) :
  (forall id, id ∈ pre -> Py.startswith t id = false) ->
  scan_ids (pre ++ ids) t = scan_ids ids t.
Proof.
  induction pre as [|id pre IH]; intros H; simpl; [done|].
  rewrite (H id) by constructor. apply IH. intros id' Hid'. apply H. by constructor.
Qed.

Lemma scan_ids_none (ids : list pystr) (t : pystr) :
  (forall id, id ∈ ids -> Py.startswith t id = false) ->
  scan_ids ids t = Some no_buyer.
Proof.
  intros H. rewrite <- (app_nil_r ids). by rewrite scan_ids_miss.
Qed.

(** The identifiers either all fail, or split at the first that is a
    prefix of the buffer. *)
Lemma first_prefix (ids : list pystr) (t : pystr) :
  (forall id, id ∈ ids -> Py.startswith t id = false)
  \/ exists pre b post,
       ids = pre ++ b :: post
       /\ (forall id, id ∈ pre -> Py.startswith t id = false)
       /\ Py.startswith t b = true.
Proof.
  induction ids as [|id ids IH].
  - left. intros id H. inversion H.
  - destruct (Py.startswith t id) eqn:E.
    + right. exists [], id, ids. repeat split; [|done]. intros id' H. inversion H.
    + destruct IH as [IH|(pre & b & post & -> & Hpre & Hb)].
      * left. intros id' H. inversion H; subst; auto.
      * right. exists (id :: pre), b, post. repeat split; [|done].
        intros id' H. inversion H; subst; auto.
Qed.

(** Pass 1 at the identifier that matches: the digits after it. *)
Lemma scan_ids_hit (b : pystr) (post : list pystr) (rest0 : pystr) :
  scan_ids (b :: post) (b ++ rest0) =
  let n := Re.span Re.digit rest0 in
  match n with
  | O => Some {| found_buyer := Some b; quantity := 1; match_length := length b |}
  | S _ =>
      match Py.int (take n rest0) with
      | Some q =>
          Some {| found_buyer := Some b; quantity := q;
                  match_length := length b + length (take n rest0) |}
      | None => None
      end
  end.
Proof.
  cbn [scan_ids]. rewrite startswith_app, drop_app_length.
  unfold Re.match_, quantity_pattern. rewrite match_one_rep.
  by destruct (Re.span Re.digit rest0).
Qed.

Lemma scan_ids_found (ids : list pystr) (t : pystr) (s : Scan) :
  scan_ids ids t = Some s ->
  s = no_buyer
  \/ exists b ds rest,
       found_buyer s = Some b /\ b ∈ ids /\ t = b ++ ds ++ rest
       /\ no_digit_ahead rest /\ reads_quantity ds (quantity s)
       /\ match_length s = (length b + length ds)%nat.
Proof.
  destruct (first_prefix ids t) as [Hnone|(pre & b & post & -> & Hpre & Hb)].
  - rewrite scan_ids_none by done. intros [= <-]. by left.
  - rewrite scan_ids_miss by done.
    apply startswith_prefix in Hb as [rest0 ->]. rewrite scan_ids_hit.
    pose proof (drop_span Re.digit rest0) as Hahead.
    pose proof (take_drop (Re.span Re.digit rest0) rest0) as Hsplit.
    intros H. right.
    assert (b ∈ pre ++ b :: post) as Hin by (apply elem_of_app; right; constructor).
    simpl in H. destruct (Re.span Re.digit rest0) as [|n] eqn:En.
    + injection H as <-. exists b, [], rest0. simpl.
      repeat split; try done. by left.
    + destruct (Py.int (take (S n) rest0)) as [q|] eqn:Eq; [|done].
      injection H as <-. exists b, (take (S n) rest0), (drop (S n) rest0). simpl.
      rewrite Hsplit. repeat split; try done. right. split; [|done].
      by apply int_some in Eq as [? _].
Qed.

(** Pass 2, computed: the run of name characters, then the run of
    digits. *)
Lemma scan_name_unfold (valid_buyers : list pystr) (t : pystr) (s : Scan) :
  scan_name valid_buyers t s =
  if found (found_buyer s) then Some s
  else
    let n := Re.span Re.name_char t in
    let name := take n t in
    let digits := take (Re.span Re.digit (drop n t)) (drop n t) in
    if (n <? 1)%nat then Some s
    else if bool_decide (name ∈ valid_buyers) then
      if Py.truthy digits then
        match Py.int digits with
        | Some q =>
            Some {| found_buyer := Some name; quantity := q;
                    match_length := length name + length digits |}
        | None => None
        end
      else Some {| found_buyer := Some name; quantity := quantity s;
                   match_length := length name |}
    else Some s.
Proof.
  unfold scan_name, Re.match_, name_quantity_pattern.
  rewrite match_two_reps. destruct (found (found_buyer s)); [done|].
  by destruct (_ <? _)%nat.
Qed.

Lemma pass1_scan_ids (valid_buyers : list pystr) (t : pystr) :
  (if bool_decide (valid_buyers = []) then Some no_buyer
   else scan_ids valid_buyers t) = scan_ids valid_buyers t.
Proof. case_bool_decide as H; [by rewrite H | done]. Qed.

(** Pass 2 when it accepts a name: the name is a valid buyer the buffer
    starts with, and the digits after it give the quantity, which stays
    as pass 1 left it when there are none. *)
Lemma scan_name_found (valid_buyers : list pystr) (t b : pystr) (s s' : Scan) :
  scan_name valid_buyers t s = Some s' ->
  found (found_buyer s) = false ->
  found_buyer s' = Some b -> b <> [] ->
  b ∈ valid_buyers
  /\ exists ds,
       t = b ++ ds ++ drop (match_length s') t
       /\ no_digit_ahead (drop (match_length s') t)
       /\ ((ds = [] /\ quantity s' = quantity s)
           \/ (ds <> [] /\ Py.int ds = Some (quantity s')))
       /\ match t with c :: _ => Re.name_char c = true | [] => False end.
Proof.
  rewrite scan_name_unfold. intros H Hs. rewrite Hs in H. cbv zeta in H.
  set (n := Re.span Re.name_char t) in *.
  set (rest := drop n t) in *.
  set (k := Re.span Re.digit rest) in *.
  assert (found_buyer s = Some b -> b <> [] -> False) as Hold.
  { intros E Hb. unfold found in Hs. rewrite E in Hs.
    apply truthy_nonempty in Hb. congruence. }
  destruct (Nat.ltb_spec n 1) as [|Hn]; [injection H as <-; tauto|].
  case_bool_decide as Hname; [|injection H as <-; tauto].
  pose proof (span_le Re.name_char t) as Hnt. fold n in Hnt.
  pose proof (span_le Re.digit rest) as Hkr. fold k in Hkr.
  pose proof (take_drop n t) as Hsplit. fold rest in Hsplit.
  pose proof (take_drop k rest) as Hsplit'.
  pose proof (drop_span Re.digit rest) as Hahead. fold k in Hahead.
  assert (match t with c :: _ => Re.name_char c = true | [] => False end) as Hhead.
  { unfold n in Hn. destruct t as [|c t']; simpl in Hn; [lia|].
    destruct (Re.name_char c); [done|lia]. }
  destruct (Py.truthy (take k rest)) eqn:Ed.
  - destruct (Py.int (take k rest)) as [q|] eqn:Eq; [|done].
    injection H as <-. simpl. intros [= <-] _. split; [done|].
    exists (take k rest).
    rewrite !length_take_le by lia. rewrite <- drop_drop. fold rest.
    rewrite Hsplit', Hsplit. repeat split; try done.
    right. split; [by apply truthy_nonempty | done].
  - injection H as <-. simpl. intros [= <-] _. split; [done|].
    exists []. rewrite length_take_le by lia. fold rest. simpl.
    rewrite Hsplit. repeat split; try done; [|by left].
    destruct k as [|k'].
    + by rewrite drop_0 in Hahead.
    + destruct rest; simpl in Ed; [simpl in Hkr; lia | done].
Qed.

(** What an iteration appends: a non-empty valid buyer the trimmed
    buffer continues with, the digits after it as the quantity, and the
    text after those digits as the next buffer. *)
Lemma order_step_emit (valid_buyers : list pystr) (buf b rest : pystr) (q : Z) :
  order_step valid_buyers buf = Emit (b, q) rest ->
  b <> [] /\ b ∈ valid_buyers
  /\ exists ds, Py.strip buf = b ++ ds ++ rest
       /\ no_digit_ahead rest /\ reads_quantity ds q.
Proof.
  unfold order_step. set (t := Py.strip buf).
  destruct (Py.truthy t) eqn:Et; simpl; [|done].
  rewrite pass1_scan_ids.
  destruct (scan_ids valid_buyers t) as [s1|] eqn:E1; [|done].
  destruct (scan_name valid_buyers t s1) as [s|] eqn:E2; [|done].
  destruct (found_buyer s) as [b'|] eqn:Ef; [|done].
  destruct (Py.truthy b') eqn:Eb; [|done].
  intros [= -> <- <-]. apply truthy_nonempty in Eb.
  split; [done|].
  apply scan_ids_found in E1
    as [->|(b1 & ds1 & rest1 & Hf & Hin & Ht & Hahead & Hq & Hlen)].
  - (* pass 1 found nothing *)
    eapply scan_name_found in E2 as (Hin & ds & Ht & Hahead & Hq & _); try done.
    split; [done|]. by exists ds.
  - destruct (Py.truthy b1) eqn:Eb1.
    + (* pass 1 stopped at [b1], pass 2 is skipped *)
      unfold scan_name in E2. unfold found in E2. rewrite Hf, Eb1 in E2.
      injection E2 as <-. rewrite Hf in Ef. injection Ef as <-.
      split; [done|]. rewrite Hlen.
      assert (drop (length b1 + length ds1) t = rest1) as ->.
      { by rewrite Ht, <- drop_drop, !drop_app_length. }
      by exists ds1.
    + (* pass 1 stopped at the empty identifier, pass 2 runs *)
      destruct b1; [|done]. simpl in Ht.
      eapply scan_name_found in E2 as (Hin' & ds & Ht' & Hahead' & Hq' & Hhead);
        try done; [|by unfold found; rewrite Hf].
      split; [done|]. exists ds. repeat split; try done.
      destruct Hq' as [[-> Hq']|[? ?]]; [|by right]. left. split; [done|].
      rewrite Hq'. destruct Hq as [[_ ->]|[Hne Hint]]; [done|]. exfalso.
      destruct ds1 as [|c ds1]; [done|].
      apply int_some in Hint as (_ & Hds & _). inversion Hds as [|? ? Hc _]; subst.
      apply digit_not_name_char in Hc. rewrite Ht in Hhead. simpl in Hhead. congruence.
Qed.

Lemma order_step_skip (valid_buyers : list pystr) (buf rest : pystr) :
  order_step valid_buyers buf = Skip rest ->
  Py.strip buf <> [] /\ rest = drop 1 (Py.strip buf).
Proof.
  unfold order_step. set (t := Py.strip buf).
  destruct (Py.truthy t) eqn:Et; simpl; [|done].
  apply truthy_nonempty in Et.
  destruct (if bool_decide (valid_buyers = []) then _ else _) as [s1|]; [|done].
  destruct (scan_name valid_buyers t s1) as [s|]; [|done].
  destruct (found_buyer s) as [b|]; [destruct (Py.truthy b)|]; by intros [= <-].
Qed.

(** Each iteration that continues hands a strictly shorter buffer on. *)
Lemma order_step_shorter (valid_buyers : list pystr) (buf rest : pystr) :
  (exists order, order_step valid_buyers buf = Emit order rest)
  \/ order_step valid_buyers buf = Skip rest ->
  (length rest < length buf)%nat.
Proof.
  pose proof (strip_length buf) as Hlen.
  intros [[[b q] H]|H].
  - apply order_step_emit in H as (Hb & _ & ds & Ht & _).
    rewrite Ht, !length_app in Hlen. destruct b; [done|]. simpl in Hlen. lia.
  - apply order_step_skip in H as [Hne ->].
    destruct (Py.strip buf); [done|]. simpl in *. rewrite drop_0. lia.
Qed.

(** ** The loop *)

Lemma order_loop_enough (fuel : nat) (valid_buyers : list pystr) (buf : pystr)
    (orders : list (pystr * Z)) :
  (length buf < fuel)%nat -> order_loop fuel valid_buyers buf orders <> OutOfFuel.
Proof.
  revert buf orders. induction fuel as [|fuel IH]; intros buf orders Hlen; [lia|].
  simpl. destruct (order_step valid_buyers buf) as [| |order rest|rest] eqn:E;
    try done.
  - apply IH. assert (length rest < length buf)%nat; [|lia].
    apply (order_step_shorter valid_buyers). left. eauto.
  - apply IH. assert (length rest < length buf)%nat; [|lia].
    apply (order_step_shorter valid_buyers). by right.
Qed.

Lemma order_loop_unfold (fuel : nat) (valid_buyers : list pystr) (buf : pystr)
    (orders : list (pystr * Z)) :
  order_loop (S fuel) valid_buyers buf orders =
  match order_step valid_buyers buf with
  | Break => Returned orders
  | Raise => Raised
  | Emit order rest => order_loop fuel valid_buyers rest (orders ++ [order])
  | Skip rest => order_loop fuel valid_buyers rest orders
  end.
Proof. reflexivity. Qed.

(** More fuel than the buffer is long changes nothing. *)
Lemma order_loop_fuel (fuel1 fuel2 : nat) (valid_buyers : list pystr)
    (buf : pystr) (orders : list (pystr * Z)) :
  (length buf < fuel1)%nat -> (length buf < fuel2)%nat ->
  order_loop fuel1 valid_buyers buf orders = order_loop fuel2 valid_buyers buf orders.
Proof.
  revert fuel2 buf orders.
  induction fuel1 as [|fuel1 IH]; intros fuel2 buf orders H1 H2; [lia|].
  destruct fuel2 as [|fuel2]; [lia|]. simpl.
  destruct (order_step valid_buyers buf) as [| |order rest|rest] eqn:E; try done.
  - assert (length rest < length buf)%nat
      by (apply (order_step_shorter valid_buyers); left; eauto).
    apply IH; lia.
  - assert (length rest < length buf)%nat
      by (apply (order_step_shorter valid_buyers); by right).
    apply IH; lia.
Qed.

Lemma order_loop_acc (fuel : nat) (valid_buyers : list pystr) (buf : pystr)
    (acc : list (pystr * Z)) :
  order_loop fuel valid_buyers buf acc
  = with_prefix acc (order_loop fuel valid_buyers buf []).
Proof.
  revert buf acc. induction fuel as [|fuel IH]; intros buf acc; simpl; [done|].
  destruct (order_step valid_buyers buf) as [| |order rest|rest]; simpl.
  - by rewrite app_nil_r.
  - done.
  - rewrite (IH rest (acc ++ [order])), (IH rest [order]).
    destruct (order_loop fuel valid_buyers rest []); simpl; try done.
    by rewrite <- app_assoc.
  - apply IH.
Qed.

(** What holds of every appended pair holds of the whole result. *)
Lemma order_loop_forall (P : pystr * Z -> Prop) (fuel : nat)
    (valid_buyers : list pystr) (buf : pystr) (acc orders : list (pystr * Z)) :
  (forall buf' order rest,
      order_step valid_buyers buf' = Emit order rest -> P order) ->
  Forall P acc ->
  order_loop fuel valid_buyers buf acc = Returned orders ->
  Forall P orders.
Proof.
  intros Hstep. revert buf acc.
  induction fuel as [|fuel IH]; intros buf acc Hacc; simpl; [done|].
  destruct (order_step valid_buyers buf) as [| |order rest|rest] eqn:E.
  - by intros [= <-].
  - done.
  - apply IH. apply Forall_app. split; [done|].
    constructor; [|constructor]. eauto.
  - by apply IH.
Qed.

Lemma parse_order_info_forall (P : pystr * Z -> Prop) (msg : pystr)
    (valid_buyers : list pystr) :
  (forall buf' order rest,
      order_step valid_buyers buf' = Emit order rest -> P order) ->
  Forall P (parse_order_info msg valid_buyers).
Proof.
  intros Hstep. unfold parse_order_info, run_orders.
  destruct (Py.contains Py.slash msg); [|constructor].
  destruct (order_loop _ _ _ _) as [orders| |] eqn:E; try constructor.
  eapply order_loop_forall in E; eauto.
Qed.

(** C5. The tokenizer terminates on every buffer: an iteration that
    appends a pair consumes the non-empty buyer and the digits after it,
    an iteration that matches nothing drops exactly one character of
    the trimmed buffer, either way the next buffer is strictly shorter,
    and the loop never runs out of the fuel of one iteration per
    character. *)
Theorem C5_tokenizer_terminates (valid_buyers : list pystr) (buf : pystr) :
  (forall order rest,
      order_step valid_buyers buf = Emit order rest ->
      (length rest < length buf)%nat
      /\ fst order <> []
      /\ exists ds, Py.strip buf = fst order ++ ds ++ rest)
  /\ (forall rest,
         order_step valid_buyers buf = Skip rest ->
         (length rest < length buf)%nat /\ rest = drop 1 (Py.strip buf))
  /\ (forall fuel orders,
         (length buf < fuel)%nat ->
         order_loop fuel valid_buyers buf orders <> OutOfFuel)
  /\ run_orders valid_buyers buf <> OutOfFuel.
Proof.
  repeat split.
  - apply (order_step_shorter valid_buyers). left. eauto.
  - destruct order as [b q]. by apply order_step_emit in H as (? & _).
  - destruct order as [b q]. apply order_step_emit in H as (_ & _ & ds & ? & _).
    by exists ds.
  - apply (order_step_shorter valid_buyers). by right.
  - by apply order_step_skip in H as [_ ?].
  - intros fuel orders. apply order_loop_enough.
  - apply order_loop_enough. lia.
Qed.

Lemma C5_tokenizer_terminates_witness :
  run_orders [Py.lit "철수"] (Py.lit "철수2, 영희 철수") <> OutOfFuel.
Proof.
  exact (proj2 (proj2 (proj2
    (C5_tokenizer_terminates [Py.lit "철수"] (Py.lit "철수2, 영희 철수"))))).
Defined.

(** ** The order of strings and keys *)

Lemma compare_eq (a b : pystr) : Py.compare a b = Eq <-> a = b.
Proof.
  revert b. induction a as [|x a IH]; intros [|y b]; simpl; try (split; done).
  destruct (N.compare_spec x y) as [->|H|H].
  - rewrite IH. split; congruence.
  - split; [done|]. intros [= -> _]. lia.
  - split; [done|]. intros [= -> _]. lia.
Qed.

Lemma compare_lt (a b : pystr) : Py.compare a b = Lt <-> str_lt a b.
Proof.
  revert b. induction a as [|x a IH]; intros [|y b]; simpl.
  - split; [done|]. inversion 1.
  - split; [constructor|done].
  - split; [done|]. inversion 1.
  - destruct (N.compare_spec x y) as [->|H|H].
    + rewrite IH. split; [by constructor|]. inversion 1; subst; [lia|done].
    + split; [by constructor|done].
    + split; [done|]. inversion 1; subst; lia.
Qed.

Lemma compare_gt (a b : pystr) : Py.compare a b = Gt -> Py.compare b a = Lt.
Proof.
  revert b. induction a as [|x a IH]; intros [|y b]; simpl; try done.
  rewrite (N.compare_antisym x y).
  destruct (N.compare_spec x y) as [->|H|H]; simpl; auto.
Qed.

Lemma str_lt_trans (a b c : pystr) : str_lt a b -> str_lt b c -> str_lt a c.
Proof.
  intros H. revert c. induction H; intros c' Hc; inversion Hc; subst.
  - constructor.
  - constructor.
  - constructor. lia.
  - by constructor.
  - by constructor.
  - apply str_lt_tail. auto.
Qed.

Lemma key_leb_true (a b : Order) : key_leb a b = true -> key_le a b.
Proof.
  unfold key_leb, key_le.
  destruct (Py.compare _ _) eqn:E; [|intros _|done].
  - intros H. right. split; [by apply compare_eq | by apply Z.leb_le].
  - left. by apply compare_lt.
Qed.

Lemma key_leb_false (a b : Order) : key_leb a b = false -> key_le b a.
Proof.
  unfold key_leb, key_le.
  destruct (Py.compare _ _) eqn:E; [|done|intros _].
  - intros H. right. apply compare_eq in E. apply Z.leb_gt in H. split; [done|lia].
  - left. by apply compare_lt, compare_gt.
Qed.

Lemma key_le_trans (a b c : Order) : key_le a b -> key_le b c -> key_le a c.
Proof.
  unfold key_le. intros [H1|[H1 H1']] [H2|[H2 H2']].
  - left. eapply str_lt_trans; eauto.
  - left. by rewrite <- H2.
  - left. by rewrite H1.
  - right. split; [congruence|lia].
Qed.

(** ** The stable sort *)

Section SortingFacts.
Context {A : Type} (leb : A -> A -> bool) (R : A -> A -> Prop).
Hypothesis leb_true : forall x y, leb x y = true -> R x y.
Hypothesis leb_false : forall x y, leb x y = false -> R y x.

Lemma insert_sorted_perm (x : A) (l : list A) : insert_sorted leb x l ≡ₚ x :: l.
Proof.
  induction l as [|y l IH]; simpl; [done|].
  destruct (leb x y); [done|]. rewrite IH. apply Permutation_swap.
Qed.

Lemma stable_sort_perm (l : list A) : stable_sort leb l ≡ₚ l.
Proof.
  induction l as [|x l IH]; simpl; [done|].
  rewrite insert_sorted_perm. by rewrite IH.
Qed.

Lemma insert_sorted_sorted (x : A) (l : list A) :
  Sorted R l -> Sorted R (insert_sorted leb x l).
Proof.
  induction 1 as [|y l Hl IH Hy]; simpl.
  - repeat constructor.
  - destruct (leb x y) eqn:E.
    + constructor; [by constructor|]. constructor. auto.
    + constructor; [done|].
      destruct l as [|z l]; simpl.
      * constructor. auto.
      * destruct (leb x z); constructor; auto. by inversion Hy.
Qed.

Lemma stable_sort_sorted (l : list A) : Sorted R (stable_sort leb l).
Proof.
  induction l as [|x l IH]; simpl; [constructor|].
  by apply insert_sorted_sorted.
Qed.

End SortingFacts.

(** ** The loop of [process_excel] *)

Lemma fold_left_snoc {A B : Type} (f : A -> B) (l : list A) (acc : list B) :
  fold_left (fun acc x => acc ++ [f x]) l acc = acc ++ List.map f l.
Proof.
  revert acc. induction l as [|x l IH]; intros acc; simpl.
  - by rewrite app_nil_r.
  - by rewrite IH, <- app_assoc.
Qed.

(** A row only appends to [all_orders]. *)
Lemma append_orders_app (valid_buyers : list pystr) (all_orders : list Order)
    (row : Row) :
  append_orders valid_buyers all_orders row
  = all_orders ++ append_orders valid_buyers [] row.
Proof.
  unfold append_orders.
  destruct (negb (Py.truthy (message_of row))); [by rewrite app_nil_r|].
  destruct (extract_product_info (message_of row)) as [[[n name] price]|];
    [|by rewrite app_nil_r].
  destruct (_ && _); [|by rewrite app_nil_r].
  by rewrite !fold_left_snoc.
Qed.

(** The table before the final sort: the rows' contributions, in order. *)
Lemma all_orders_concat (valid_buyers : list pystr) (rows : list Row)
    (all_orders : list Order) :
  fold_left (append_orders valid_buyers) rows all_orders
  = all_orders ++ concat (List.map (append_orders valid_buyers []) rows).
Proof.
  revert all_orders. induction rows as [|row rows IH]; intros all_orders; simpl.
  - by rewrite app_nil_r.
  - by rewrite IH, append_orders_app, <- app_assoc.
Qed.

(** Every row of the table comes from a pair of the tokenizer. *)
Lemma append_orders_pair (valid_buyers : list pystr) (row : Row) (order : Order) :
  order ∈ append_orders valid_buyers [] row ->
  (order_buyer order, order_quantity order)
    ∈ parse_order_info (message_of row) valid_buyers.
Proof.
  unfold append_orders.
  destruct (negb (Py.truthy (message_of row))); [by intros ?%elem_of_nil|].
  destruct (extract_product_info (message_of row)) as [[[n name] price]|];
    [|by intros ?%elem_of_nil].
  destruct (_ && _); [|by intros ?%elem_of_nil].
  rewrite fold_left_snoc. simpl. intros H.
  apply list_elem_of_In, in_map_iff in H as ([b q] & <- & H). simpl.
  by apply list_elem_of_In.
Qed.

Lemma process_excel_rows (sort_by_time : list Row -> option (list Row))
    (iteration_order : gset pystr -> list pystr) (df : DataFrame)
    (manual_buyer_ids : list pystr) (ledger : list Order) :
  process_excel sort_by_time iteration_order df manual_buyer_ids = Some ledger ->
  exists rows valid_buyers,
    ledger = sort_values (concat (List.map (append_orders valid_buyers []) rows))
    /\ ledger <> [].
Proof.
  unfold process_excel.
  destruct (negb _); [done|].
  case_bool_decide; [done|].
  destruct (if has_time_column df then _ else _) as [rows|]; [|done].
  rewrite all_orders_concat. simpl.
  case_bool_decide as Hne; [done|]. intros [= <-].
  eexists rows, _. split; [done|].
  intros Hnil. apply Hne. unfold sort_values in Hnil.
  match type of Hnil with stable_sort _ ?l = _ =>
    pose proof (stable_sort_perm key_leb l) as Hp end.
  rewrite Hnil in Hp. by apply Permutation_nil in Hp.
Qed.

(** ** Quantities *)

Lemma int_digits_zero (s : pystr) (a : Z) :
  fold_left
    (fun acc c =>
       match acc, Py.digit_value c with
       | Some n, Some d => Some (10 * n + d)%Z
       | _, _ => None
       end) s (Some a) = Some 0%Z ->
  (0 <= a)%Z -> a = 0%Z /\ Forall zero_digit s.
Proof.
  revert a. induction s as [|c s IH]; intros a; simpl.
  - intros [= ->] _. by split.
  - destruct (Py.digit_value c) as [d|] eqn:E.
    + intros H Ha. pose proof (digit_value_range _ _ E).
      apply IH in H as [Hq Hs]; [|lia]. split; [lia|].
      constructor; [|done]. unfold zero_digit. rewrite E. f_equal. lia.
    + intros H. exfalso. clear -H. induction s as [|c' s IH]; simpl in H; [done|auto].
Qed.

(** A quantity below 1 is an explicit run of zeros. *)
Lemma reads_quantity_zero (ds : pystr) (q : Z) :
  reads_quantity ds q -> (q < 1)%Z -> q = 0%Z /\ ds <> [] /\ Forall zero_digit ds.
Proof.
  intros [[-> ->]|[Hne H]] Hq; [lia|].
  pose proof (int_some _ _ H) as (_ & _ & Hq0).
  assert (q = 0%Z) as -> by lia. repeat split; [done|].
  unfold Py.int in H. destruct ds; [done|]. destruct (_ <? _)%nat; [done|].
  by apply int_digits_zero in H as [_ ?].
Qed.

(** C3, as amended.  Every pair the tokenizer appends has the quantity
    the text gives it: the default 1 when no digit follows the buyer
    token, and otherwise what [int] reads from the run of digits after
    the token.  That quantity is never negative, and it is below 1 only
    for an explicit run of zeros; so every pair of the result, and every
    row of the ledger, has a quantity that is at least 0. *)
Theorem C3_quantity_of_pairs :
  (forall valid_buyers buf b q rest,
      order_step valid_buyers buf = Emit (b, q) rest ->
      exists ds,
        Py.strip buf = b ++ ds ++ rest /\ no_digit_ahead rest
        /\ reads_quantity ds q /\ (0 <= q)%Z
        /\ ((q < 1)%Z -> q = 0%Z /\ ds <> [] /\ Forall zero_digit ds))
  /\ (forall msg valid_buyers b q,
         (b, q) ∈ parse_order_info msg valid_buyers ->
         (0 <= q)%Z /\ exists ds, reads_quantity ds q)
  /\ (forall sort_by_time iteration_order df manual_buyer_ids ledger,
         process_excel sort_by_time iteration_order df manual_buyer_ids
           = Some ledger ->
         Forall (fun order => (0 <= order_quantity order)%Z) ledger).
Proof.
  assert (forall valid_buyers buf order rest,
             order_step valid_buyers buf = Emit order rest ->
             (0 <= snd order)%Z /\ exists ds, reads_quantity ds (snd order))
    as Hstep.
  { intros vb buf [b q] rest H.
    apply order_step_emit in H as (_ & _ & ds & _ & _ & Hq). simpl.
    split; [by apply reads_quantity_digits in Hq as [_ ?] | eauto]. }
  assert (forall msg valid_buyers b q,
             (b, q) ∈ parse_order_info msg valid_buyers ->
             (0 <= q)%Z /\ exists ds, reads_quantity ds q) as Hpairs.
  { intros msg vb b q Hin.
    pose proof (parse_order_info_forall _ msg vb (Hstep vb)) as Hall.
    rewrite Forall_forall in Hall. by apply (Hall (b, q)). }
  split; [|split].
  - intros vb buf b q rest H.
    apply order_step_emit in H as (_ & _ & ds & Ht & Hahead & Hq).
    exists ds. do 3 (split; [done|]).
    split; [by apply reads_quantity_digits in Hq as [_ ?]|].
    by apply reads_quantity_zero.
  - done.
  - intros sort_by_time iteration_order df manual ledger H.
    apply process_excel_rows in H as (rows & vb & -> & _).
    unfold sort_values. rewrite stable_sort_perm.
    apply Forall_forall. intros order Hin.
    apply list_elem_of_In, in_concat in Hin as (l & Hl & Hin).
    apply in_map_iff in Hl as (row & <- & _).
    apply list_elem_of_In, append_orders_pair in Hin.
    by apply Hpairs in Hin as [? _].
Qed.

Lemma C3_quantity_of_pairs_witness :
  (0 <= 0)%Z /\ exists ds, reads_quantity ds 0%Z.
Proof.
  apply (proj1 (proj2 C3_quantity_of_pairs)
           (Py.lit "1 꿀사과 5000원 / 철수0") [Py.lit "철수"] (Py.lit "철수") 0%Z).
  vm_compute. constructor.
Defined.

(** C3 as the specification states it fails: a buyer token followed by
    the digit 0 gives a pair, and a row of the ledger, of quantity 0. *)
Lemma C3_quantity_counterexample :
  parse_order_info (Py.lit "1 꿀사과 5000원 / 철수0") [Py.lit "철수"]
    = [(Py.lit "철수", 0%Z)]
  /\ ~ Forall (fun order => (1 <= snd order)%Z)
         (parse_order_info (Py.lit "1 꿀사과 5000원 / 철수0") [Py.lit "철수"])
  /\ process_excel (fun rows => Some rows) elements
       {| has_message_column := true; has_sender_column := true;
          has_time_column := false;
          df_rows := [ {| row_message := Some (Py.lit "1 꿀사과 5000원 / 철수0");
                          row_sender := Some (Py.lit "다잇쏘") |} ] |} []
     = Some [ {| order_buyer := Py.lit "철수"; order_number := 1;
                 order_name := Py.lit "꿀사과"; order_price := 5000;
                 order_quantity := 0 |} ].
Proof.
  assert (parse_order_info (Py.lit "1 꿀사과 5000원 / 철수0") [Py.lit "철수"]
            = [(Py.lit "철수", 0%Z)]) as E by (by vm_compute).
  split; [done|]. split; [|by vm_compute].
  rewrite E. intros H. inversion H as [|? ? H1 _]. simpl in H1. lia.
Qed.

(** ** The ledger *)

(** C6. The ledger [process_excel] returns is sorted by buyer and then
    by product number: the key of a row is never after the key of any
    later row. *)
Theorem C6_ledger_sorted (sort_by_time : list Row -> option (list Row))
    (iteration_order : gset pystr -> list pystr) (df : DataFrame)
    (manual_buyer_ids : list pystr) (ledger : list Order) :
  process_excel sort_by_time iteration_order df manual_buyer_ids = Some ledger ->
  StronglySorted key_le ledger.
Proof.
  intros H. apply process_excel_rows in H as (rows & vb & -> & _).
  apply Sorted_StronglySorted.
  - intros a b c. apply key_le_trans.
  - apply stable_sort_sorted; [apply key_leb_true | apply key_leb_false].
Qed.

Lemma C6_ledger_sorted_witness :
  exists ledger,
    process_excel (fun rows => Some rows) elements
      {| has_message_column := true; has_sender_column := true;
         has_time_column := true;
         df_rows :=
           [ {| row_message := Some (Py.lit "2 배 3000원 / 철수 영희2");
                row_sender := Some (Py.lit "다잇쏘") |};
             {| row_message := Some (Py.lit "1 꿀사과 5000원 / 철수3");
                row_sender := Some (Py.lit "만물다잇쏘") |} ] |} []
    = Some ledger
    /\ map order_number ledger = [2%Z; 1%Z; 2%Z]
    /\ StronglySorted key_le ledger.
Proof.
  eexists. split; [vm_compute; reflexivity|]. split; [reflexivity|].
  apply (C6_ledger_sorted (fun rows => Some rows) elements
           {| has_message_column := true; has_sender_column := true;
              has_time_column := true;
              df_rows :=
                [ {| row_message := Some (Py.lit "2 배 3000원 / 철수 영희2");
                     row_sender := Some (Py.lit "다잇쏘") |};
                  {| row_message := Some (Py.lit "1 꿀사과 5000원 / 철수3");
                     row_sender := Some (Py.lit "만물다잇쏘") |} ] |} []).
  vm_compute. reflexivity.
Defined.

(** C8. A row whose message has no ['/'], or for which
    [extract_product_info] returns nothing, leaves the order table as it
    is, and the loop goes on with the rows after it: the table is the
    one the other rows give. *)
Theorem C8_line_skipped (valid_buyers : list pystr) (all_orders : list Order)
    (row : Row) :
  Py.contains Py.slash (message_of row) = false
  \/ extract_product_info (message_of row) = None ->
  append_orders valid_buyers all_orders row = all_orders
  /\ forall before after,
       fold_left (append_orders valid_buyers) (before ++ row :: after) all_orders
       = fold_left (append_orders valid_buyers) (before ++ after) all_orders.
Proof.
  intros H.
  assert (forall acc, append_orders valid_buyers acc row = acc) as Hrow.
  { intros acc. unfold append_orders.
    destruct (negb (Py.truthy (message_of row))); [done|].
    destruct H as [H|H]; rewrite H; [|done].
    destruct (extract_product_info (message_of row)) as [[[n name] price]|]; [|done].
    by rewrite andb_false_r. }
  split; [apply Hrow|].
  intros before after. rewrite !fold_left_app. simpl. by rewrite Hrow.
Qed.

Lemma C8_line_skipped_witness :
  let notice := {| row_message := Some (Py.lit "공지: 오늘 방송 종료");
                   row_sender := Some (Py.lit "다잇쏘") |} in
  append_orders [Py.lit "철수"] [] notice = []
  /\ forall before after,
       fold_left (append_orders [Py.lit "철수"]) (before ++ notice :: after) []
       = fold_left (append_orders [Py.lit "철수"]) (before ++ after) [].
Proof.
  intros notice. apply (C8_line_skipped [Py.lit "철수"] [] notice).
  left. vm_compute. reflexivity.
Defined.

(** C10. A row whose leading run of digits reads as the product number
    0 adds nothing to the order table, whether or not the rest of the
    extraction succeeds; when it succeeds the number returned is that 0,
    which the guard of the loop takes for a missing number. *)
Theorem C10_product_number_zero (valid_buyers : list pystr)
    (all_orders : list Order) (row : Row) (number_match : list pystr) :
  Re.match_ number_pattern (Py.strip (message_of row)) = Some number_match ->
  Py.int (Re.seg 0 number_match) = Some 0%Z ->
  append_orders valid_buyers all_orders row = all_orders
  /\ forall product_number product_name price,
       extract_product_info (message_of row)
         = Some (product_number, product_name, price) ->
       product_number = 0%Z.
Proof.
  intros Hmatch Hint.
  assert (forall product_number product_name price,
             extract_product_info (message_of row)
               = Some (product_number, product_name, price) ->
             product_number = 0%Z) as Hzero.
  { intros n name price. unfold extract_product_info. rewrite Hmatch, Hint.
    destruct (Re.search _ _) as [[start price_match]|]; [|done].
    destruct (Py.int (Re.seg 0 price_match)); [|done].
    destruct (_ && _); [|done]. by intros [= <- _ _]. }
  split; [|done]. unfold append_orders.
  destruct (negb (Py.truthy (message_of row))); [done|].
  destruct (extract_product_info (message_of row)) as [[[n name] price]|] eqn:E;
    [|done].
  by rewrite (Hzero n name price eq_refl).
Qed.

Lemma C10_product_number_zero_witness :
  let row := {| row_message := Some (Py.lit "0 상품명 5000원 / 철수");
                row_sender := Some (Py.lit "다잇쏘") |} in
  extract_product_info (message_of row)
    = Some (0%Z, Py.lit "상품명", 5000%Z)
  /\ parse_order_info (message_of row) [Py.lit "철수"] = [(Py.lit "철수", 1%Z)]
  /\ append_orders [Py.lit "철수"] [] row = [].
Proof.
  intros row. split; [vm_compute; reflexivity|]. split; [vm_compute; reflexivity|].
  apply (C10_product_number_zero [Py.lit "철수"] [] row
           [Py.lit "0"; Py.lit " "; Py.lit "상품명 5000원 / 철수"]).
  - vm_compute. reflexivity.
  - vm_compute. reflexivity.
Defined.

(** ** [get_valid_buyers] *)

(** A step that commutes with itself folds to the same result over any
    reordering of the list. *)
Lemma fold_left_permutation {A B : Type} (f : B -> A -> B) (l l' : list A) (b : B) :
  (forall b x y, f (f b x) y = f (f b y) x) ->
  l ≡ₚ l' -> fold_left f l b = fold_left f l' b.
Proof.
  intros Hcomm Hperm. revert b.
  induction Hperm as [|x l l' _ IH|x y l|l l' l'' _ IH1 _ IH2]; intros b; simpl.
  - done.
  - apply IH.
  - by rewrite Hcomm.
  - by rewrite IH1.
Qed.

(** A token adds its buyer, if any, to whatever was collected. *)
Lemma add_part_union (manual_buyer_ids : list pystr) (buyers : gset pystr)
    (part : pystr) :
  add_part manual_buyer_ids buyers part
  = add_part manual_buyer_ids ∅ part ∪ buyers.
Proof.
  unfold add_part.
  destruct (found _); [set_solver|].
  destruct (Re.match_ buyer_name_pattern part) as [m|]; [|set_solver].
  destruct (Py.truthy _); set_solver.
Qed.

Lemma add_parts_union (manual_buyer_ids : list pystr) (parts : list pystr)
    (buyers : gset pystr) :
  fold_left (add_part manual_buyer_ids) parts buyers
  = fold_left (add_part manual_buyer_ids) parts ∅ ∪ buyers.
Proof.
  revert buyers. induction parts as [|part parts IH]; intros buyers; simpl.
  - set_solver.
  - rewrite IH, (IH (add_part manual_buyer_ids ∅ part)).
    rewrite (add_part_union _ buyers). set_solver.
Qed.

Lemma add_row_union (manual_buyer_ids : list pystr) (buyers : gset pystr)
    (row : Row) :
  add_row manual_buyer_ids buyers row
  = add_row manual_buyer_ids ∅ row ∪ buyers.
Proof.
  unfold add_row. destruct (Py.contains Py.slash (message_of row)).
  - apply add_parts_union.
  - set_solver.
Qed.

Lemma add_row_comm (manual_buyer_ids : list pystr) (buyers : gset pystr)
    (x y : Row) :
  add_row manual_buyer_ids (add_row manual_buyer_ids buyers x) y
  = add_row manual_buyer_ids (add_row manual_buyer_ids buyers y) x.
Proof.
  rewrite (add_row_union _ (add_row _ _ x)), (add_row_union _ (add_row _ _ y)).
  rewrite (add_row_union _ buyers x), (add_row_union _ buyers y). set_solver.
Qed.

(** C9. The set [get_valid_buyers] returns does not depend on the order
    of the rows. *)
Theorem C9_buyers_permutation_invariant (df df' : list Row)
    (manual_buyer_ids : list pystr) :
  df ≡ₚ df' ->
  get_valid_buyers df manual_buyer_ids = get_valid_buyers df' manual_buyer_ids.
Proof.
  intros Hperm. unfold get_valid_buyers.
  apply fold_left_permutation; [|done].
  intros buyers x y. apply add_row_comm.
Qed.

Lemma C9_buyers_permutation_invariant_witness :
  let first := {| row_message := Some (Py.lit "1 꿀사과 5000원 / kim22 영희");
                  row_sender := Some (Py.lit "다잇쏘") |} in
  let second := {| row_message := Some (Py.lit "2 배 3000원 / kim3, 철수!~5");
                   row_sender := Some (Py.lit "다잇쏘") |} in
  get_valid_buyers [first; second] [Py.lit "kim2"]
  = get_valid_buyers [second; first] [Py.lit "kim2"].
Proof.
  intros first second.
  apply (C9_buyers_permutation_invariant [first; second] [second; first]
           [Py.lit "kim2"]).
  apply perm_swap.
Defined.

(** ** The summary *)

Lemma is_int64_spec (z : Z) : is_int64 z = true <-> int64 z.
Proof. unfold is_int64, int64. rewrite andb_true_iff, !Z.leb_le. tauto. Qed.

Lemma int64_columns_spec (df_orders : list Order) :
  int64_columns df_orders = true
  <-> Forall (fun row => int64 (order_price row) /\ int64 (order_quantity row))
        df_orders.
Proof.
  unfold int64_columns. rewrite forallb_forall, Forall_forall.
  split; intros H row Hrow.
  - apply list_elem_of_In, H, andb_true_iff in Hrow. by rewrite <- !is_int64_spec.
  - apply andb_true_iff. rewrite !is_int64_spec. by apply H, list_elem_of_In.
Qed.

(** An int64 operation is exact when its exact value fits. *)
Lemma wrap_int64_fits (z : Z) : int64 z -> wrap_int64 z = z.
Proof.
  unfold int64, wrap_int64, int64_min, int64_max. intros H.
  rewrite Z.mod_small; lia.
Qed.

Lemma wrap_int64_mod (z : Z) : (wrap_int64 z mod 2 ^ 64 = z mod 2 ^ 64)%Z.
Proof.
  unfold wrap_int64.
  rewrite Z.add_mod, Z.mod_mod, <- Z.add_mod by lia. f_equal. lia.
Qed.

Lemma wrap_int64_eq (a b : Z) :
  (a mod 2 ^ 64 = b mod 2 ^ 64)%Z -> wrap_int64 a = wrap_int64 b.
Proof.
  intros H. unfold wrap_int64. f_equal.
  by rewrite (Zminus_mod a), (Zminus_mod b), H.
Qed.

Lemma wrap_int64_add_l (a b : Z) :
  wrap_int64 (wrap_int64 a + b) = wrap_int64 (a + b).
Proof.
  apply wrap_int64_eq. by rewrite Z.add_mod, wrap_int64_mod, <- Z.add_mod by lia.
Qed.

Lemma wrap_int64_add_r (a b : Z) :
  wrap_int64 (a + wrap_int64 b) = wrap_int64 (a + b).
Proof. by rewrite Z.add_comm, wrap_int64_add_l, Z.add_comm. Qed.

Lemma wrap_int64_add_m (a b c : Z) :
  wrap_int64 (a + wrap_int64 b + c) = wrap_int64 (a + b + c).
Proof.
  replace (a + wrap_int64 b + c)%Z with (wrap_int64 b + (a + c))%Z by lia.
  rewrite wrap_int64_add_l. f_equal. lia.
Qed.

Lemma add_to_group_lookup (groups : gmap pystr (Z * Z)) (row : Order) (b : pystr) :
  add_to_group groups row !! b =
  if bool_decide (order_buyer row = b) then
    Some (match groups !! b with
          | Some (total, count) =>
              (wrap_int64 (total + wrap_int64 (order_price row * order_quantity row)),
               wrap_int64 (count + order_quantity row))
          | None =>
              (wrap_int64 (order_price row * order_quantity row), order_quantity row)
          end)
  else groups !! b.
Proof.
  unfold add_to_group. case_bool_decide as Hb.
  - subst b. destruct (groups !! order_buyer row) as [[total count]|];
      by rewrite lookup_insert_eq.
  - destruct (groups !! order_buyer row) as [[total count]|];
      by rewrite lookup_insert_ne.
Qed.

(** The group of a buyer holds the int64 totals of the rows of that buyer
    seen so far, on top of what the group held before. *)
Lemma groups_lookup (df_orders : list Order) (groups : gmap pystr (Z * Z))
    (b : pystr) :
  Forall (fun row => int64 (order_quantity row)) df_orders ->
  fold_left add_to_group df_orders groups !! b =
  match rows_of b df_orders with
  | [] => groups !! b
  | rows =>
      Some (match groups !! b with
            | Some (total, count) =>
                (wrap_int64 (total + amount_of rows),
                 wrap_int64 (count + quantity_of rows))
            | None => (wrap_int64 (amount_of rows), wrap_int64 (quantity_of rows))
            end)
  end.
Proof.
  intros Hall. revert groups.
  induction Hall as [|row l Hq _ IH]; intros groups; [done|].
  cbn [fold_left]. rewrite IH, add_to_group_lookup.
  unfold rows_of. cbn [List.filter]. fold (rows_of b l).
  case_bool_decide as Hb; [|done].
  destruct (rows_of b l) as [|r rs]; destruct (groups !! b) as [[total count]|];
    unfold amount_of, quantity_of, sum_Z; cbn [List.map foldr];
    f_equal; f_equal;
    rewrite ?wrap_int64_add_l, ?wrap_int64_add_r, ?wrap_int64_add_m, ?Z.add_0_r;
    rewrite ?(wrap_int64_fits (order_quantity row)) by done;
    try done; f_equal; lia.
Qed.

Lemma rows_of_nil (b : pystr) (df_orders : list Order) :
  rows_of b df_orders = [] <-> b ∉ List.map order_buyer df_orders.
Proof.
  unfold rows_of. induction df_orders as [|row l IH]; simpl.
  - split; [intros _; apply not_elem_of_nil | done].
  - rewrite not_elem_of_cons. case_bool_decide as Hb.
    + split; [done|]. intros [? _]. congruence.
    + rewrite IH. split; [|tauto]. intros ?. split; [congruence|done].
Qed.

(** The summary is returned for the tables with int64 columns. *)
Lemma buyer_summary_some (df_orders : list Order) :
  Forall (fun row => int64 (order_price row) /\ int64 (order_quantity row))
    df_orders ->
  buyer_summary df_orders
  = Some (stable_sort summary_leb
            (List.map (fun g => {| summary_buyer := fst g;
                                   total_amount := fst (snd g);
                                   total_quantity := snd (snd g) |})
               (map_to_list (fold_left add_to_group df_orders ∅)))).
Proof.
  intros Hall. apply int64_columns_spec in Hall.
  unfold buyer_summary. by rewrite Hall.
Qed.

Lemma buyer_summary_columns (df_orders : list Order) (summary : list Summary) :
  buyer_summary df_orders = Some summary ->
  Forall (fun row => int64 (order_quantity row)) df_orders.
Proof.
  unfold buyer_summary. destruct (int64_columns df_orders) eqn:E; [|done].
  intros _. apply int64_columns_spec in E.
  eapply Forall_impl; [exact E|]. by intros row [_ ?].
Qed.

Lemma buyer_summary_elem (df_orders : list Order) (summary : list Summary)
    (s : Summary) :
  buyer_summary df_orders = Some summary ->
  s ∈ summary <->
  fold_left add_to_group df_orders ∅ !! summary_buyer s
  = Some (total_amount s, total_quantity s).
Proof.
  unfold buyer_summary. destruct (int64_columns df_orders); [|done].
  intros [= <-]. rewrite stable_sort_perm.
  rewrite list_elem_of_In, in_map_iff. split.
  - intros ([b [a q]] & <- & Hin). simpl.
    by apply list_elem_of_In, elem_of_map_to_list in Hin.
  - intros H. exists (summary_buyer s, (total_amount s, total_quantity s)).
    split; [by destruct s|]. by apply list_elem_of_In, elem_of_map_to_list.
Qed.

Lemma buyer_summary_nodup (df_orders : list Order) (summary : list Summary) :
  buyer_summary df_orders = Some summary ->
  NoDup (List.map summary_buyer summary).
Proof.
  unfold buyer_summary. destruct (int64_columns df_orders); [|done].
  intros [= <-]. rewrite stable_sort_perm, map_map. simpl.
  apply (NoDup_fst_map_to_list (fold_left add_to_group df_orders ∅)).
Qed.

(** The row of a buyer holds the int64 totals of the rows of that buyer. *)
Lemma buyer_summary_row (df_orders : list Order) (summary : list Summary)
    (s : Summary) :
  buyer_summary df_orders = Some summary -> s ∈ summary ->
  rows_of (summary_buyer s) df_orders <> []
  /\ total_amount s = wrap_int64 (amount_of (rows_of (summary_buyer s) df_orders))
  /\ total_quantity s
     = wrap_int64 (quantity_of (rows_of (summary_buyer s) df_orders)).
Proof.
  intros Hsome Hs. pose proof (buyer_summary_columns _ _ Hsome) as Hcols.
  apply (buyer_summary_elem _ _ _ Hsome) in Hs.
  rewrite groups_lookup, lookup_empty in Hs by done.
  destruct (rows_of (summary_buyer s) df_orders) eqn:E; [done|].
  by injection Hs as <- <-.
Qed.

Lemma buyer_summary_buyers (df_orders : list Order) (summary : list Summary)
    (b : pystr) :
  buyer_summary df_orders = Some summary ->
  b ∈ List.map summary_buyer summary <-> b ∈ List.map order_buyer df_orders.
Proof.
  intros Hsome. pose proof (buyer_summary_columns _ _ Hsome) as Hcols.
  rewrite list_elem_of_In, in_map_iff. split.
  - intros (s & <- & Hs). apply list_elem_of_In in Hs.
    apply (buyer_summary_row _ _ _ Hsome) in Hs as [Hrows _].
    destruct (decide (summary_buyer s ∈ List.map order_buyer df_orders)) as [|Hn];
      [done|]. by apply rows_of_nil in Hn.
  - intros Hb.
    destruct (rows_of b df_orders) as [|r rs] eqn:E.
    { apply rows_of_nil in E. done. }
    exists {| summary_buyer := b; total_amount := wrap_int64 (amount_of (r :: rs));
              total_quantity := wrap_int64 (quantity_of (r :: rs)) |}.
    split; [done|]. apply list_elem_of_In, (buyer_summary_elem _ _ _ Hsome). simpl.
    by rewrite groups_lookup, lookup_empty, E.
Qed.

(** C7, as amended.  For an order table whose prices and quantities fit
    in 64 signed bits the summary is computed, and it has exactly one
    row for every buyer of the table.  The row holds the sum of the
    quantities of that buyer's rows and the sum of their prices times
    quantities as int64 arithmetic gives them, that is reduced modulo
    [2 ^ 64] into the signed range: they are the sums themselves
    whenever those fit in 64 signed bits. *)
Theorem C7_buyer_summary_totals (df_orders : list Order) :
  Forall (fun row => int64 (order_price row) /\ int64 (order_quantity row))
    df_orders ->
  exists summary,
    buyer_summary df_orders = Some summary
    /\ NoDup (List.map summary_buyer summary)
    /\ (forall b,
           b ∈ List.map summary_buyer summary
           <-> b ∈ List.map order_buyer df_orders)
    /\ (forall s,
           s ∈ summary ->
           let quantity :=
             sum_Z (List.map order_quantity (rows_of (summary_buyer s) df_orders)) in
           let amount :=
             sum_Z (List.map (fun row => (order_price row * order_quantity row)%Z)
                      (rows_of (summary_buyer s) df_orders)) in
           total_quantity s = wrap_int64 quantity
           /\ total_amount s = wrap_int64 amount
           /\ (int64 quantity -> total_quantity s = quantity)
           /\ (int64 amount -> total_amount s = amount)).
Proof.
  intros Hall. pose proof (buyer_summary_some _ Hall) as Hsome.
  eexists. split; [exact Hsome|].
  split; [by eapply buyer_summary_nodup|].
  split; [intros b; by apply buyer_summary_buyers|].
  intros s Hs quantity amount.
  apply (buyer_summary_row _ _ _ Hsome) in Hs as (_ & Hamount & Hquantity).
  fold (amount_of (rows_of (summary_buyer s) df_orders)) in amount.
  fold (quantity_of (rows_of (summary_buyer s) df_orders)) in quantity.
  split; [done|]. split; [done|]. split.
  - intros Hfits. by rewrite Hquantity, wrap_int64_fits.
  - intros Hfits. by rewrite Hamount, wrap_int64_fits.
Qed.

Lemma C7_buyer_summary_totals_witness :
  let ledger :=
    [ {| order_buyer := Py.lit "영희"; order_number := 2;
         order_name := Py.lit "배"; order_price := 3000; order_quantity := 2 |};
      {| order_buyer := Py.lit "철수"; order_number := 1;
         order_name := Py.lit "꿀사과"; order_price := 5000; order_quantity := 3 |};
      {| order_buyer := Py.lit "철수"; order_number := 2;
         order_name := Py.lit "배"; order_price := 3000; order_quantity := 1 |} ] in
  buyer_summary ledger
  = Some [ {| summary_buyer := Py.lit "영희"; total_amount := 6000;
              total_quantity := 2 |};
           {| summary_buyer := Py.lit "철수"; total_amount := 18000;
              total_quantity := 4 |} ]
  /\ exists summary,
       buyer_summary ledger = Some summary
       /\ NoDup (List.map summary_buyer summary)
       /\ (forall b,
              b ∈ List.map summary_buyer summary
              <-> b ∈ List.map order_buyer ledger)
       /\ (forall s,
              s ∈ summary ->
              let quantity :=
                sum_Z (List.map order_quantity (rows_of (summary_buyer s) ledger)) in
              let amount :=
                sum_Z (List.map (fun row => (order_price row * order_quantity row)%Z)
                         (rows_of (summary_buyer s) ledger)) in
              total_quantity s = wrap_int64 quantity
              /\ total_amount s = wrap_int64 amount
              /\ (int64 quantity -> total_quantity s = quantity)
              /\ (int64 amount -> total_amount s = amount)).
Proof.
  intros ledger. split; [by vm_compute|].
  apply (C7_buyer_summary_totals ledger).
  repeat (constructor; [unfold int64, int64_min, int64_max; simpl; lia|]).
  constructor.
Defined.

(** The claim as the specification states it fails where the sums leave
    the range of int64.  Two messages of an administrator in which 철수
    orders 5000000000000000000 items each give a ledger of int64
    columns; the summary row of 철수 holds the wrapped sums, not the
    sums of the rows. *)
Lemma C7_buyer_summary_counterexample :
  let df :=
    {| has_message_column := true; has_sender_column := true;
       has_time_column := false;
       df_rows :=
         [ {| row_message := Some (Py.lit "1 꿀사과 5000원 / 철수5000000000000000000");
              row_sender := Some (Py.lit "다잇쏘") |};
           {| row_message := Some (Py.lit "2 배 3000원 / 철수5000000000000000000");
              row_sender := Some (Py.lit "다잇쏘") |} ] |} in
  exists ledger s,
    process_excel (fun rows => Some rows) elements df [] = Some ledger
    /\ buyer_summary ledger = Some [s]
    /\ sum_Z (List.map order_quantity (rows_of (summary_buyer s) ledger))
       = 10000000000000000000%Z
    /\ total_quantity s = (-8446744073709551616)%Z
    /\ total_quantity s
       <> sum_Z (List.map order_quantity (rows_of (summary_buyer s) ledger))
    /\ total_amount s
       <> sum_Z (List.map (fun row => (order_price row * order_quantity row)%Z)
                   (rows_of (summary_buyer s) ledger)).
Proof.
  intros df. eexists _, _.
  split; [vm_compute; reflexivity|].
  split; [vm_compute; reflexivity|].
  split; [by vm_compute|]. split; [by vm_compute|].
  split; by vm_compute.
Qed.

(** ** Decimal numerals *)

Lemma int_digits_of_uint_acc (d : Decimal.uint) (acc : positive) :
  fold_left
    (fun acc c =>
       match acc, Py.digit_value c with
       | Some n, Some d => Some (10 * n + d)%Z
       | _, _ => None
       end) (Py.uint_chars d) (Some (Z.pos acc))
  = Some (Z.pos (Pos.of_uint_acc d acc)).
Proof.
  revert acc. induction d; intros acc; cbn [Py.uint_chars fold_left Pos.of_uint_acc];
    [done|..];
    match goal with
    | |- context [Py.digit_value ?c] =>
        let v := eval vm_compute in (Py.digit_value c) in
        change (Py.digit_value c) with v
    end; cbv iota beta; rewrite <- IHd; do 2 f_equal; lia.
Qed.

Lemma int_digits_of_uint (d : Decimal.uint) :
  Py.int_digits (Py.uint_chars d) = Some (Z.of_N (Pos.of_uint d)).
Proof.
  unfold Py.int_digits.
  induction d; cbn [Py.uint_chars fold_left Pos.of_uint]; [done|..];
    match goal with
    | |- context [Py.digit_value ?c] =>
        let v := eval vm_compute in (Py.digit_value c) in
        change (Py.digit_value c) with v
    end; cbv iota beta;
    [exact IHd | cbn [Z.of_N]; rewrite <- int_digits_of_uint_acc; do 2 f_equal; lia ..].
Qed.

(** [int] reads the decimal numeral of a number back, up to the limit on
    the number of digits. *)
Lemma int_decimal (n : N) :
  (length (Py.decimal n) <= Py.int_max_str_digits)%nat ->
  Py.int (Py.decimal n) = Some (Z.of_N n).
Proof.
  intros Hlen. unfold Py.int.
  destruct (Py.decimal n) as [|c s] eqn:E.
  - exfalso. unfold Py.decimal in E. destruct n as [|p]; [done|].
    pose proof (DecimalPos.Unsigned.to_uint_nonnil p) as Hnil.
    change (N.to_uint (N.pos p)) with (Pos.to_uint p) in E.
    destruct (Pos.to_uint p); simpl in E; done.
  - destruct (Nat.ltb_spec Py.int_max_str_digits (length (c :: s))); [lia|].
    rewrite <- E. unfold Py.decimal. rewrite int_digits_of_uint.
    change (Pos.of_uint (N.to_uint n)) with (N.of_uint (N.to_uint n)).
    by rewrite DecimalN.Unsigned.of_to.
Qed.

(** ** A buyer token at the start of the buffer *)

(** When [B] is the only valid buyer the trimmed buffer starts with, the
    iteration appends [B] with the quantity of the digits after it. *)
Lemma order_step_token (valid_buyers : list pystr) (buf B qs rest : pystr) (Q : Z) :
  Py.strip buf = B ++ qs ++ rest ->
  B <> [] -> B ∈ valid_buyers ->
  (forall B', B' ∈ valid_buyers -> Py.startswith (Py.strip buf) B' = true -> B' = B) ->
  no_digit_ahead rest ->
  reads_quantity qs Q ->
  order_step valid_buyers buf = Emit (B, Q) rest.
Proof.
  intros Ht HB Hin Honly Hahead Hq.
  unfold order_step. set (t := Py.strip buf) in *.
  assert (Py.truthy t = true) as ->.
  { rewrite Ht. destruct B; [done|reflexivity]. }
  cbn [negb]. rewrite pass1_scan_ids.
  assert (scan_ids valid_buyers t
            = Some {| found_buyer := Some B; quantity := Q;
                      match_length := length B + length qs |}) as ->.
  { destruct (first_prefix valid_buyers t)
      as [Hnone|(pre & b & post & Hvb & Hpre & Hb)].
    - specialize (Hnone B Hin). rewrite Ht, startswith_app in Hnone. done.
    - assert (b = B) as ->.
      { apply Honly; [|done]. rewrite Hvb. apply elem_of_app. right. constructor. }
      rewrite Hvb, scan_ids_miss by done. rewrite Ht, scan_ids_hit.
      pose proof (reads_quantity_digits _ _ Hq) as [Hqs _].
      cbv zeta. rewrite (span_app Re.digit qs rest) by done.
      rewrite take_app_length.
      destruct Hq as [[-> ->]|[Hne Hint]]; [by rewrite Nat.add_0_r|].
      destruct qs as [|c qs]; [done|]. cbn [length]. by rewrite Hint. }
  assert (Py.truthy B = true) as HtB by (by apply truthy_nonempty).
  unfold scan_name, found. cbn [found_buyer quantity match_length].
  rewrite HtB. cbn [found_buyer quantity match_length]. rewrite HtB.
  f_equal. by rewrite Ht, <- drop_drop, !drop_app_length.
Qed.

Lemma order_part_trimmed (msg : pystr) :
  Py.strip (order_part_of msg) = order_part_of msg.
Proof. apply strip_idem. Qed.

(** The loop on a buffer that starts with such a token: the pair of the
    token, then what the loop gives on the rest. *)
Lemma run_orders_token (valid_buyers : list pystr) (buf B qs rest : pystr) (Q : Z) :
  Py.strip buf = B ++ qs ++ rest ->
  B <> [] -> B ∈ valid_buyers ->
  (forall B', B' ∈ valid_buyers -> Py.startswith (Py.strip buf) B' = true -> B' = B) ->
  no_digit_ahead rest ->
  reads_quantity qs Q ->
  run_orders valid_buyers buf = with_prefix [(B, Q)] (run_orders valid_buyers rest).
Proof.
  intros Ht HB Hin Honly Hahead Hq.
  pose proof (order_step_token _ _ _ _ _ _ Ht HB Hin Honly Hahead Hq) as Hstep.
  unfold run_orders. rewrite (order_loop_unfold (length buf)), Hstep. cbn [app].
  rewrite order_loop_acc. f_equal.
  apply order_loop_fuel; [|lia].
  apply (order_step_shorter valid_buyers). left. eauto.
Qed.

(** C1, as amended.  Let [B] be a non-empty valid buyer and the only
    valid buyer that the order part of the message starts with.  If the
    order part is [B], the decimal numeral of a quantity [Q >= 1] within
    the digit limit of [int], and a rest that does not go on with a
    digit, the result is the pair (B, Q) followed by the pairs of the
    rest; if the order part is [B] and such a rest, it is (B, 1)
    followed by the pairs of the rest. *)
Theorem C1_buyer_token_at_start (valid_buyers : list pystr)
    (msg B rest : pystr) (tail : list (pystr * Z)) :
  Py.contains Py.slash msg = true ->
  B <> [] -> B ∈ valid_buyers ->
  (forall B', B' ∈ valid_buyers ->
              Py.startswith (order_part_of msg) B' = true -> B' = B) ->
  no_digit_ahead rest ->
  run_orders valid_buyers rest = Returned tail ->
  (forall Q,
      1 <= Q ->
      (length (Py.decimal Q) <= Py.int_max_str_digits)%nat ->
      order_part_of msg = B ++ Py.decimal Q ++ rest ->
      parse_order_info msg valid_buyers = (B, Z.of_N Q) :: tail)
  /\ (order_part_of msg = B ++ rest ->
      parse_order_info msg valid_buyers = (B, 1%Z) :: tail).
Proof.
  intros Hslash HB Hin Honly Hahead Htail.
  assert (forall qs Q,
             reads_quantity qs Q -> order_part_of msg = B ++ qs ++ rest ->
             parse_order_info msg valid_buyers = (B, Q) :: tail) as Hgen.
  { intros qs Q Hq Hpart. unfold parse_order_info. rewrite Hslash.
    rewrite (run_orders_token valid_buyers (order_part_of msg) B qs rest Q);
      try done.
    - by rewrite Htail.
    - by rewrite order_part_trimmed.
    - by rewrite order_part_trimmed. }
  split.
  - intros Q HQ Hlen Hpart. apply (Hgen (Py.decimal Q)); [|done].
    right. pose proof (int_decimal Q Hlen) as Hint.
    split; [|done]. by apply int_some in Hint as [? _].
  - intros Hpart. apply (Hgen []); [by left | done].
Qed.

Lemma C1_buyer_token_at_start_witness :
  parse_order_info (Py.lit "2 수제청 3000원 / 철수 영희2") [Py.lit "철수"; Py.lit "영희"]
    = [(Py.lit "철수", 1%Z); (Py.lit "영희", 2%Z)]
  /\ parse_order_info (Py.lit "1 꿀사과 5000원 / minsu2") [Py.lit "minsu"]
     = [(Py.lit "minsu", 2%Z)].
Proof.
  split.
  - apply (proj2 (C1_buyer_token_at_start [Py.lit "철수"; Py.lit "영희"]
              (Py.lit "2 수제청 3000원 / 철수 영희2") (Py.lit "철수") (Py.lit " 영희2")
              [(Py.lit "영희", 2%Z)]
              ltac:(vm_compute; reflexivity) ltac:(vm_compute; discriminate)
              ltac:(vm_compute; constructor)
              ltac:(intros B' HB' Hpre; vm_compute in HB';
                    apply elem_of_cons in HB' as [->|HB'];
                    [reflexivity|];
                    apply elem_of_cons in HB' as [->|HB'];
                    [vm_compute in Hpre; discriminate | by apply elem_of_nil in HB'])
              ltac:(vm_compute; reflexivity) ltac:(vm_compute; reflexivity))).
    vm_compute. reflexivity.
  - apply (proj1 (C1_buyer_token_at_start [Py.lit "minsu"]
              (Py.lit "1 꿀사과 5000원 / minsu2") (Py.lit "minsu") [] []
              ltac:(vm_compute; reflexivity) ltac:(vm_compute; discriminate)
              ltac:(vm_compute; constructor)
              ltac:(intros B' HB' _; vm_compute in HB';
                    apply elem_of_cons in HB' as [->|HB'];
                    [reflexivity | by apply elem_of_nil in HB'])
              ltac:(exact I) ltac:(vm_compute; reflexivity)) 2).
    + lia.
    + vm_compute. lia.
    + vm_compute. reflexivity.
Defined.

(** C1 as the specification states it fails: with the valid buyers kim
    and kim2 enumerated in this order, the token of buyer kim2 and
    quantity 3 at the start of the buffer is read as buyer kim with
    quantity 23. *)
Lemma C1_buyer_token_counterexample :
  Py.lit "kim2" ∈ [Py.lit "kim"; Py.lit "kim2"]
  /\ order_part_of (Py.lit "1 꿀사과 5000원 / kim23")
     = Py.lit "kim2" ++ Py.decimal 3
  /\ parse_order_info (Py.lit "1 꿀사과 5000원 / kim23") [Py.lit "kim"; Py.lit "kim2"]
     = [(Py.lit "kim", 23%Z)]
  /\ (Py.lit "kim2", 3%Z)
       ∉ parse_order_info (Py.lit "1 꿀사과 5000원 / kim23")
           [Py.lit "kim"; Py.lit "kim2"].
Proof.
  assert (parse_order_info (Py.lit "1 꿀사과 5000원 / kim23")
            [Py.lit "kim"; Py.lit "kim2"] = [(Py.lit "kim", 23%Z)]) as E
      by (vm_compute; reflexivity).
  split; [vm_compute; do 2 constructor|]. split; [vm_compute; reflexivity|].
  split; [done|]. rewrite E. intros H.
  apply elem_of_cons in H as [H|H]; [|by apply elem_of_nil in H].
  vm_compute in H. discriminate.
Qed.

(** ** Manual identifiers and discovered names *)

(** C2.  The loop over [valid_buyers] does not try the manual
    identifiers first.  With the manual identifier kim2, the name kim is
    discovered from the token kim3 of another row.  On the buffer kim22
    both match at the first position, and the pair depends on the order
    in which the set is enumerated: with kim before kim2 the discovered
    name wins, through the tokenizer and through [process_excel]. *)
Theorem C2_discovered_name_can_win :
  let first := {| row_message := Some (Py.lit "1 꿀사과 5000원 / kim22");
                  row_sender := Some (Py.lit "다잇쏘") |} in
  let second := {| row_message := Some (Py.lit "2 배 3000원 / kim3");
                   row_sender := Some (Py.lit "다잇쏘") |} in
  let df := {| has_message_column := true; has_sender_column := true;
               has_time_column := false; df_rows := [first; second] |} in
  get_valid_buyers [first; second] [Py.lit "kim2"]
    = {[ Py.lit "kim2"; Py.lit "kim" ]}
  /\ Py.startswith (order_part_of (message_of first)) (Py.lit "kim2") = true
  /\ Py.startswith (order_part_of (message_of first)) (Py.lit "kim") = true
  /\ parse_order_info (message_of first) [Py.lit "kim"; Py.lit "kim2"]
     = [(Py.lit "kim", 22%Z)]
  /\ parse_order_info (message_of first) [Py.lit "kim2"; Py.lit "kim"]
     = [(Py.lit "kim2", 2%Z)]
  /\ process_excel (fun rows => Some rows)
       (fun _ => [Py.lit "kim"; Py.lit "kim2"]) df [Py.lit "kim2"]
     = Some [ {| order_buyer := Py.lit "kim"; order_number := 1;
                 order_name := Py.lit "꿀사과"; order_price := 5000;
                 order_quantity := 22 |};
              {| order_buyer := Py.lit "kim"; order_number := 2;
                 order_name := Py.lit "배"; order_price := 3000;
                 order_quantity := 3 |} ].
Proof.
  intros first second df.
  split; [by vm_compute|]. repeat split; by vm_compute.
Qed.

(** ** Words *)

Lemma rev_nonempty {A : Type} (l : list A) : l <> [] -> rev l <> [].
Proof.
  intros Hne E. apply (f_equal (@rev _)) in E. by rewrite rev_involutive in E.
Qed.

Lemma rev_word (acc : pystr) :
  acc <> [] -> Forall (fun c => Py.isspace c = false) acc -> word (rev acc).
Proof. intros Hne Hacc. split; [by apply rev_nonempty | by apply Forall_rev]. Qed.

Lemma split_words_word (acc s : pystr) :
  Forall (fun c => Py.isspace c = false) acc ->
  Forall word (Py.split_words acc s).
Proof.
  revert acc. induction s as [|c s IH]; intros acc Hacc; simpl.
  - destruct acc as [|a acc]; constructor; [|constructor]. by apply rev_word.
  - destruct (Py.isspace c) eqn:E.
    + destruct acc as [|a acc]; [by apply IH|].
      constructor; [by apply rev_word | by apply IH].
    + apply IH. by constructor.
Qed.

Lemma split_word (s : pystr) : Forall word (Py.split s).
Proof. apply split_words_word. constructor. Qed.

Lemma split_words_app (w acc s : pystr) :
  Forall (fun c => Py.isspace c = false) w ->
  Py.split_words acc (w ++ s) = Py.split_words (rev w ++ acc) s.
Proof.
  intros Hw. revert acc. induction Hw as [|c w Hc _ IH]; intros acc; simpl; [done|].
  by rewrite Hc, IH, <- app_assoc.
Qed.

Lemma split_words_end (w : pystr) :
  word w -> Py.split_words [] w = [w].
Proof.
  intros [Hne Hw]. rewrite <- (app_nil_r w) at 1.
  rewrite split_words_app, app_nil_r by done. simpl.
  pose proof (rev_nonempty w Hne) as Hr.
  destruct (rev w) eqn:E; [done|]. by rewrite <- E, rev_involutive.
Qed.

(** Splitting what was joined with single spaces gives the words back. *)
Lemma split_join (ws : list pystr) :
  Forall word ws -> Py.split (Py.join Py.space ws) = ws.
Proof.
  unfold Py.split. induction 1 as [|w ws Hw Hws IH]; [done|].
  destruct ws as [|w' ws]; [by apply split_words_end|].
  cbn [Py.join]. destruct Hw as [Hne Hw].
  rewrite split_words_app, app_nil_r by done. cbn [Py.split_words].
  change (Py.isspace Py.space) with true. cbv iota.
  pose proof (rev_nonempty w Hne) as Hr.
  destruct (rev w) eqn:E; [done|]. rewrite <- E, rev_involutive.
  f_equal. exact IH.
Qed.

Lemma join_ends (ws : list pystr) :
  Forall word ws -> ws <> [] ->
  (exists c s, Py.join Py.space ws = c :: s /\ Py.isspace c = false)
  /\ (exists s c, Py.join Py.space ws = s ++ [c] /\ Py.isspace c = false).
Proof.
  induction 1 as [|w ws [Hne Hw] Hws IH]; [done|]. intros _. split.
  - destruct w as [|c w]; [done|]. inversion Hw; subst.
    destruct ws; simpl; eauto.
  - destruct ws as [|w' ws].
    + simpl. pose proof (rev_nonempty w Hne) as Hr.
      destruct (rev w) as [|c r] eqn:E; [done|].
      apply (f_equal (@rev _)) in E. rewrite rev_involutive in E. simpl in E.
      exists (rev r), c. split; [done|].
      rewrite Forall_forall in Hw. apply Hw. rewrite E.
      apply elem_of_app. right. constructor.
    + destruct IH as [_ (s & c & Hj & Hc)]; [done|].
      exists (w ++ Py.space :: s), c. split; [|done].
      change (Py.join Py.space (w :: w' :: ws))
        with (w ++ Py.space :: Py.join Py.space (w' :: ws)).
      rewrite Hj. by rewrite <- app_assoc.
Qed.

(** What [' '.join(s.split())] returns is already trimmed. *)
Lemma join_trimmed (ws : list pystr) :
  Forall word ws -> trimmed (Py.join Py.space ws).
Proof.
  intros Hws. destruct ws as [|w ws]; [by split|].
  destruct (join_ends (w :: ws) Hws) as [(c & s & E1 & Hc) (s' & c' & E2 & Hc')];
    [done|].
  split.
  - rewrite E1. simpl. by rewrite Hc.
  - rewrite E2, rev_app_distr. simpl. by rewrite Hc'.
Qed.

Lemma in_join (c : Py.char) (ws : list pystr) :
  c ∈ Py.join Py.space ws -> c = Py.space \/ exists w, w ∈ ws /\ c ∈ w.
Proof.
  induction ws as [|w ws IH]; [by intros ?%elem_of_nil|].
  destruct ws as [|w' ws].
  - simpl. intros H. right. exists w. split; [constructor|done].
  - change (Py.join Py.space (w :: w' :: ws))
      with (w ++ Py.space :: Py.join Py.space (w' :: ws)).
    rewrite elem_of_app, elem_of_cons. intros [H|[H|H]].
    + right. exists w. split; [constructor|done].
    + by left.
    + destruct (IH H) as [?|(w0 & Hw0 & Hc)]; [by left|].
      right. exists w0. split; [by constructor|done].
Qed.

Lemma split_words_in (c : Py.char) (w acc s : pystr) :
  w ∈ Py.split_words acc s -> c ∈ w -> c ∈ acc \/ c ∈ s.
Proof.
  revert acc. induction s as [|d s IH]; intros acc; simpl.
  - destruct acc as [|a acc]; [by intros ?%elem_of_nil|].
    intros H Hc. apply elem_of_cons in H as [->|H]; [|by apply elem_of_nil in H].
    left. apply list_elem_of_In, in_rev. by apply list_elem_of_In.
  - destruct (Py.isspace d).
    + destruct acc as [|a acc].
      * intros H Hc. destruct (IH _ H Hc) as [?|?]; [by left|].
        right. by constructor.
      * intros H Hc. apply elem_of_cons in H as [->|H].
        -- left. apply list_elem_of_In, in_rev. by apply list_elem_of_In.
        -- destruct (IH _ H Hc) as [?%elem_of_nil|?]; [done|].
           right. by constructor.
    + intros H Hc. destruct (IH _ H Hc) as [Hin|?].
      * apply elem_of_cons in Hin as [->|?]; [right; constructor | by left].
      * right. by constructor.
Qed.

(** ** The name cleaner *)

Lemma hd_split_on (sep : Py.char) (s : pystr) :
  sep ∉ hd [] (Py.split_on sep s).
Proof.
  induction s as [|c s IH]; simpl; [apply not_elem_of_nil|].
  destruct (N.eqb_spec c sep) as [->|Hne]; simpl; [apply not_elem_of_nil|].
  destruct (Py.split_on sep s) as [|piece pieces]; simpl in *.
  - intros H. apply elem_of_cons in H as [->|H]; [done|by apply elem_of_nil in H].
  - intros H. apply elem_of_cons in H as [->|H]; done.
Qed.

Lemma remove_phrases_sublist (patterns : list pystr) (s : pystr) :
  sublist (remove_phrases patterns s) s.
Proof.
  unfold remove_phrases. revert s.
  induction patterns as [|p ps IH]; intros s; simpl; [done|].
  etransitivity; [apply IH | apply sub_sublist].
Qed.

Lemma remove_phrases_no_match (patterns : list pystr) (s : pystr) :
  (forall pattern, pattern ∈ patterns -> Re.search (Re.literal pattern) s = None) ->
  remove_phrases patterns s = s.
Proof.
  unfold remove_phrases. induction patterns as [|p ps IH]; intros H; simpl; [done|].
  unfold Re.sub. rewrite (sub_no_match _ 0 s) by (apply H; constructor).
  apply IH. intros q Hq. apply H. by constructor.
Qed.

(** A cleaned name has no ['/'] and is a list of words joined by single
    spaces. *)
Lemma clean_product_name_shape (name : pystr) :
  (Py.slash ∉ clean_product_name name)
  /\ exists ws, Forall word ws /\ clean_product_name name = Py.join Py.space ws.
Proof.
  unfold clean_product_name.
  set (x0 := if Py.contains Py.slash name
             then Py.strip (hd [] (Py.split_on Py.slash name)) else name).
  set (x2 := Re.sub buyer_tag_pattern (remove_phrases exclude_patterns x0)).
  pose proof (split_word x2) as Hws.
  rewrite (trimmed_strip _ (join_trimmed _ Hws)).
  split; [|eauto].
  assert (Py.slash ∉ x0) as H0.
  { unfold x0. destruct (Py.contains Py.slash name) eqn:E.
    - intros H. apply in_strip in H. by apply hd_split_on in H.
    - by apply contains_false. }
  assert (Py.slash ∉ x2) as H2.
  { intros H. apply H0.
    eapply sublist_in; [apply remove_phrases_sublist|].
    eapply sublist_in; [apply sub_sublist|]. done. }
  intros H. apply in_join in H as [H|(w & Hw & Hc)]; [done|].
  apply H2. destruct (split_words_in _ _ _ _ Hw Hc) as [?%elem_of_nil|?]; done.
Qed.

(** A match that starts with a repetition of at least one character is
    not empty. *)
Lemma rep_match_nonempty (cls : Py.char -> bool) (lo : nat) (hi : option nat)
    (p : Re.pattern) (s : pystr) (segs : list pystr) :
  (1 <= lo)%nat ->
  Re.match_here (Re.Rep cls lo hi :: p) s = Some segs -> concat segs <> [].
Proof.
  intros Hlo H. simpl in H.
  apply backtrack_spec in H as (m & segs' & Hm & _ & ->).
  pose proof (greedy_le cls hi s). pose proof (span_le cls s).
  intros E. apply (f_equal length) in E. simpl in E.
  rewrite length_app, length_take_le in E by lia. simpl in E. lia.
Qed.

(** Deleting the matches of a pattern that has one, and whose matches
    are not empty, shortens the text. *)
Lemma sub_match_shorter (p : Re.pattern) (i : nat) (s : pystr) :
  (forall t segs, Re.match_here p t = Some segs -> concat segs <> []) ->
  Re.search_from p i s <> None ->
  (length (Re.sub_from p 0 s) < length s)%nat.
Proof.
  intros Hne. revert i. induction s as [|c s IH]; intros i; simpl.
  - destruct (Re.match_here p []) as [segs|] eqn:E; [|done]. intros _.
    pose proof (Hne _ _ E). apply match_here_length in E.
    destruct (concat segs); [done|simpl in E; lia].
  - destruct (Re.match_here p (c :: s)) as [segs|] eqn:E.
    + intros _. pose proof (Hne _ _ E).
      destruct (length (concat segs)) as [|k] eqn:Ek.
      { destruct (concat segs); [done|discriminate]. }
      pose proof (sublist_length _ _ (sub_from_sublist p k s)). lia.
    + intros H. apply IH in H. simpl. lia.
Qed.

Lemma literal_match_nonempty (pattern : pystr) (t : pystr) (segs : list pystr) :
  pattern <> [] ->
  Re.match_here (Re.literal pattern) t = Some segs -> concat segs <> [].
Proof.
  destruct pattern as [|c pattern]; [done|]. intros _.
  apply rep_match_nonempty. lia.
Qed.

Lemma exclude_patterns_nonempty (pattern : pystr) :
  pattern ∈ exclude_patterns -> pattern <> [].
Proof.
  intros Hin.
  assert (forallb Py.truthy exclude_patterns = true) as H by (by vm_compute).
  rewrite forallb_forall in H. apply truthy_nonempty, H. by apply list_elem_of_In.
Qed.

(** The phrases shorten a text that contains one of them. *)
Lemma remove_phrases_shorter (patterns : list pystr) (s : pystr) :
  (forall pattern, pattern ∈ patterns -> pattern <> []) ->
  (exists pattern,
      pattern ∈ patterns /\ Re.search (Re.literal pattern) s <> None) ->
  (length (remove_phrases patterns s) < length s)%nat.
Proof.
  intros Hne. induction patterns as [|p ps IH].
  - intros (q & Hq & _). by apply elem_of_nil in Hq.
  - intros (q & Hq & Hmatch). unfold remove_phrases. cbn [fold_left].
    fold (remove_phrases ps (Re.sub (Re.literal p) s)).
    pose proof (sublist_length _ _ (remove_phrases_sublist ps (Re.sub (Re.literal p) s)))
      as Hle.
    destruct (Re.search (Re.literal p) s) as [m|] eqn:E.
    + assert (length (Re.sub (Re.literal p) s) < length s)%nat; [|lia].
      apply (sub_match_shorter _ 0); [|unfold Re.search in E; by rewrite E].
      intros t segs. apply literal_match_nonempty, Hne. constructor.
    + unfold Re.sub in *. rewrite (sub_no_match _ 0 s) in * by done.
      apply IH; [intros ? ?; apply Hne; by constructor|].
      apply elem_of_cons in Hq as [->|Hq]; [done|]. eauto.
Qed.

Lemma phrases_decide (patterns : list pystr) (s : pystr) :
  (forall pattern, pattern ∈ patterns -> Re.search (Re.literal pattern) s = None)
  \/ (exists pattern,
         pattern ∈ patterns /\ Re.search (Re.literal pattern) s <> None).
Proof.
  induction patterns as [|p ps [IH|(q & Hq & Hm)]].
  - left. by intros ? ?%elem_of_nil.
  - destruct (Re.search (Re.literal p) s) as [m|] eqn:E.
    + right. exists p. split; [constructor | by rewrite E].
    + left. intros q Hq. apply elem_of_cons in Hq as [->|Hq]; auto.
  - right. exists q. split; [by constructor | done].
Qed.

Lemma join_cons_length (w : pystr) (ws : list pystr) :
  (length (Py.join Py.space (w :: ws))
   <= length w + 1 + length (Py.join Py.space ws))%nat.
Proof.
  destruct ws as [|w' ws]; [simpl; lia|].
  change (Py.join Py.space (w :: w' :: ws))
    with (w ++ Py.space :: Py.join Py.space (w' :: ws)).
  rewrite length_app. simpl. lia.
Qed.

(** Normalising the whitespace never lengthens a text. *)
Lemma join_split_words_length (acc s : pystr) :
  (length (Py.join Py.space (Py.split_words acc s)) <= length acc + length s)%nat.
Proof.
  revert acc. induction s as [|c s IH]; intros acc; cbn [Py.split_words].
  - destruct acc as [|a acc]; [simpl; lia|].
    cbn [Py.join]. rewrite length_rev. lia.
  - destruct (Py.isspace c).
    + destruct acc as [|a acc].
      * specialize (IH []). simpl in *. lia.
      * pose proof (join_cons_length (rev (a :: acc)) (Py.split_words [] s)) as H.
        specialize (IH []). rewrite length_rev in H. simpl in *. lia.
    + specialize (IH (c :: acc)). simpl in *. lia.
Qed.

(** Cleaning never lengthens a name without ['/'], and shortens it when
    it contains a phrase or a buyer tag. *)
Lemma clean_product_name_shorter (s : pystr) :
  Py.contains Py.slash s = false ->
  (exists pattern,
      pattern ∈ exclude_patterns /\ Re.search (Re.literal pattern) s <> None)
  \/ Re.search buyer_tag_pattern s <> None ->
  (length (clean_product_name s) < length s)%nat.
Proof.
  intros Hslash H. unfold clean_product_name. rewrite Hslash.
  generalize exclude_patterns_nonempty. revert H.
  generalize exclude_patterns. intros patterns H Hne.
  pose proof (sublist_length _ _ (remove_phrases_sublist patterns s)) as H1.
  assert (length (Re.sub buyer_tag_pattern (remove_phrases patterns s)) < length s)%nat
    as H2.
  { pose proof (sublist_length _ _
                  (sub_sublist buyer_tag_pattern (remove_phrases patterns s))).
    destruct (phrases_decide patterns s) as [Hnone|Hsome].
    - destruct H as [(q & Hq & Hm)|Htag]; [by apply Hnone in Hq|].
      rewrite remove_phrases_no_match by done.
      apply (sub_match_shorter _ 0); [|done].
      intros t segs. apply rep_match_nonempty. lia.
    - pose proof (remove_phrases_shorter patterns s Hne Hsome). lia. }
  revert H2. generalize (Re.sub buyer_tag_pattern (remove_phrases patterns s)).
  intros x2 H2.
  pose proof (strip_length (Py.join Py.space (Py.split x2))) as H4.
  pose proof (join_split_words_length [] x2) as H3.
  change (length [] + length x2)%nat with (length x2) in H3.
  unfold Py.split in *. lia.
Qed.

(** C4, as amended.  Cleaning a cleaned name changes nothing exactly
    when the cleaned name contains none of the boilerplate phrases and
    no buyer tag; a cleaned name that still contains one is shortened
    by a second pass. *)
Theorem C4_clean_idempotent_on_clean_names (name : pystr) :
  clean_product_name (clean_product_name name) = clean_product_name name
  <-> (forall pattern,
          pattern ∈ exclude_patterns ->
          Re.search (Re.literal pattern) (clean_product_name name) = None)
      /\ Re.search buyer_tag_pattern (clean_product_name name) = None.
Proof.
  destruct (clean_product_name_shape name) as [Hslash (ws & Hws & Hshape)].
  set (cleaned := clean_product_name name) in *.
  apply contains_false in Hslash. split.
  - intros Hidem.
    assert (~ (length (clean_product_name cleaned) < length cleaned)%nat) as Hlen
        by (rewrite Hidem; lia).
    split.
    + intros pattern Hin.
      destruct (Re.search (Re.literal pattern) cleaned) as [m|] eqn:E; [|done].
      exfalso. apply Hlen, clean_product_name_shorter; [done|].
      left. exists pattern. split; [done | by rewrite E].
    + destruct (Re.search buyer_tag_pattern cleaned) as [m|] eqn:E; [|done].
      exfalso. apply Hlen, clean_product_name_shorter; [done|].
      right. by rewrite E.
  - intros [Hphrases Htag].
    unfold clean_product_name at 1. fold cleaned. rewrite Hslash.
    rewrite remove_phrases_no_match by done.
    unfold Re.sub. rewrite (sub_no_match _ 0 cleaned) by done.
    rewrite Hshape, split_join by done.
    by apply trimmed_strip, join_trimmed.
Qed.

Lemma C4_clean_idempotent_on_clean_names_witness :
  clean_product_name (clean_product_name (Py.lit "한정 수제청 선착순 철수2 / 영희"))
  = clean_product_name (Py.lit "한정 수제청 선착순 철수2 / 영희")
  /\ clean_product_name (Py.lit "한정 수제청 선착순 철수2 / 영희") = Py.lit "수제청".
Proof.
  split; [|vm_compute; reflexivity].
  apply C4_clean_idempotent_on_clean_names. split.
  - intros pattern Hin.
    repeat (apply elem_of_cons in Hin as [->|Hin]; [vm_compute; reflexivity|]).
    by apply elem_of_nil in Hin.
  - vm_compute. reflexivity.
Defined.

(** C4 as the specification states it fails: deleting a phrase can join
    the two halves of another occurrence, which only a second pass
    deletes. *)
Lemma C4_clean_idempotent_counterexample :
  clean_product_name (Py.lit "한한정정") = Py.lit "한정"
  /\ clean_product_name (clean_product_name (Py.lit "한한정정")) = []
  /\ clean_product_name (clean_product_name (Py.lit "한한정정"))
     <> clean_product_name (Py.lit "한한정정").
Proof.
  split; [vm_compute; reflexivity|]. split; [vm_compute; reflexivity|].
  vm_compute. discriminate.
Qed.

(* ===================================================================== *)
(** * Further properties of the program                                   *)
(* ===================================================================== *)

(** ** Trimming *)

Lemma lstrip_split (s : pystr) :
  exists pre, s = pre ++ Py.lstrip s /\ Forall (fun c => Py.isspace c = true) pre.
Proof.
  induction s as [|c s (pre & IH & Hpre)]; simpl; [by exists []|].
  destruct (Py.isspace c) eqn:E; [|by exists []].
  exists (c :: pre). simpl. split; [congruence | by constructor].
Qed.

(** A text is whitespace, its trimmed part, and whitespace again. *)
Lemma strip_split (s : pystr) :
  exists pre post,
    s = pre ++ Py.strip s ++ post
    /\ Forall (fun c => Py.isspace c = true) pre
    /\ Forall (fun c => Py.isspace c = true) post.
Proof.
  destruct (lstrip_split s) as (pre & Hs & Hpre).
  destruct (lstrip_split (rev (Py.lstrip s))) as (post & Hr & Hpost).
  exists pre, (rev post). repeat split; [|done|by apply Forall_rev].
  rewrite Hs at 1. f_equal. unfold Py.strip, Py.rstrip.
  apply (f_equal (@rev _)) in Hr. rewrite rev_involutive, rev_app_distr in Hr. done.
Qed.

Lemma strip_sublist (s : pystr) : sublist (Py.strip s) s.
Proof.
  destruct (strip_split s) as (pre & post & Hs & _). rewrite Hs at 2.
  apply sublist_inserts_l, sublist_inserts_r. done.
Qed.

Lemma lstrip_spaces (pre s : pystr) :
  Forall (fun c => Py.isspace c = true) pre -> Py.lstrip (pre ++ s) = Py.lstrip s.
Proof. induction 1 as [|c pre Hc _ IH]; simpl; [done|]. by rewrite Hc. Qed.

(** The trimmed part is the only trimmed text with whitespace around. *)
Lemma strip_unique (pre t post : pystr) :
  Forall (fun c => Py.isspace c = true) pre ->
  Forall (fun c => Py.isspace c = true) post ->
  trimmed t ->
  Py.strip (pre ++ t ++ post) = t.
Proof.
  intros Hpre Hpost [Hl Hr]. unfold Py.strip, Py.rstrip.
  rewrite lstrip_spaces by done.
  destruct t as [|c t].
  - simpl. rewrite <- (app_nil_r post), lstrip_spaces by done. done.
  - assert (Py.lstrip ((c :: t) ++ post) = (c :: t) ++ post) as ->.
    { simpl in *. destruct (Py.isspace c) eqn:E; [|done].
      pose proof (lstrip_length t) as L. rewrite Hl in L. simpl in L. lia. }
    rewrite rev_app_distr, lstrip_spaces by (by apply Forall_rev).
    by rewrite Hr, rev_involutive.
Qed.

Lemma trimmed_head (c : Py.char) (t : pystr) :
  trimmed (c :: t) -> Py.isspace c = false.
Proof.
  intros [Hl _]. simpl in Hl. destruct (Py.isspace c) eqn:E; [|done].
  pose proof (lstrip_length t) as L. rewrite Hl in L. simpl in L. lia.
Qed.

(** After dropping a first character that is not whitespace, the text
    trims to what the text after that character trims to. *)
Lemma strip_drop_first (c : Py.char) (rest : pystr) :
  Py.isspace c = false ->
  exists tail,
    Py.strip (c :: rest) = c :: tail /\ Py.strip tail = Py.strip rest
    /\ exists post, c :: rest = (c :: tail) ++ post.
Proof.
  intros Hc. destruct (strip_split rest) as (pre & post & Hs & Hpre & Hpost).
  pose proof (strip_trimmed rest) as Ht.
  destruct (Py.strip rest) as [|d t] eqn:E.
  - exists []. simpl in Hs.
    assert (Py.strip (c :: rest) = [c]) as ->.
    { rewrite Hs. apply (strip_unique [] [c] (pre ++ post)); [constructor| |].
      - by apply Forall_app.
      - split; simpl; by rewrite Hc. }
    repeat split. by exists rest.
  - exists (pre ++ d :: t).
    assert (trimmed (c :: pre ++ d :: t)) as Htrim.
    { split; [simpl; by rewrite Hc|].
      destruct Ht as [_ Hr]. simpl. simpl in Hr.
      rewrite rev_app_distr. simpl. rewrite <- !app_assoc.
      pose proof (lstrip_fixed (rev t ++ [d])) as Hf.
      apply Hf in Hr. apply lstrip_fixed.
      destruct (rev t); simpl in *; done. }
    assert (Py.strip (c :: rest) = c :: pre ++ d :: t) as ->.
    { rewrite Hs.
      replace (c :: pre ++ (d :: t) ++ post)
        with ([] ++ (c :: pre ++ d :: t) ++ post)
        by (simpl; by rewrite <- app_assoc).
      by apply strip_unique; [constructor| |]. }
    split; [done|]. split.
    + pose proof (strip_unique pre (d :: t) [] Hpre (Forall_nil_2 _) Ht) as Hu.
      by rewrite app_nil_r in Hu.
    + exists post. rewrite Hs. simpl. by rewrite <- app_assoc.
Qed.

(** ** More on [parse_order_info] *)

Lemma order_step_strip (valid_buyers : list pystr) (buf : pystr) :
  order_step valid_buyers (Py.strip buf) = order_step valid_buyers buf.
Proof. unfold order_step. by rewrite strip_idem. Qed.

(** Two buffers that trim to the same text give the same result, with
    any fuel that suffices for each. *)
Lemma order_loop_strip (fuel1 fuel2 : nat) (valid_buyers : list pystr)
    (a b : pystr) (orders : list (pystr * Z)) :
  Py.strip a = Py.strip b ->
  (length a < fuel1)%nat -> (length b < fuel2)%nat ->
  order_loop fuel1 valid_buyers a orders = order_loop fuel2 valid_buyers b orders.
Proof.
  intros Hab H1 H2.
  destruct fuel1 as [|fuel1]; [lia|]. destruct fuel2 as [|fuel2]; [lia|].
  rewrite !order_loop_unfold.
  assert (order_step valid_buyers a = order_step valid_buyers b) as Hstep.
  { by rewrite <- (order_step_strip _ a), <- (order_step_strip _ b), Hab. }
  destruct (order_step valid_buyers b) as [| |order rest|rest] eqn:Eb;
    rewrite Hstep; try done.
  - assert (length rest < length a)%nat
      by (apply (order_step_shorter valid_buyers); left; eauto).
    assert (length rest < length b)%nat
      by (apply (order_step_shorter valid_buyers); left; eauto).
    apply order_loop_fuel; lia.
  - assert (length rest < length a)%nat
      by (apply (order_step_shorter valid_buyers); by right).
    assert (length rest < length b)%nat
      by (apply (order_step_shorter valid_buyers); by right).
    apply order_loop_fuel; lia.
Qed.

Lemma parse_order_info_buyer (msg : pystr) (valid_buyers : list pystr)
    (b : pystr) (q : Z) :
  (b, q) ∈ parse_order_info msg valid_buyers -> b <> [] /\ b ∈ valid_buyers.
Proof.
  intros Hin.
  pose proof (parse_order_info_forall
                (fun order => fst order <> [] /\ fst order ∈ valid_buyers)
                msg valid_buyers) as Hall.
  rewrite Forall_forall in Hall. apply (Hall ltac:(
    intros buf [b' q'] rest H; by apply order_step_emit in H as (? & ? & _)) (b, q) Hin).
Qed.

(** X1. Only valid buyers are reported: the buyer of every pair is a
    non-empty member of [valid_buyers]. *)
Theorem parse_order_info_buyers_valid (msg : pystr) (valid_buyers : list pystr)
    (b : pystr) (q : Z) :
  (b, q) ∈ parse_order_info msg valid_buyers -> b <> [] /\ b ∈ valid_buyers.
Proof.
  intros Hin. unfold parse_order_info in Hin.
  destruct (Py.contains Py.slash msg); [|by apply elem_of_nil in Hin].
  destruct (run_orders valid_buyers (order_part_of msg)) as [orders| |] eqn:E;
    try by apply elem_of_nil in Hin.
  unfold run_orders in E.
  eapply (order_loop_forall
            (fun order => fst order <> [] /\ fst order ∈ valid_buyers)) in E;
    [|by intros buf [b' q'] rest H; apply order_step_emit in H as (? & ? & _)
     |constructor].
  rewrite Forall_forall in E. apply (E (b, q) Hin).
Qed.

Lemma parse_order_info_buyers_valid_witness :
  Py.lit "영희" <> [] /\ Py.lit "영희" ∈ [Py.lit "철수"; Py.lit "영희"].
Proof.
  apply (parse_order_info_buyers_valid (Py.lit "2 수제청 3000원 / 철수, 민수 영희2")
           [Py.lit "철수"; Py.lit "영희"] (Py.lit "영희") 2%Z).
  vm_compute. do 2 constructor.
Defined.

(** The loop reads the buyers from left to right. *)
Lemma order_loop_sublist (fuel : nat) (valid_buyers : list pystr) (buf : pystr)
    (orders : list (pystr * Z)) :
  order_loop fuel valid_buyers buf [] = Returned orders ->
  sublist (concat (List.map fst orders)) buf.
Proof.
  revert buf orders. induction fuel as [|fuel IH]; intros buf orders; [done|].
  rewrite order_loop_unfold.
  destruct (order_step valid_buyers buf) as [| |[b q] rest|rest] eqn:E.
  - intros [= <-]. apply sublist_nil_l.
  - done.
  - rewrite order_loop_acc.
    destruct (order_loop fuel valid_buyers rest []) as [tail| |] eqn:Et; [|done..].
    intros [= <-]. apply IH in Et.
    apply order_step_emit in E as (_ & _ & ds & Hs & _).
    etransitivity; [|apply strip_sublist]. rewrite Hs. simpl.
    apply sublist_app; [done|]. by apply sublist_inserts_l.
  - intros H. apply IH in H. apply order_step_skip in E as [_ ->].
    etransitivity; [exact H|]. etransitivity; [|apply strip_sublist].
    apply sublist_drop.
Qed.

(** X2. The buyers of the result, in their order, are spelled out from
    left to right in the order part of the message, without overlap; so
    there are never more pairs than characters in the order part. *)
Theorem parse_order_info_left_to_right (msg : pystr) (valid_buyers : list pystr) :
  sublist (concat (List.map fst (parse_order_info msg valid_buyers)))
    (order_part_of msg)
  /\ (length (parse_order_info msg valid_buyers) <= length (order_part_of msg))%nat.
Proof.
  assert (sublist (concat (List.map fst (parse_order_info msg valid_buyers)))
            (order_part_of msg)) as Hsub.
  { unfold parse_order_info, run_orders.
    destruct (Py.contains Py.slash msg); [|apply sublist_nil_l].
    destruct (order_loop _ _ _ _) as [orders| |] eqn:E; try apply sublist_nil_l.
    by apply order_loop_sublist in E. }
  split; [done|]. apply sublist_length in Hsub.
  etransitivity; [|exact Hsub]. clear Hsub.
  pose proof (fun b q => parse_order_info_buyer msg valid_buyers b q) as Hne.
  induction (parse_order_info msg valid_buyers) as [|[b q] l IH]; simpl; [lia|].
  rewrite length_app.
  assert (b <> []) by (apply (Hne b q); constructor).
  assert (length l <= length (concat (List.map fst l)))%nat.
  { apply IH. intros b' q' Hin. apply (Hne b' q'). by constructor. }
  destruct b; simpl; [done|lia].
Qed.

(** A buyer token whose digits are more than [int] accepts: the
    iteration raises. *)
Lemma order_step_raise (valid_buyers : list pystr) (buf B ds rest : pystr) :
  Py.strip buf = B ++ ds ++ rest ->
  only_buyer_at valid_buyers (Py.strip buf) B ->
  Forall (fun c => Py.isdecimal c = true) ds ->
  (Py.int_max_str_digits < length ds)%nat ->
  no_digit_ahead rest ->
  order_step valid_buyers buf = Raise.
Proof.
  intros Ht (HB & Hin & Honly) Hds Hlen Hahead.
  unfold order_step. set (t := Py.strip buf) in *.
  assert (Py.truthy t = true) as ->.
  { rewrite Ht. destruct B; [done|reflexivity]. }
  cbn [negb]. rewrite pass1_scan_ids.
  assert (scan_ids valid_buyers t = None) as ->; [|done].
  destruct (first_prefix valid_buyers t)
    as [Hnone|(pre & b & post & Hvb & Hpre & Hb)].
  - specialize (Hnone B Hin). rewrite Ht, startswith_app in Hnone. done.
  - assert (b = B) as ->.
    { apply Honly; [|done]. rewrite Hvb. apply elem_of_app. right. constructor. }
    rewrite Hvb, scan_ids_miss by done. rewrite Ht, scan_ids_hit.
    cbv zeta. rewrite (span_app Re.digit ds rest) by done.
    rewrite take_app_length.
    destruct ds as [|c ds]; [simpl in Hlen; lia|].
    unfold Py.int. cbn [length] in *.
    destruct (Nat.ltb_spec Py.int_max_str_digits (S (length ds))); [done|lia].
Qed.

Lemma run_orders_raise (valid_buyers : list pystr) (buf B ds rest : pystr) :
  Py.strip buf = B ++ ds ++ rest ->
  only_buyer_at valid_buyers (Py.strip buf) B ->
  Forall (fun c => Py.isdecimal c = true) ds ->
  (Py.int_max_str_digits < length ds)%nat ->
  no_digit_ahead rest ->
  run_orders valid_buyers buf = Raised.
Proof.
  intros Ht HB Hds Hlen Hahead. unfold run_orders.
  by rewrite order_loop_unfold,
    (order_step_raise valid_buyers buf B ds rest).
Qed.

(** X3. A quantity written with more digits than [int] converts makes
    the conversion raise, and the [except] clause returns the empty
    list: the pair read before it on the same line is lost as well. *)
Theorem oversized_quantity_discards_line (valid_buyers : list pystr)
    (msg B qs rest B' ds rest' : pystr) (Q : Z) :
  Py.contains Py.slash msg = true ->
  order_part_of msg = B ++ qs ++ rest ->
  only_buyer_at valid_buyers (order_part_of msg) B ->
  reads_quantity qs Q ->
  no_digit_ahead rest ->
  Py.strip rest = B' ++ ds ++ rest' ->
  only_buyer_at valid_buyers (Py.strip rest) B' ->
  Forall (fun c => Py.isdecimal c = true) ds ->
  (Py.int_max_str_digits < length ds)%nat ->
  no_digit_ahead rest' ->
  order_step valid_buyers (order_part_of msg) = Emit (B, Q) rest
  /\ parse_order_info msg valid_buyers = [].
Proof.
  intros Hslash Hpart (HB & Hin & Honly) Hq Hahead Hrest HB' Hds Hlen Hahead'.
  assert (Py.strip (order_part_of msg) = B ++ qs ++ rest) as Ht
      by (by rewrite order_part_trimmed).
  split.
  - apply (order_step_token valid_buyers (order_part_of msg) B qs rest Q);
      try done. by rewrite order_part_trimmed.
  - unfold parse_order_info. rewrite Hslash.
    rewrite (run_orders_token valid_buyers (order_part_of msg) B qs rest Q);
      try done; [|by rewrite order_part_trimmed].
    by rewrite (run_orders_raise valid_buyers rest B' ds rest').
Qed.

Lemma oversized_quantity_discards_line_witness :
  parse_order_info (Py.lit "1 꿀사과 5000원 / 철수2 철수" ++ replicate 4301 0x31)
    [Py.lit "철수"] = [].
Proof.
  assert (forall t : pystr,
             Py.startswith t (Py.lit "철수") = true ->
             only_buyer_at [Py.lit "철수"] t (Py.lit "철수")) as Honly.
  { intros t Ht. split; [vm_compute; discriminate|]. split; [constructor|].
    intros B' HB' _. apply elem_of_cons in HB' as [->|HB']; [done|].
    by apply elem_of_nil in HB'. }
  apply (oversized_quantity_discards_line [Py.lit "철수"]
           (Py.lit "1 꿀사과 5000원 / 철수2 철수" ++ replicate 4301 0x31)
           (Py.lit "철수") (Py.lit "2") (Py.lit " 철수" ++ replicate 4301 0x31)
           (Py.lit "철수") (replicate 4301 0x31) [] 2%Z).
  - vm_compute. reflexivity.
  - vm_compute. reflexivity.
  - apply Honly. vm_compute. reflexivity.
  - right. split; [discriminate | vm_compute; reflexivity].
  - vm_compute. reflexivity.
  - vm_compute. reflexivity.
  - apply Honly. vm_compute. reflexivity.
  - apply Forall_replicate. vm_compute. reflexivity.
  - rewrite length_replicate. vm_compute. lia.
  - exact I.
Defined.

(** X4. Where no valid buyer starts, the loop moves on by one
    character: a buffer that begins with a character which is not
    whitespace, and with no valid buyer, gives what the buffer after
    that character gives. *)
Theorem unmatched_character_skipped (valid_buyers : list pystr) (c : Py.char)
    (rest : pystr) :
  Py.isspace c = false ->
  (forall id, id ∈ valid_buyers -> Py.startswith (c :: rest) id = false) ->
  order_step valid_buyers (c :: rest) = Skip (drop 1 (Py.strip (c :: rest)))
  /\ run_orders valid_buyers (c :: rest) = run_orders valid_buyers rest.
Proof.
  intros Hc Hnone.
  destruct (strip_drop_first c rest Hc) as (tail & Ht & Htail & post & Hpost).
  assert (forall id, id ∈ valid_buyers ->
                     Py.startswith (Py.strip (c :: rest)) id = false) as Hnone'.
  { intros id Hid. destruct (Py.startswith (Py.strip (c :: rest)) id) eqn:E; [|done].
    apply startswith_prefix in E as [r Hr].
    rewrite <- (Hnone id Hid). symmetry. apply startswith_prefix.
    exists (r ++ post). rewrite Hpost, <- Ht, Hr. by rewrite <- app_assoc. }
  assert (order_step valid_buyers (c :: rest)
          = Skip (drop 1 (Py.strip (c :: rest)))) as Hstep.
  { unfold order_step. set (t := Py.strip (c :: rest)) in *.
    assert (Py.truthy t = true) as -> by (by rewrite Ht).
    cbn [negb]. rewrite pass1_scan_ids, scan_ids_none by done.
    rewrite scan_name_unfold. cbn [found found_buyer no_buyer]. cbv zeta.
    destruct (_ <? 1)%nat; [done|].
    case_bool_decide as Hname; [|done]. exfalso.
    specialize (Hnone' _ Hname).
    assert (Py.startswith t (take (Re.span Re.name_char t) t) = true) as Hpre.
    { apply startswith_prefix. exists (drop (Re.span Re.name_char t) t).
      by rewrite take_drop. }
    congruence. }
  split; [done|]. unfold run_orders.
  rewrite (order_loop_unfold (length (c :: rest))), Hstep, Ht. simpl drop.
  rewrite drop_0.
  apply order_loop_strip; [done| |lia].
  pose proof (strip_length (c :: rest)) as Hlen. rewrite Ht in Hlen.
  simpl in *. lia.
Qed.

Lemma unmatched_character_skipped_witness :
  run_orders [Py.lit "철수"; Py.lit "영희"] (Py.lit ", 영희2")
  = run_orders [Py.lit "철수"; Py.lit "영희"] (Py.lit " 영희2").
Proof.
  apply (proj2 (unmatched_character_skipped [Py.lit "철수"; Py.lit "영희"]
                  comma (Py.lit " 영희2") ltac:(vm_compute; reflexivity)
                  ltac:(intros id Hid;
                        repeat (apply elem_of_cons in Hid as [->|Hid];
                                [vm_compute; reflexivity|]);
                        by apply elem_of_nil in Hid))).
Defined.

(** ** More on [get_valid_buyers] *)

Lemma take_span (cls : Py.char -> bool) (n : nat) (s : pystr) :
  (n <= Re.span cls s)%nat -> Forall (fun c => cls c = true) (take n s).
Proof.
  revert n. induction s as [|c s IH]; intros n Hn; simpl in *.
  - by rewrite take_nil.
  - destruct n as [|n]; [constructor|]. simpl.
    destruct (cls c) eqn:E; [|lia]. constructor; [done|]. apply IH. lia.
Qed.

Lemma name_char_not_space (c : Py.char) :
  Re.name_char c = true -> Py.isspace c = false.
Proof.
  unfold Re.name_char, Re.letter, Py.isspace, Py.exclamation, Py.tilde.
  intros H. apply not_true_iff_false. intros Hs.
  repeat rewrite ?orb_true_iff, ?andb_true_iff, ?N.leb_le, ?N.eqb_eq in H.
  repeat rewrite ?orb_true_iff, ?andb_true_iff, ?N.leb_le, ?N.eqb_eq in Hs.
  lia.
Qed.

(** A non-empty run of name characters is trimmed. *)
Lemma name_run_trimmed (s : pystr) :
  Forall (fun c => Re.name_char c = true) s -> Py.strip s = s.
Proof.
  intros Hs. apply trimmed_strip. split.
  - apply lstrip_fixed. destruct Hs as [|c s Hc _]; [done|].
    by apply name_char_not_space.
  - apply lstrip_fixed. apply Forall_rev in Hs.
    destruct Hs as [|c r Hc _]; [done|]. by apply name_char_not_space.
Qed.

(** The manual identifiers take a token when the first of them that the
    token starts with is not the empty string. *)
Lemma found_unclaimed (manual_buyer_ids : list pystr) (part : pystr) :
  found (if bool_decide (manual_buyer_ids = []) then None
         else List.find (Py.startswith part) manual_buyer_ids) = false
  <-> unclaimed manual_buyer_ids part.
Proof.
  unfold unclaimed. case_bool_decide as Hm.
  - subst. simpl. split; [|done]. by intros _ id.
  - destruct (List.find _ _) as [id|]; simpl.
    + split.
      * intros Ht id' [= <-]. by destruct id.
      * intros H. by rewrite (H id eq_refl).
    + split; [|done]. by intros _ id.
Qed.

(** The run of name characters of a token is what the pattern matches. *)
Lemma name_run_span (part b : pystr) :
  name_run part b
  <-> (1 <= Re.span Re.name_char part)%nat
      /\ b = take (Re.span Re.name_char part) part.
Proof.
  unfold name_run. split.
  - intros (Hne & Hrun & rest & -> & Hrest).
    rewrite span_app by done. rewrite take_app_length.
    split; [|done]. destruct b; [done|simpl; lia].
  - intros [Hspan ->]. pose proof (span_le Re.name_char part) as Hle.
    split; [|split].
    + intros H. apply (f_equal length) in H. rewrite length_take in H.
      simpl in H. lia.
    + by apply take_span.
    + exists (drop (Re.span Re.name_char part) part).
      split; [by rewrite take_drop | apply drop_span].
Qed.

(** What a token adds: nothing, or the run of name characters it
    starts with. *)
Lemma add_part_elem (manual_buyer_ids : list pystr) (part b : pystr) :
  b ∈ add_part manual_buyer_ids ∅ part
  <-> unclaimed manual_buyer_ids part /\ name_run part b.
Proof.
  rewrite <- found_unclaimed, name_run_span. unfold add_part.
  destruct (found _).
  { split; [by intros ?%not_elem_of_empty | by intros [? _]]. }
  unfold Re.match_, buyer_name_pattern. rewrite match_one_rep.
  destruct (Nat.ltb_spec (Re.span Re.name_char part) 1) as [Hlt|Hge].
  { split; [by intros ?%not_elem_of_empty | intros (_ & ? & _); lia]. }
  cbn [Re.seg nth].
  assert (Forall (fun c => Re.name_char c = true)
            (take (Re.span Re.name_char part) part)) as Hrun
      by (by apply take_span).
  rewrite (name_run_trimmed _ Hrun).
  assert (Py.truthy (take (Re.span Re.name_char part) part) = true) as ->.
  { apply truthy_nonempty. intros H. apply (f_equal length) in H.
    pose proof (span_le Re.name_char part). rewrite length_take in H.
    simpl in H. lia. }
  rewrite union_empty_r_L, elem_of_singleton. tauto.
Qed.

Lemma add_parts_elem (manual_buyer_ids : list pystr) (parts : list pystr)
    (b : pystr) :
  b ∈ fold_left (add_part manual_buyer_ids) parts ∅
  <-> exists part, part ∈ parts /\ b ∈ add_part manual_buyer_ids ∅ part.
Proof.
  induction parts as [|part parts IH]; simpl.
  - split; [by intros ?%not_elem_of_empty|].
    by intros (part & ?%elem_of_nil & _).
  - rewrite add_parts_union, elem_of_union, IH. split.
    + intros [(p & Hp & Hb)|H].
      * exists p. split; [by constructor|done].
      * exists part. split; [constructor|done].
    + intros (p & [->|Hp]%elem_of_cons & Hb); [by right|]. left. by exists p.
Qed.

Lemma add_rows_union (manual_buyer_ids : list pystr) (df : list Row)
    (buyers : gset pystr) :
  fold_left (add_row manual_buyer_ids) df buyers
  = fold_left (add_row manual_buyer_ids) df ∅ ∪ buyers.
Proof.
  revert buyers. induction df as [|row df IH]; intros buyers; simpl.
  - set_solver.
  - rewrite IH, (IH (add_row manual_buyer_ids ∅ row)).
    rewrite (add_row_union _ buyers). set_solver.
Qed.

Lemma add_rows_elem (manual_buyer_ids : list pystr) (df : list Row) (b : pystr) :
  b ∈ fold_left (add_row manual_buyer_ids) df ∅
  <-> exists row, row ∈ df /\ b ∈ add_row manual_buyer_ids ∅ row.
Proof.
  induction df as [|row df IH]; simpl.
  - split; [by intros ?%not_elem_of_empty|].
    by intros (row & ?%elem_of_nil & _).
  - rewrite add_rows_union, elem_of_union, IH. split.
    + intros [(r & Hr & Hb)|H].
      * exists r. split; [by constructor|done].
      * exists row. split; [constructor|done].
    + intros (r & [->|Hr]%elem_of_cons & Hb); [by right|]. left. by exists r.
Qed.

(** X5. The members of the set returned are exactly the manual
    identifiers and the discovered names.  A discovered name is the
    whole run of name characters at the start of a whitespace-separated
    token of the order part of a row with a ['/']: the run is not empty,
    the token does not go on with a further name character, and no
    manual identifier has taken the token. *)
Theorem get_valid_buyers_members (df : list Row) (manual_buyer_ids : list pystr)
    (b : pystr) :
  b ∈ get_valid_buyers df manual_buyer_ids
  <-> b ∈ manual_buyer_ids
      \/ exists row part,
           row ∈ df /\ Py.contains Py.slash (message_of row) = true
           /\ part ∈ Py.split (order_part_of (message_of row))
           /\ unclaimed manual_buyer_ids part
           /\ name_run part b.
Proof.
  unfold get_valid_buyers.
  rewrite add_rows_union, !elem_of_union, elem_of_list_to_set, add_rows_elem.
  split.
  - intros [(row & Hrow & H)|[H|H]]; [|by left|by apply not_elem_of_empty in H].
    right. unfold add_row in H.
    destruct (Py.contains Py.slash (message_of row)) eqn:Es;
      [|by apply not_elem_of_empty in H].
    apply add_parts_elem in H as (part & Hpart & H).
    apply add_part_elem in H as [Hfree Hrun]. by exists row, part.
  - intros [H|(row & part & Hrow & Hslash & Hpart & Hfree & Hrun)];
      [right; by left|].
    left. exists row. split; [done|]. unfold add_row. rewrite Hslash.
    apply add_parts_elem. exists part. split; [done|].
    by apply add_part_elem.
Qed.

(** X6. The buyers of a batch are the buyers of its parts: the rows of
    two batches put together give the union of what each batch gives. *)
Theorem get_valid_buyers_app (df1 df2 : list Row) (manual_buyer_ids : list pystr) :
  get_valid_buyers (df1 ++ df2) manual_buyer_ids
  = get_valid_buyers df1 manual_buyer_ids ∪ get_valid_buyers df2 manual_buyer_ids.
Proof.
  unfold get_valid_buyers. rewrite fold_left_app.
  rewrite (add_rows_union _ df2), (add_rows_union _ df1),
    (add_rows_union _ df2 (_ ∪ _)).
  set_solver.
Qed.

(** Without an empty identifier, the search of the manual identifiers
    succeeds exactly when one of them is a prefix of the token. *)
Lemma manual_found (manual_buyer_ids : list pystr) (part : pystr) :
  [] ∉ manual_buyer_ids ->
  found (if bool_decide (manual_buyer_ids = []) then None
         else List.find (Py.startswith part) manual_buyer_ids) = true
  <-> exists id, id ∈ manual_buyer_ids /\ Py.startswith part id = true.
Proof.
  intros Hne.
  assert ((if bool_decide (manual_buyer_ids = []) then None
           else List.find (Py.startswith part) manual_buyer_ids)
          = List.find (Py.startswith part) manual_buyer_ids) as ->.
  { case_bool_decide as H; [by rewrite H | done]. }
  destruct (List.find (Py.startswith part) manual_buyer_ids) as [id|] eqn:E.
  - apply find_some in E as [Hin Hpre]. apply list_elem_of_In in Hin.
    simpl. split; [eauto|]. intros _. apply truthy_nonempty. by intros ->.
  - simpl. split; [done|]. intros (id & Hin & Hpre).
    apply list_elem_of_In in Hin. pose proof (find_none _ _ E id Hin). congruence.
Qed.

Lemma add_part_manual_order (m m' : list pystr) (buyers : gset pystr)
    (part : pystr) :
  [] ∉ m -> (forall id, id ∈ m <-> id ∈ m') ->
  add_part m buyers part = add_part m' buyers part.
Proof.
  intros Hne Hsame. unfold add_part.
  assert ([] ∉ m') as Hne' by (by rewrite <- Hsame).
  pose proof (manual_found m part Hne) as H.
  pose proof (manual_found m' part Hne') as H'.
  destruct (found (if bool_decide (m = []) then _ else _)) eqn:E;
    destruct (found (if bool_decide (m' = []) then _ else _)) eqn:E'; try done.
  - destruct (proj1 H eq_refl) as (id & Hin & Hpre).
    assert (false = true); [|done]. apply H'. exists id. by rewrite <- Hsame.
  - destruct (proj1 H' eq_refl) as (id & Hin & Hpre).
    assert (false = true); [|done]. apply H. exists id. by rewrite Hsame.
Qed.

(** X7. When no manual identifier is empty, the order in which the
    manual set is enumerated does not matter: two enumerations with the
    same elements give the same set of buyers. *)
Theorem get_valid_buyers_manual_order (df : list Row) (m m' : list pystr) :
  [] ∉ m -> (forall id, id ∈ m <-> id ∈ m') ->
  get_valid_buyers df m = get_valid_buyers df m'.
Proof.
  intros Hne Hsame. unfold get_valid_buyers.
  assert (list_to_set m = (list_to_set m' : gset pystr)) as ->.
  { apply set_eq. intros x. by rewrite !elem_of_list_to_set. }
  generalize (list_to_set m' ∪ (∅ : gset pystr)).
  induction df as [|row df IH]; intros buyers; simpl; [done|].
  rewrite IH. f_equal. unfold add_row.
  destruct (Py.contains Py.slash (message_of row)); [|done].
  generalize (Py.split (order_part_of (message_of row))). intros parts.
  revert buyers. induction parts as [|part parts IHp]; intros buyers; simpl; [done|].
  by rewrite IHp, (add_part_manual_order m m').
Qed.

Lemma get_valid_buyers_manual_order_witness :
  let row := {| row_message := Some (Py.lit "1 꿀사과 5000원 / kim22 lee7 park");
                row_sender := None |} in
  get_valid_buyers [row] [Py.lit "kim2"; Py.lit "lee7"]
  = get_valid_buyers [row] [Py.lit "lee7"; Py.lit "kim2"].
Proof.
  intros row. apply get_valid_buyers_manual_order.
  - intros H. repeat (apply elem_of_cons in H as [H|H]; [vm_compute in H; discriminate|]).
    by apply elem_of_nil in H.
  - intros id. rewrite !elem_of_cons. tauto.
Defined.

(** ** The identifiers typed in [main] *)

Lemma split_on_pieces (sep : Py.char) (s : pystr) :
  Forall (fun piece => sep ∉ piece) (Py.split_on sep s).
Proof.
  induction s as [|c s IH]; simpl.
  - constructor; [apply not_elem_of_nil | constructor].
  - destruct (N.eqb_spec c sep) as [->|Hne].
    + constructor; [apply not_elem_of_nil | done].
    + destruct (Py.split_on sep s) as [|piece pieces].
      * constructor; [|constructor].
        intros H. apply elem_of_cons in H as [->|H]; [done|by apply elem_of_nil in H].
      * inversion IH as [|? ? Hp Hps]; subst. constructor; [|done].
        intros H. apply elem_of_cons in H as [->|H]; done.
Qed.

(** X8. The identifiers [main] passes on are never empty, have no
    whitespace at either end and contain no comma. *)
Theorem manual_ids_of_input_wellformed (buyer_ids_input id : pystr) :
  id ∈ manual_ids_of_input buyer_ids_input ->
  id <> [] /\ trimmed id /\ comma ∉ id.
Proof.
  unfold manual_ids_of_input.
  destruct (Py.truthy buyer_ids_input); [|by intros ?%not_elem_of_empty].
  rewrite elem_of_list_to_set, list_elem_of_In, in_map_iff.
  intros (piece & <- & Hin). apply filter_In in Hin as [Hin Ht].
  split; [by apply truthy_nonempty|]. split; [apply strip_trimmed|].
  intros Hc. apply in_strip in Hc.
  pose proof (split_on_pieces comma buyer_ids_input) as Hall.
  rewrite Forall_forall in Hall. apply (Hall piece); [|done].
  by apply list_elem_of_In.
Qed.

Lemma manual_ids_of_input_wellformed_witness :
  Py.lit "buyer777" <> [] /\ trimmed (Py.lit "buyer777")
  /\ comma ∉ Py.lit "buyer777".
Proof.
  apply (manual_ids_of_input_wellformed (Py.lit "user123, buyer777 ,, ")).
  vm_compute. reflexivity.
Defined.

(** ** More on [extract_product_info] *)

Lemma digit_not_space (c : Py.char) : Py.isdecimal c = true -> Py.isspace c = false.
Proof. apply digits_avoid_spec. by vm_compute. Qed.

Lemma digit_not_space_or_stop (c : Py.char) :
  Py.isdecimal c = true -> Re.space_or_stop c = false.
Proof. apply digits_avoid_spec. by vm_compute. Qed.

Lemma digit_not_won (c : Py.char) : Py.isdecimal c = true -> c <> Py.won.
Proof.
  intros H. apply (digits_avoid_spec (N.eqb Py.won)) in H; [|by vm_compute].
  intros ->. by rewrite N.eqb_refl in H.
Qed.

(** Where [re.search] finds its match. *)
Lemma search_from_spec (p : Re.pattern) (i start : nat) (s : pystr)
    (segs : list pystr) :
  Re.search_from p i s = Some (start, segs) ->
  exists k, start = (i + k)%nat /\ (k <= length s)%nat
            /\ Re.match_here p (drop k s) = Some segs.
Proof.
  revert i. induction s as [|c s IH]; intros i; simpl.
  - destruct (Re.match_here p []) eqn:E; [|done]. intros [= <- <-].
    exists O. rewrite Nat.add_0_r. by repeat split.
  - destruct (Re.match_here p (c :: s)) eqn:E.
    + intros [= <- <-]. exists O. rewrite Nat.add_0_r. repeat split; [lia|done].
    + intros H. apply IH in H as (k & -> & Hk & Hm).
      exists (S k). repeat split; [lia|lia|done].
Qed.

(** A number of at most [n] digits is below [10 ^ n]. *)
Lemma int_digits_bound (s : pystr) (a q : Z) :
  fold_left
    (fun acc c =>
       match acc, Py.digit_value c with
       | Some n, Some d => Some (10 * n + d)%Z
       | _, _ => None
       end) s (Some a) = Some q ->
  (0 <= a)%Z -> (q < (a + 1) * 10 ^ Z.of_nat (length s))%Z.
Proof.
  revert a. induction s as [|c s IH]; intros a.
  - simpl. intros [= <-] Ha. lia.
  - cbn [fold_left length]. destruct (Py.digit_value c) as [d|] eqn:E.
    + intros H Ha. pose proof (digit_value_range _ _ E).
      apply IH in H; [|lia].
      rewrite Nat2Z.inj_succ, Z.pow_succ_r by lia. nia.
    + intros H. exfalso. clear -H. induction s as [|c' s IH]; simpl in H; [done|auto].
Qed.

(** The match of the price pattern: three to six digits, then the
    currency character. *)
Lemma price_match_spec (t : pystr) (segs : list pystr) :
  Re.match_here price_pattern t = Some segs ->
  exists digits rest,
    segs = [digits; [Py.won]] /\ t = digits ++ Py.won :: rest
    /\ (3 <= length digits <= 6)%nat
    /\ Forall (fun c => Py.isdecimal c = true) digits.
Proof.
  unfold price_pattern, Re.chr. intros H. pose proof (match_here_concat _ _ _ H) as Hcat.
  cbn [Re.match_here] in H.
  apply backtrack_spec in H as (m & segs1 & Hm & H & ->).
  apply backtrack_spec in H as (m' & segs2 & Hm' & H & ->).
  injection H as <-.
  pose proof (span_le Re.digit t) as Hle.
  unfold Re.greedy in Hm, Hm'.
  assert (m <= Re.span Re.digit t)%nat as Hms by lia.
  assert (m' = 1)%nat as -> by lia.
  assert (1 <= Re.span (N.eqb Py.won) (drop m t))%nat as Hw by lia.
  destruct (drop m t) as [|w r] eqn:Ed; [simpl in Hw; lia|].
  cbn [Re.span] in Hw. destruct (N.eqb Py.won w) eqn:Ew; [|lia].
  apply N.eqb_eq in Ew as <-.
  exists (take m t), r. simpl. rewrite take_0. repeat split.
  - by rewrite <- Ed, take_drop.
  - rewrite length_take_le; lia.
  - rewrite length_take_le; lia.
  - by apply take_span.
Qed.

Lemma number_match_spec (t : pystr) (number_match : list pystr) :
  Re.match_ number_pattern t = Some number_match ->
  exists digits sep text,
    number_match = [digits; sep; text]
    /\ t = digits ++ sep ++ text ++ drop (length (digits ++ sep ++ text)) t
    /\ digits <> [] /\ Forall (fun c => Py.isdecimal c = true) digits.
Proof.
  unfold Re.match_, number_pattern. intros H.
  pose proof (match_here_concat _ _ _ H) as Hcat.
  cbn [Re.match_here] in H.
  apply backtrack_spec in H as (m1 & segs1 & Hm1 & H & ->).
  apply backtrack_spec in H as (m2 & segs2 & Hm2 & H & ->).
  apply backtrack_spec in H as (m3 & segs3 & Hm3 & H & ->).
  injection H as <-.
  eexists _, _, _. split; [reflexivity|].
  simpl in Hcat. rewrite app_nil_r in Hcat.
  pose proof (span_le Re.digit t). unfold Re.greedy in Hm1.
  repeat split.
  - rewrite <- !app_assoc in Hcat. exact Hcat.
  - intros E. apply (f_equal length) in E. rewrite length_take_le in E by lia.
    simpl in E. lia.
  - apply (take_span Re.digit). lia.
Qed.

(** What the steps of a successful extraction found. *)
Lemma extract_product_info_inv (msg : pystr) (n : Z) (name : pystr) (price : Z) :
  extract_product_info msg = Some (n, name, price) ->
  exists digits sep text start price_digits r raw,
    Py.strip msg = digits ++ sep ++ text
                   ++ drop (length (digits ++ sep ++ text)) (Py.strip msg)
    /\ digits <> [] /\ Forall (fun c => Py.isdecimal c = true) digits
    /\ Py.int digits = Some n
    /\ (start <= length (Py.strip text))%nat
    /\ drop start (Py.strip text) = price_digits ++ Py.won :: r
    /\ (3 <= length price_digits <= 6)%nat
    /\ Py.int price_digits = Some price /\ price <> 0%Z
    /\ name = clean_product_name raw.
Proof.
  unfold extract_product_info.
  destruct (Re.match_ number_pattern (Py.strip msg)) as [nm|] eqn:En; [|done].
  destruct (Py.int (Re.seg 0 nm)) as [n'|] eqn:Ei; [|done].
  destruct (Re.search price_pattern (Py.strip (Re.seg 2 nm)))
    as [[start pm]|] eqn:Es; [|done].
  destruct (Py.int (Re.seg 0 pm)) as [price'|] eqn:Ep; [|done].
  destruct (_ && _) eqn:Eg; [|done]. intros [= <- <- <-].
  apply andb_true_iff in Eg as [_ Hprice].
  apply negb_true_iff, Z.eqb_neq in Hprice.
  apply number_match_spec in En as (digits & sep & text & -> & Hmsg & Hne & Hdigits).
  unfold Re.seg in *. cbn [nth] in *.
  apply search_from_spec in Es as (k & -> & Hk & Hm).
  apply price_match_spec in Hm as (pd & r & -> & Hdrop & Hlen & Hpd).
  cbn [nth] in *.
  exists digits, sep, text, k, pd, r.
  eexists. repeat split; try done; lia.
Qed.

(** A number of at most six digits is at most 999999. *)
Lemma six_digits_bound (digits : pystr) (price : Z) :
  Py.int digits = Some price -> (length digits <= 6)%nat ->
  (0 <= price <= 999999)%Z.
Proof.
  intros Hint Hlen. pose proof (int_some _ _ Hint) as (_ & _ & Hp0).
  unfold Py.int in Hint. destruct digits as [|c pd]; [done|].
  destruct (_ <? _)%nat; [done|].
  apply int_digits_bound in Hint; [|lia].
  assert (10 ^ Z.of_nat (length (c :: pd)) <= 10 ^ 6)%Z
    by (apply Z.pow_le_mono_r; lia).
  lia.
Qed.

(** X9. What [extract_product_info] returns, when it returns a
    product: a number that is not negative, a price from 1 to 999999,
    and a cleaned name (no ['/'], no whitespace at either end); and it
    returns one only for a message that, once trimmed, starts with a
    digit, and that contains the currency character. *)
Theorem extract_product_info_result (msg : pystr) (n : Z) (name : pystr)
    (price : Z) :
  extract_product_info msg = Some (n, name, price) ->
  (0 <= n)%Z /\ (1 <= price <= 999999)%Z
  /\ (Py.slash ∉ name) /\ trimmed name
  /\ (exists d rest, Py.strip msg = d :: rest /\ Py.isdecimal d = true)
  /\ Py.won ∈ msg.
Proof.
  intros H.
  apply extract_product_info_inv in H
    as (digits & sep & text & start & pd & r & raw & Hmsg & Hne & Hdigits & Hn
        & Hstart & Hdrop & Hlen & Hprice & Hp0 & ->).
  destruct (clean_product_name_shape raw) as [Hslash (ws & Hws & Hshape)].
  split; [by apply int_some in Hn as (_ & _ & ?)|].
  split; [apply six_digits_bound in Hprice; lia|].
  split; [done|]. split; [rewrite Hshape; by apply join_trimmed|].
  split.
  - destruct digits as [|d digits]; [done|]. inversion Hdigits; subst.
    rewrite Hmsg. by eexists d, _.
  - apply in_strip. rewrite Hmsg.
    apply elem_of_app. right. apply elem_of_app. right. apply elem_of_app. left.
    apply in_strip. eapply sublist_in; [apply (sublist_drop _ start)|].
    rewrite Hdrop. apply elem_of_app. right. constructor.
Qed.

Lemma extract_product_info_result_witness :
  (0 <= 2)%Z /\ (1 <= 3000 <= 999999)%Z
  /\ (Py.slash ∉ Py.lit "수제청") /\ trimmed (Py.lit "수제청")
  /\ (exists d rest,
         Py.strip (Py.lit " 2. 한정 수제청 선착순 3000원 / 철수 영희2") = d :: rest
         /\ Py.isdecimal d = true)
  /\ Py.won ∈ Py.lit " 2. 한정 수제청 선착순 3000원 / 철수 영희2".
Proof.
  apply (extract_product_info_result
           (Py.lit " 2. 한정 수제청 선착순 3000원 / 철수 영희2") 2 (Py.lit "수제청") 3000).
  vm_compute. reflexivity.
Defined.

Lemma span_ge (cls : Py.char -> bool) (a rest : pystr) :
  Forall (fun c => cls c = true) a -> (length a <= Re.span cls (a ++ rest))%nat.
Proof.
  induction 1 as [|c a Hc _ IH]; simpl; [lia|]. rewrite Hc. lia.
Qed.

Lemma span_head_false (cls : Py.char -> bool) (c : Py.char) (s : pystr) :
  cls c = false -> Re.span cls (c :: s) = O.
Proof. intros H. simpl. by rewrite H. Qed.

(** Three repetitions in a row, the middle one optional, when the first
    and the last find enough characters: no backtracking happens. *)
Lemma match_three_reps (c1 c2 c3 : Py.char -> bool) (lo1 lo3 : nat) (s : pystr) :
  let n1 := Re.span c1 s in
  let s1 := drop n1 s in
  let n2 := Re.span c2 s1 in
  let s2 := drop n2 s1 in
  let n3 := Re.span c3 s2 in
  (lo1 <= n1)%nat -> (lo3 <= n3)%nat ->
  Re.match_here [Re.Rep c1 lo1 None; Re.Rep c2 0 None; Re.Rep c3 lo3 None] s
  = Some [take n1 s; take n2 s1; take n3 s2].
Proof.
  intros n1 s1 n2 s2 n3 H1 H3.
  change (Re.match_here [Re.Rep c1 lo1 None; Re.Rep c2 0 None; Re.Rep c3 lo3 None] s)
    with (Re.backtrack (Re.match_here [Re.Rep c2 0 None; Re.Rep c3 lo3 None])
            lo1 n1 s).
  rewrite backtrack_unfold. destruct (Nat.ltb_spec n1 lo1); [lia|]. fold s1.
  change (Re.match_here [Re.Rep c2 0 None; Re.Rep c3 lo3 None] s1)
    with (Re.backtrack (Re.match_here [Re.Rep c3 lo3 None]) 0 n2 s1).
  rewrite backtrack_unfold. destruct (Nat.ltb_spec n2 0); [lia|]. fold s2.
  rewrite match_one_rep. fold n3. by destruct (Nat.ltb_spec n3 lo3); [lia|].
Qed.

Lemma backtrack_none (k : pystr -> option (list pystr)) (lo n : nat) (s : pystr) :
  (forall m, k (drop m s) = None) -> Re.backtrack k lo n s = None.
Proof.
  intros Hk. induction n as [|n IH]; rewrite backtrack_unfold, Hk;
    by destruct (_ <? _)%nat.
Qed.

Lemma search_from_none (p : Re.pattern) (i : nat) (s : pystr) :
  (forall m, Re.match_here p (drop m s) = None) -> Re.search_from p i s = None.
Proof.
  revert i. induction s as [|c s IH]; intros i Hall; simpl.
  - pose proof (Hall O) as H0. rewrite drop_0 in H0. by rewrite H0.
  - pose proof (Hall O) as H0. rewrite drop_0 in H0. rewrite H0.
    apply IH. intros m. apply (Hall (S m)).
Qed.

Lemma search_from_cons (p : Re.pattern) (i : nat) (c : Py.char) (s : pystr) :
  Re.search_from p i (c :: s) =
  match Re.match_here p (c :: s) with
  | Some segs => Some (i, segs)
  | None => Re.search_from p (S i) s
  end.
Proof. reflexivity. Qed.

Lemma match_price_no_digit (c : Py.char) (s : pystr) :
  Py.isdecimal c = false -> Re.match_here price_pattern (c :: s) = None.
Proof.
  intros Hc. unfold price_pattern. cbn [Re.match_here].
  unfold Re.greedy. rewrite (span_head_false Re.digit c s Hc).
  by rewrite backtrack_unfold.
Qed.

(** The text before the first digit cannot hold the price. *)
Lemma search_price_skip (pre s : pystr) (i : nat) :
  Forall (fun c => Py.isdecimal c = false) pre ->
  Re.search_from price_pattern i (pre ++ s)
  = Re.search_from price_pattern (i + length pre) s.
Proof.
  intros Hpre. revert i. induction Hpre as [|c pre Hc _ IH]; intros i.
  - by rewrite Nat.add_0_r.
  - cbn [app length]. rewrite search_from_cons, match_price_no_digit by done.
    rewrite IH. f_equal. lia.
Qed.

(** A price written in three to six digits, at the start of the text. *)
Lemma match_price (digits rest : pystr) :
  Forall (fun c => Py.isdecimal c = true) digits ->
  (3 <= length digits <= 6)%nat ->
  Re.match_here price_pattern (digits ++ Py.won :: rest)
  = Some [digits; [Py.won]].
Proof.
  intros Hd Hlen. unfold price_pattern, Re.chr. cbn [Re.match_here].
  assert (Re.span Re.digit (digits ++ Py.won :: rest) = length digits) as Hspan.
  { apply span_app; [done|]. apply not_true_iff_false. intros H.
    by apply digit_not_won in H. }
  unfold Re.greedy. rewrite Hspan, Nat.min_r by lia.
  rewrite backtrack_unfold. destruct (Nat.ltb_spec (length digits) 3); [lia|].
  rewrite drop_app_length, take_app_length.
  rewrite backtrack_unfold. cbn [Re.span].
  by rewrite N.eqb_refl.
Qed.

(** A text without digit has no trailing price to delete. *)
Lemma sub_trailing_price_no_digit (s : pystr) :
  Forall (fun c => Py.isdecimal c = false) s ->
  Re.sub trailing_price_pattern s = s.
Proof.
  intros Hs. unfold Re.sub. apply (sub_no_match _ 0), search_from_none.
  intros m. unfold trailing_price_pattern. cbn [Re.match_here].
  apply backtrack_none. intros m'.
  rewrite backtrack_unfold.
  assert (Re.greedy Re.digit None (drop m' (drop m s)) = O) as ->; [|done].
  unfold Re.greedy.
  assert (Forall (fun c => Py.isdecimal c = false) (drop m' (drop m s))) as Hd
      by (by do 2 apply Forall_drop).
  destruct Hd as [|c l Hc _]; [done|]. by apply span_head_false.
Qed.

(** What [strip] leaves of a text that starts with a trimmed part. *)
Lemma strip_prefix_kept (a rest : pystr) :
  a <> [] -> trimmed a -> Py.strip (a ++ rest) = a ++ Py.rstrip rest.
Proof.
  intros Hne [Hl Hr].
  destruct (lstrip_split (rev rest)) as (post & Hrest & Hpost).
  apply (f_equal (@rev _)) in Hrest.
  rewrite rev_involutive, rev_app_distr in Hrest. fold (Py.rstrip rest) in Hrest.
  rewrite Hrest at 1.
  replace (a ++ Py.rstrip rest ++ rev post)
    with ([] ++ (a ++ Py.rstrip rest) ++ rev post) by (by rewrite <- app_assoc).
  apply strip_unique; [constructor | by apply Forall_rev |].
  split.
  - destruct a as [|c a]; [done|]. apply lstrip_fixed. simpl.
    apply lstrip_fixed in Hl. done.
  - rewrite rev_app_distr. unfold Py.rstrip. rewrite rev_involutive.
    pose proof (lstrip_idem (rev rest)) as Hid.
    destruct (Py.lstrip (rev rest)) as [|c l] eqn:E; [done|].
    apply lstrip_fixed. apply lstrip_fixed in Hid. done.
Qed.

Lemma search_from_hit (p : Re.pattern) (i : nat) (s : pystr) (segs : list pystr) :
  Re.match_here p s = Some segs -> Re.search_from p i s = Some (i, segs).
Proof. intros H. destruct s; simpl; by rewrite H. Qed.

(** X10. A listing in the usual form is read as written: for a trimmed
    message made of the numeral of [N], a separator of whitespace and
    full stops, a plain name, whitespace, a price [P] in three to six
    digits and the currency character, the extractor returns [N], the
    cleaned name and [P], whatever follows the price. *)
Theorem extract_product_info_listing (msg sep name gap rest : pystr) (N P : N) :
  Py.strip msg
  = Py.decimal N ++ sep ++ name ++ gap ++ Py.decimal P ++ Py.won :: rest ->
  (length (Py.decimal N) <= Py.int_max_str_digits)%nat ->
  Forall (fun c => Re.space_or_stop c = true) sep ->
  plain_name name -> blank gap ->
  (3 <= length (Py.decimal P) <= 6)%nat ->
  extract_product_info msg
  = Some (Z.of_N N, clean_product_name name, Z.of_N P).
Proof.
  intros Hmsg HN Hsep (Hne & Htrim & Hplain & Hstop) Hgap HP.
  pose proof (int_decimal N HN) as HintN.
  pose proof (int_some _ _ HintN) as (HDne & HD & _).
  assert (length (Py.decimal P) <= Py.int_max_str_digits)%nat as HPlim.
  { transitivity 6%nat; [lia|]. apply Nat.leb_le. by vm_compute. }
  pose proof (int_decimal P HPlim) as HintP.
  pose proof (int_some _ _ HintP) as (_ & HPd & _).
  assert (P <> 0) as HP0.
  { intros ->. vm_compute in HP. lia. }
  set (D := Py.decimal N) in *. set (dP := Py.decimal P) in *.
  destruct name as [|c name'] eqn:Ename; [done|]. rewrite <- Ename in *.
  assert (Py.isdecimal c = false /\ c <> Py.newline) as [Hc_nd Hc_nl].
  { rewrite Ename in Hplain. by inversion Hplain. }
  assert (Py.isspace c = false) as Hc_ws.
  { rewrite Ename in Htrim. by apply trimmed_head in Htrim. }
  assert (Re.space_or_stop c = false) as Hc_sos.
  { unfold Re.space_or_stop. rewrite Hc_ws. simpl. apply N.eqb_neq.
    intros ->. rewrite Ename in Hstop. done. }
  assert (Re.dot c = true) as Hc_dot.
  { unfold Re.dot. apply negb_true_iff, N.eqb_neq. done. }
  set (X := name ++ gap ++ dP ++ Py.won :: rest) in *.
  set (A := name ++ gap ++ dP ++ [Py.won]).
  assert (X = A ++ rest) as HX.
  { unfold X, A. by rewrite <- !app_assoc. }
  (* the number and the text after it *)
  assert (Re.match_ number_pattern (D ++ sep ++ X)
          = Some [D; sep; take (Re.span Re.dot X) X]) as Hnumber.
  { pose proof (match_three_reps Re.digit Re.space_or_stop Re.dot 1 1
                  (D ++ sep ++ X)) as H3. cbv zeta in H3.
    assert (Re.span Re.digit (D ++ sep ++ X) = length D) as H1.
    { apply span_app; [done|]. destruct sep as [|s sep'].
      - unfold X. rewrite Ename. done.
      - inversion Hsep; subst. simpl. apply not_true_iff_false. intros Hd.
        apply digit_not_space_or_stop in Hd. congruence. }
    rewrite H1, drop_app_length, take_app_length in H3.
    assert (Re.span Re.space_or_stop (sep ++ X) = length sep) as H2.
    { apply span_app; [done|]. unfold X. rewrite Ename. done. }
    rewrite H2, drop_app_length, take_app_length in H3.
    apply H3.
    - destruct D; [done|simpl; lia].
    - unfold X. rewrite Ename. simpl. rewrite Hc_dot. lia. }
  (* the text after the number, trimmed *)
  assert (Forall (fun c => Re.dot c = true) A) as HAdot.
  { unfold A. repeat apply Forall_app_2.
    - eapply Forall_impl; [exact Hplain|]. intros x [_ Hx].
      by apply negb_true_iff, N.eqb_neq.
    - eapply Forall_impl; [exact Hgap|]. intros x [_ Hx].
      by apply negb_true_iff, N.eqb_neq.
    - eapply Forall_impl; [exact HPd|]. intros x Hx.
      apply digit_not_space in Hx. apply negb_true_iff, N.eqb_neq.
      intros ->. by vm_compute in Hx.
    - constructor; [by vm_compute | constructor]. }
  assert (trimmed A) as HAtrim.
  { unfold A. split.
    - apply lstrip_fixed. rewrite Ename. done.
    - apply lstrip_fixed. rewrite !app_assoc, rev_app_distr. simpl. by vm_compute. }
  assert (exists l, Py.strip (take (Re.span Re.dot X) X)
                    = (name ++ gap) ++ dP ++ Py.won :: l) as [l Hrem].
  { rewrite HX. pose proof (span_ge Re.dot A rest HAdot) as Hge.
    rewrite take_app_ge by done.
    rewrite strip_prefix_kept; [|by unfold A; rewrite Ename|done].
    eexists. unfold A. by rewrite <- !app_assoc. }
  (* the price *)
  assert (Forall (fun c => Py.isdecimal c = false) (name ++ gap)) as Hnodigit.
  { apply Forall_app_2.
    - eapply Forall_impl; [exact Hplain|]. by intros x [? _].
    - eapply Forall_impl; [exact Hgap|]. intros x [Hx _].
      apply not_true_iff_false. intros Hd. apply digit_not_space in Hd. congruence. }
  assert (Forall (fun c => Py.isdecimal c = false) name) as Hname_nodigit.
  { eapply Forall_impl; [exact Hplain|]. by intros x [? _]. }
  unfold extract_product_info. rewrite Hmsg, Hnumber. unfold Re.seg. cbn [nth].
  rewrite HintN, Hrem. unfold Re.search.
  rewrite search_price_skip by done.
  rewrite (search_from_hit _ _ _ _ (match_price dP l HPd HP)).
  cbn [nth]. rewrite HintP, Nat.add_0_l, take_app_length.
  assert (Py.strip (name ++ gap) = name) as ->.
  { apply (strip_unique [] name gap); [constructor| |done].
    eapply Forall_impl; [exact Hgap|]. by intros x [? _]. }
  assert (Py.truthy name = true) as -> by (by rewrite Ename).
  assert ((Z.of_N P =? 0)%Z = false) as -> by (apply Z.eqb_neq; lia).
  cbn [negb andb]. by rewrite sub_trailing_price_no_digit.
Qed.

Lemma extract_product_info_listing_witness :
  extract_product_info (Py.lit "12. 수제 딸기청  3000원 / 철수 영희2")
  = Some (12%Z, clean_product_name (Py.lit "수제 딸기청"), 3000%Z).
Proof.
  apply (extract_product_info_listing
           (Py.lit "12. 수제 딸기청  3000원 / 철수 영희2")
           (Py.lit ". ") (Py.lit "수제 딸기청") (Py.lit "  ") (Py.lit " / 철수 영희2")
           12 3000).
  - vm_compute. reflexivity.
  - vm_compute. lia.
  - repeat constructor.
  - split; [discriminate|]. split; [by vm_compute|]. split; [|by vm_compute].
    repeat (constructor; [split; [by vm_compute | by vm_compute]|]). constructor.
  - repeat (constructor; [split; [by vm_compute | by vm_compute]|]). constructor.
  - vm_compute. lia.
Defined.

(** ** More on [clean_product_name] *)

Lemma hd_split_on_prefix (sep : Py.char) (s : pystr) :
  exists rest, s = hd [] (Py.split_on sep s) ++ rest.
Proof.
  induction s as [|c s [rest IH]]; simpl; [by exists []|].
  destruct (c =? sep); [by exists (c :: s)|].
  destruct (Py.split_on sep s) as [|piece pieces]; simpl in *.
  - exists s. done.
  - exists rest. by rewrite IH at 1.
Qed.

(** The cleaned name is the whitespace-normalised form of a text
    obtained from the name by deleting characters. *)
Lemma clean_product_name_deletes (name : pystr) :
  exists x, sublist x name
    /\ clean_product_name name = Py.strip (Py.join Py.space (Py.split x)).
Proof.
  unfold clean_product_name.
  set (x0 := if Py.contains Py.slash name
             then Py.strip (hd [] (Py.split_on Py.slash name)) else name).
  assert (sublist x0 name) as H0.
  { unfold x0. destruct (Py.contains Py.slash name); [|done].
    etransitivity; [apply strip_sublist|].
    destruct (hd_split_on_prefix Py.slash name) as [rest Hrest].
    rewrite Hrest at 2. by apply sublist_inserts_r. }
  generalize exclude_patterns. intros patterns.
  pose proof (remove_phrases_sublist patterns x0) as H1.
  pose proof (sub_sublist buyer_tag_pattern (remove_phrases patterns x0)) as H2.
  eexists. split; [|reflexivity].
  by do 2 (etransitivity; [|eassumption]).
Qed.

Lemma clean_product_name_length (name : pystr) :
  (length (clean_product_name name) <= length name)%nat.
Proof.
  destruct (clean_product_name_deletes name) as (x & Hsub & ->).
  pose proof (strip_length (Py.join Py.space (Py.split x))) as H4.
  pose proof (join_split_words_length [] x) as H3.
  apply sublist_length in Hsub. unfold Py.split in *. simpl in H3. lia.
Qed.

(** X11. A cleaned name is in normal form: it has no ['/'], it is a
    list of words joined by single spaces, hence without whitespace at
    either end, it is never longer than the name, and its characters
    other than the space are characters of the name. *)
Theorem clean_product_name_normal_form (name : pystr) :
  (Py.slash ∉ clean_product_name name)
  /\ (exists ws, Forall word ws /\ clean_product_name name = Py.join Py.space ws)
  /\ trimmed (clean_product_name name)
  /\ (length (clean_product_name name) <= length name)%nat
  /\ (forall c, c ∈ clean_product_name name -> c = Py.space \/ c ∈ name).
Proof.
  destruct (clean_product_name_shape name) as [Hslash (ws & Hws & Hshape)].
  split; [done|]. split; [eauto|]. split; [rewrite Hshape; by apply join_trimmed|].
  split; [apply clean_product_name_length|].
  destruct (clean_product_name_deletes name) as (x & Hsub & Hclean).
  rewrite Hclean. clear Hclean Hshape Hslash.
  intros c Hc. apply in_strip, in_join in Hc as [?|(w & Hw & Hc)]; [by left|].
  right. destruct (split_words_in _ _ _ _ Hw Hc) as [?%elem_of_nil|?]; [done|].
  by eapply sublist_in.
Qed.

(** A cleaned name is left as it is by another pass, or is shortened. *)
Lemma clean_fixed_or_shorter (name : pystr) :
  clean_product_name (clean_product_name name) = clean_product_name name
  \/ (length (clean_product_name (clean_product_name name))
      < length (clean_product_name name))%nat.
Proof.
  destruct (clean_product_name_shape name) as [Hslash (ws & Hws & Hshape)].
  set (cleaned := clean_product_name name) in *.
  apply contains_false in Hslash.
  destruct (phrases_decide exclude_patterns cleaned) as [Hnone|Hsome];
    [|right; apply clean_product_name_shorter; [done | by left]].
  destruct (Re.search buyer_tag_pattern cleaned) as [m|] eqn:Etag;
    [right; apply clean_product_name_shorter; [done | right; by rewrite Etag]|].
  left. unfold clean_product_name at 1. fold cleaned. rewrite Hslash.
  rewrite remove_phrases_no_match by done.
  unfold Re.sub. rewrite (sub_no_match _ 0 cleaned) by done.
  rewrite Hshape, split_join by done.
  by apply trimmed_strip, join_trimmed.
Qed.

(** X12. Cleaning again and again comes to rest: among the first
    [length name + 1] results of repeated cleaning there is one that
    another pass leaves as it is. *)
Theorem clean_product_name_stabilises (name : pystr) :
  exists k, (k <= length name)%nat
    /\ clean_product_name (Nat.iter (S k) clean_product_name name)
       = Nat.iter (S k) clean_product_name name.
Proof.
  assert (forall n x, (length (clean_product_name x) <= n)%nat ->
            exists k, (k <= n)%nat
              /\ clean_product_name (Nat.iter (S k) clean_product_name x)
                 = Nat.iter (S k) clean_product_name x) as Hgen.
  { induction n as [|n IH]; intros x Hlen.
    - exists O. split; [apply Nat.le_refl|].
      change (Nat.iter 1 clean_product_name x) with (clean_product_name x).
      destruct (clean_fixed_or_shorter x) as [Hfix|Hshort]; [exact Hfix|].
      revert Hlen Hshort. generalize (clean_product_name x). intros; lia.
    - destruct (clean_fixed_or_shorter x) as [Hfix|Hshort].
      + exists O. split; [apply Nat.le_0_l | exact Hfix].
      + destruct (IH (clean_product_name x)) as (k & Hk & Hfix).
        { revert Hlen Hshort. generalize (clean_product_name x). intros; lia. }
        exists (S k). split; [by apply le_n_S|].
        rewrite (Nat.iter_succ_r (S k)). exact Hfix. }
  destruct (Hgen (length name) name) as (k & Hk & Hfix);
    [apply clean_product_name_length|].
  exists k. split; assumption.
Qed.

(** ** The rows of the ledger *)

(** What the loop of [process_excel] knows about a row it appends. *)
Lemma append_orders_row (valid_buyers : list pystr) (row : Row) (order : Order) :
  order ∈ append_orders valid_buyers [] row ->
  extract_product_info (message_of row)
  = Some (order_number order, order_name order, order_price order)
  /\ order_number order <> 0%Z /\ order_name order <> []
  /\ order_price order <> 0%Z /\ Py.slash ∈ message_of row
  /\ (order_buyer order, order_quantity order)
       ∈ parse_order_info (message_of row) valid_buyers.
Proof.
  unfold append_orders.
  destruct (negb (Py.truthy (message_of row))); [by intros ?%elem_of_nil|].
  destruct (extract_product_info (message_of row)) as [[[n name] price]|];
    [|by intros ?%elem_of_nil].
  destruct (_ && _) eqn:Guard; [|by intros ?%elem_of_nil].
  apply andb_prop in Guard as [Guard Hslash].
  apply andb_prop in Guard as [Guard Hprice].
  apply andb_prop in Guard as [Hn Hname].
  rewrite fold_left_snoc. simpl. intros H.
  apply list_elem_of_In, in_map_iff in H as ([b q] & <- & H). simpl.
  split; [done|].
  split; [apply negb_true_iff in Hn; lia|].
  split; [by apply truthy_nonempty|].
  split; [apply negb_true_iff in Hprice; lia|].
  split; [by apply contains_spec | by apply list_elem_of_In].
Qed.

(** The steps [process_excel] has gone through when it returns a ledger. *)
Lemma process_excel_inv (sort_by_time : list Row -> option (list Row))
    (iteration_order : gset pystr -> list pystr) (df : DataFrame)
    (manual_buyer_ids : list pystr) (ledger : list Order) :
  process_excel sort_by_time iteration_order df manual_buyer_ids = Some ledger ->
  has_message_column df = true /\ has_sender_column df = true
  /\ exists rows,
      (if has_time_column df then sort_by_time (List.filter is_admin (df_rows df))
       else Some (List.filter is_admin (df_rows df))) = Some rows
      /\ ledger
         = sort_values
             (concat (List.map
                (append_orders
                   (iteration_order (get_valid_buyers rows manual_buyer_ids)) [])
                rows)).
Proof.
  unfold process_excel.
  destruct (has_message_column df), (has_sender_column df); try done.
  simpl. case_bool_decide; [done|].
  destruct (if has_time_column df then _ else _) as [rows|]; [|done].
  rewrite all_orders_concat. simpl.
  case_bool_decide; [done|]. intros [= <-]. eauto.
Qed.

(** X13. Every row of the ledger comes from a message of an
    administrator: its product number, name and price are what
    [extract_product_info] reads from that message, its buyer and
    quantity are a pair of [parse_order_info] on it.  The product number
    is at least 1, the name is not empty, the price is from 1 to 999999,
    and the buyer is a non-empty valid buyer of the administrators'
    messages.  Sorting by time is assumed to reorder the rows only, and
    the enumeration of the valid buyers to list members only. *)
Theorem process_excel_ledger_rows (sort_by_time : list Row -> option (list Row))
    (iteration_order : gset pystr -> list pystr) (df : DataFrame)
    (manual_buyer_ids : list pystr) (ledger : list Order) (order : Order) :
  (forall rows rows', sort_by_time rows = Some rows' -> rows' ≡ₚ rows) ->
  (forall buyers b, b ∈ iteration_order buyers -> b ∈ buyers) ->
  process_excel sort_by_time iteration_order df manual_buyer_ids = Some ledger ->
  order ∈ ledger ->
  let valid_buyers :=
    get_valid_buyers (List.filter is_admin (df_rows df)) manual_buyer_ids in
  (exists row,
      row ∈ df_rows df /\ is_admin row = true
      /\ Py.slash ∈ message_of row
      /\ extract_product_info (message_of row)
         = Some (order_number order, order_name order, order_price order)
      /\ (order_buyer order, order_quantity order)
           ∈ parse_order_info (message_of row) (iteration_order valid_buyers))
  /\ (1 <= order_number order)%Z
  /\ order_name order <> []
  /\ (1 <= order_price order <= 999999)%Z
  /\ order_buyer order <> []
  /\ order_buyer order ∈ valid_buyers.
Proof.
  intros Hsort Hiter H Hin valid_buyers.
  apply process_excel_inv in H as (_ & _ & rows & Hrows & ->).
  assert (rows ≡ₚ List.filter is_admin (df_rows df)) as Hperm.
  { destruct (has_time_column df); [by apply Hsort|]. by injection Hrows as <-. }
  assert (get_valid_buyers rows manual_buyer_ids = valid_buyers) as Hvalid.
  { unfold valid_buyers, get_valid_buyers.
    apply fold_left_permutation; [|done].
    intros buyers x y. apply add_row_comm. }
  unfold sort_values in Hin. rewrite Hvalid, stable_sort_perm in Hin.
  apply list_elem_of_In, in_concat in Hin as (l & Hl & Hin).
  apply in_map_iff in Hl as (row & <- & Hrow).
  apply list_elem_of_In, append_orders_row in Hin
    as (Hinfo & Hn & Hname & Hprice & Hslash & Hpair).
  apply list_elem_of_In in Hrow. rewrite Hperm in Hrow.
  apply list_elem_of_In, filter_In in Hrow as [Hrow Hadmin].
  apply list_elem_of_In in Hrow.
  split; [by exists row|].
  pose proof Hinfo as Hinv.
  apply extract_product_info_inv in Hinv
    as (digits & _ & _ & _ & pd & _ & _ & _ & _ & _ & Hint & _ & _ & Hlen
        & Hpint & _ & _).
  apply int_some in Hint as (_ & _ & Hn0).
  apply six_digits_bound in Hpint; [|lia].
  apply parse_order_info_buyer in Hpair as [Hb Hmember].
  split; [lia|]. split; [done|]. split; [lia|]. split; [done|].
  by apply Hiter.
Qed.

Lemma process_excel_ledger_rows_witness :
  let first := {| row_message := Some (Py.lit "2 배 3000원 / 철수 영희2");
                  row_sender := Some (Py.lit "다잇쏘") |} in
  let second := {| row_message := Some (Py.lit "안녕하세요 1 꿀사과 5000원 / 민수");
                   row_sender := Some (Py.lit "손님") |} in
  let df := {| has_message_column := true; has_sender_column := true;
               has_time_column := true; df_rows := [first; second] |} in
  let order := {| order_buyer := Py.lit "영희"; order_number := 2;
                  order_name := Py.lit "배"; order_price := 3000;
                  order_quantity := 2 |} in
  let valid_buyers := get_valid_buyers (List.filter is_admin (df_rows df)) [] in
  (exists row,
      row ∈ df_rows df /\ is_admin row = true
      /\ Py.slash ∈ message_of row
      /\ extract_product_info (message_of row)
         = Some (order_number order, order_name order, order_price order)
      /\ (order_buyer order, order_quantity order)
           ∈ parse_order_info (message_of row) (elements valid_buyers))
  /\ (1 <= order_number order)%Z
  /\ order_name order <> []
  /\ (1 <= order_price order <= 999999)%Z
  /\ order_buyer order <> []
  /\ order_buyer order ∈ valid_buyers.
Proof.
  intros first second df order.
  eapply (process_excel_ledger_rows (fun rows => Some rows) elements df [] _ order).
  - by intros rows rows' [= <-].
  - intros buyers b Hb. by apply elem_of_elements in Hb.
  - vm_compute. reflexivity.
  - vm_compute. do 2 constructor.
Defined.

(** ** The totals of the summary *)

Lemma sum_Z_add {A : Type} (f g : A -> Z) (l : list A) :
  sum_Z (List.map (fun x => (f x + g x)%Z) l)
  = (sum_Z (List.map f l) + sum_Z (List.map g l))%Z.
Proof.
  unfold sum_Z. induction l as [|x l IH]; cbn [List.map foldr]; lia.
Qed.

(** In a list without duplicates, one member at most is a given buyer. *)
Lemma sum_Z_single (x : pystr) (v : Z) (buyers : list pystr) :
  NoDup buyers ->
  sum_Z (List.map (fun b => if bool_decide (x = b) then v else 0%Z) buyers)
  = if bool_decide (x ∈ buyers) then v else 0%Z.
Proof.
  unfold sum_Z. induction 1 as [|b buyers Hnew _ IH]; cbn [List.map foldr].
  - by rewrite bool_decide_eq_false_2 by apply not_elem_of_nil.
  - rewrite IH. destruct (decide (x = b)) as [->|Hne].
    + rewrite (bool_decide_eq_true_2 (b = b)) by done.
      rewrite (bool_decide_eq_false_2 (b ∈ buyers)) by done.
      rewrite bool_decide_eq_true_2 by constructor. lia.
    + rewrite (bool_decide_eq_false_2 (x = b)) by done.
      destruct (decide (x ∈ buyers)) as [Hin|Hout].
      * rewrite (bool_decide_eq_true_2 (x ∈ buyers)) by done.
        rewrite bool_decide_eq_true_2 by (by constructor). lia.
      * rewrite (bool_decide_eq_false_2 (x ∈ buyers)) by done.
        rewrite bool_decide_eq_false_2; [lia|].
        intros [?|?]%elem_of_cons; done.
Qed.

(** The rows of a table, taken buyer by buyer over a list of buyers
    without duplicates that has the buyer of every row, are all the
    rows: a sum over the table is the sum of the sums per buyer. *)
Lemma rows_of_partition (f : Order -> Z) (buyers : list pystr)
    (df_orders : list Order) :
  NoDup buyers ->
  (forall row, row ∈ df_orders -> order_buyer row ∈ buyers) ->
  sum_Z (List.map (fun b => sum_Z (List.map f (rows_of b df_orders))) buyers)
  = sum_Z (List.map f df_orders).
Proof.
  intros Hnodup. induction df_orders as [|row l IH]; intros Hcover.
  - unfold rows_of, sum_Z. cbn [List.filter List.map foldr].
    clear. induction buyers as [|b buyers IH]; cbn [List.map foldr]; lia.
  - rewrite (map_ext _ (fun b => ((if bool_decide (order_buyer row = b)
                                    then f row else 0)
                                   + sum_Z (List.map f (rows_of b l)))%Z)).
    + rewrite sum_Z_add, sum_Z_single, IH by done || (intros; apply Hcover; by right).
      rewrite bool_decide_eq_true_2 by (apply Hcover; constructor).
      unfold sum_Z. cbn [List.map foldr]. lia.
    + intros b. unfold rows_of, sum_Z. cbn [List.filter].
      case_bool_decide; cbn [List.map foldr]; lia.
Qed.

Lemma summary_leb_true (a b : Summary) :
  summary_leb a b = true ->
  str_lt (summary_buyer a) (summary_buyer b) \/ summary_buyer a = summary_buyer b.
Proof.
  unfold summary_leb. destruct (Py.compare _ _) eqn:E; [| |done]; intros _.
  - right. by apply compare_eq.
  - left. by apply compare_lt.
Qed.

Lemma summary_leb_false (a b : Summary) :
  summary_leb a b = false ->
  str_lt (summary_buyer b) (summary_buyer a) \/ summary_buyer b = summary_buyer a.
Proof.
  unfold summary_leb. destruct (Py.compare _ _) eqn:E; [done|done|]; intros _.
  left. by apply compare_lt, compare_gt.
Qed.

(** X14. When the table has int64 columns and the totals of no buyer
    leave the range of int64, the summary accounts for the whole order
    table: its amounts add up to the amount of all rows of the table,
    its quantities to the number of items of all rows, and its rows are
    in strictly increasing order of the buyer. *)
Theorem buyer_summary_grand_totals (df_orders : list Order) :
  Forall (fun row => int64 (order_price row) /\ int64 (order_quantity row))
    df_orders ->
  (forall b, b ∈ List.map order_buyer df_orders ->
             int64 (amount_of (rows_of b df_orders))
             /\ int64 (quantity_of (rows_of b df_orders))) ->
  exists summary,
    buyer_summary df_orders = Some summary
    /\ sum_Z (List.map total_amount summary) = amount_of df_orders
    /\ sum_Z (List.map total_quantity summary) = quantity_of df_orders
    /\ StronglySorted (fun a b => str_lt (summary_buyer a) (summary_buyer b))
         summary.
Proof.
  intros Hall Hfit.
  destruct (buyer_summary df_orders) as [summary|] eqn:Hsome;
    [|by rewrite buyer_summary_some in Hsome].
  exists summary. split; [done|].
  pose proof (buyer_summary_nodup _ _ Hsome) as Hnodup.
  assert (forall row, row ∈ df_orders ->
            order_buyer row ∈ List.map summary_buyer summary) as Hcover.
  { intros row Hrow. apply (buyer_summary_buyers _ _ _ Hsome).
    apply list_elem_of_In, in_map. by apply list_elem_of_In. }
  assert (forall s, s ∈ summary ->
            total_amount s = amount_of (rows_of (summary_buyer s) df_orders)
            /\ total_quantity s
               = quantity_of (rows_of (summary_buyer s) df_orders)) as Hrows.
  { intros s Hs.
    assert (summary_buyer s ∈ List.map order_buyer df_orders) as Hb.
    { apply (buyer_summary_buyers _ _ _ Hsome).
      apply list_elem_of_In, in_map. by apply list_elem_of_In. }
    destruct (Hfit _ Hb) as [Ha Hq].
    apply (buyer_summary_row _ _ _ Hsome) in Hs as (_ & -> & ->).
    by rewrite !wrap_int64_fits. }
  split; [|split].
  - unfold amount_of at 1.
    rewrite <- (rows_of_partition _ _ _ Hnodup Hcover), map_map.
    f_equal. apply map_ext_in. intros s Hs.
    by apply list_elem_of_In, Hrows in Hs as [-> _].
  - unfold quantity_of at 1.
    rewrite <- (rows_of_partition _ _ _ Hnodup Hcover), map_map.
    f_equal. apply map_ext_in. intros s Hs.
    by apply list_elem_of_In, Hrows in Hs as [_ ->].
  - assert (StronglySorted
              (fun a b => str_lt (summary_buyer a) (summary_buyer b)
                          \/ summary_buyer a = summary_buyer b) summary) as Hsorted.
    { unfold buyer_summary in Hsome.
      destruct (int64_columns df_orders); [|done]. injection Hsome as <-.
      apply Sorted_StronglySorted.
      - intros a b c [H1|H1] [H2|H2].
        + left. eapply str_lt_trans; eauto.
        + left. by rewrite <- H2.
        + left. by rewrite H1.
        + right. congruence.
      - apply stable_sort_sorted; [apply summary_leb_true | apply summary_leb_false]. }
    clear Hsome Hcover Hrows.
    induction Hsorted as [|s l _ IH Hs]; [constructor|].
    cbn [List.map] in Hnodup. apply NoDup_cons in Hnodup as [Hnew Hnodup].
    constructor; [by apply IH|].
    rewrite Forall_forall in Hs. apply Forall_forall. intros s' Hin.
    destruct (Hs s' Hin) as [Hlt|Heq]; [done|].
    exfalso. apply Hnew. rewrite Heq. apply list_elem_of_In, in_map.
    by apply list_elem_of_In.
Qed.

Lemma buyer_summary_grand_totals_witness :
  let ledger :=
    [ {| order_buyer := Py.lit "영희"; order_number := 2;
         order_name := Py.lit "배"; order_price := 3000; order_quantity := 2 |};
      {| order_buyer := Py.lit "철수"; order_number := 1;
         order_name := Py.lit "꿀사과"; order_price := 5000; order_quantity := 3 |};
      {| order_buyer := Py.lit "철수"; order_number := 2;
         order_name := Py.lit "배"; order_price := 3000; order_quantity := 1 |} ] in
  exists summary,
    buyer_summary ledger = Some summary
    /\ sum_Z (List.map total_amount summary) = amount_of ledger
    /\ sum_Z (List.map total_quantity summary) = quantity_of ledger
    /\ StronglySorted (fun a b => str_lt (summary_buyer a) (summary_buyer b))
         summary.
Proof.
  intros ledger. apply (buyer_summary_grand_totals ledger).
  - repeat (constructor; [unfold int64, int64_min, int64_max; simpl; lia|]).
    constructor.
  - intros b Hb. cbn [List.map ledger] in Hb.
    repeat (apply elem_of_cons in Hb as [->|Hb];
            [split; unfold int64; vm_compute; split; discriminate|]).
    by apply elem_of_nil in Hb.
Defined.

(** ** The saved buyer identifiers *)

(** X15. What [save_buyer_ids] stores, [load_buyer_ids] gives back: after
    a save the load returns the saved set, whatever the session held
    before, and it leaves the session as the save left it.  The list
    made of the set is assumed to hold the members of the set. *)
Theorem load_buyer_ids_after_save (to_list : gset pystr -> list pystr)
    (buyer_ids : gset pystr) (state : SessionState) :
  (forall id, id ∈ to_list buyer_ids <-> id ∈ buyer_ids) ->
  load_buyer_ids (save_buyer_ids to_list buyer_ids state)
  = (buyer_ids, save_buyer_ids to_list buyer_ids state).
Proof.
  intros Hlist.
  assert (list_to_set (to_list buyer_ids) = buyer_ids) as Hset.
  { apply set_eq. intros id. by rewrite elem_of_list_to_set. }
  unfold save_buyer_ids, load_buyer_ids.
  destruct (state_cached_buyer_ids state) as [cached|] eqn:E; cbn.
  - by rewrite Hset.
  - by rewrite Hset.
Qed.

Lemma load_buyer_ids_after_save_witness :
  let ids : gset pystr := {[ Py.lit "user123"; Py.lit "buyer777" ]} in
  let state := {| state_buyer_ids := Some [Py.lit "kim2"];
                  state_cached_buyer_ids := None |} in
  load_buyer_ids (save_buyer_ids elements ids state)
  = (ids, save_buyer_ids elements ids state).
Proof.
  intros ids state.
  apply (load_buyer_ids_after_save elements ids state).
  intros id. apply elem_of_elements.
Defined.

(** ** The default text of the identifier field *)

Lemma split_on_none (sep : Py.char) (s : pystr) :
  sep ∉ s -> Py.split_on sep s = [s].
Proof.
  induction s as [|c s IH]; [done|].
  intros Hsep. apply not_elem_of_cons in Hsep as [Hc Hs]. cbn [Py.split_on].
  destruct (N.eqb_spec c sep) as [->|_]; [done|]. by rewrite IH.
Qed.

Lemma split_on_app (sep : Py.char) (s rest : pystr) :
  sep ∉ s -> Py.split_on sep (s ++ sep :: rest) = s :: Py.split_on sep rest.
Proof.
  induction s as [|c s IH]; intros Hsep.
  - cbn [app Py.split_on]. by rewrite N.eqb_refl.
  - apply not_elem_of_cons in Hsep as [Hc Hs]. cbn [app Py.split_on].
    destruct (N.eqb_spec c sep) as [->|_]; [done|]. by rewrite IH.
Qed.

(** Splitting the joined identifiers at the commas gives them back, all
    but the first with the space of the separator in front. *)
Lemma split_on_join_str (p : pystr) (ps : list pystr) :
  Forall (fun id => comma ∉ id) (p :: ps) ->
  Py.split_on comma (join_str [comma; Py.space] (p :: ps))
  = p :: List.map (cons Py.space) ps.
Proof.
  revert p. induction ps as [|q qs IH]; intros p Hall.
  - inversion Hall; subst. by apply split_on_none.
  - inversion Hall as [|? ? Hp Hrest]; subst.
    change (join_str [comma; Py.space] (p :: q :: qs))
      with (p ++ comma :: Py.space :: join_str [comma; Py.space] (q :: qs)).
    rewrite split_on_app by done.
    change (Py.split_on comma (Py.space :: join_str [comma; Py.space] (q :: qs)))
      with (match Py.split_on comma (join_str [comma; Py.space] (q :: qs)) with
            | piece :: pieces => (Py.space :: piece) :: pieces
            | [] => [[Py.space]]
            end).
    by rewrite IH.
Qed.

(** X16. The identifier field, left as [main] fills it in, gives back the
    saved set: when every saved identifier is non-empty, trimmed and
    without a comma (as every identifier read from the field is), the
    identifiers read from the default text are exactly the saved ones.
    The enumeration of the set is assumed to hold its members. *)
Theorem default_buyer_ids_round_trip (to_list : gset pystr -> list pystr)
    (saved_buyer_ids : gset pystr) :
  (forall id, id ∈ to_list saved_buyer_ids <-> id ∈ saved_buyer_ids) ->
  (forall id, id ∈ saved_buyer_ids -> id <> [] /\ trimmed id /\ comma ∉ id) ->
  manual_ids_of_input (default_buyer_ids to_list saved_buyer_ids)
  = saved_buyer_ids.
Proof.
  intros Hlist Hids. unfold default_buyer_ids.
  case_bool_decide as Hempty; [|by rewrite Hempty].
  assert (Forall (fun id => id <> [] /\ trimmed id /\ comma ∉ id)
            (to_list saved_buyer_ids)) as Hall.
  { apply Forall_forall. intros id Hid. by apply Hids, Hlist. }
  assert (list_to_set (to_list saved_buyer_ids) = saved_buyer_ids) as Hset.
  { apply set_eq. intros id. by rewrite elem_of_list_to_set. }
  revert Hall Hset. generalize (to_list saved_buyer_ids). intros ids Hall Hset.
  destruct ids as [|p ps]; [by rewrite list_to_set_nil in Hset|].
  unfold manual_ids_of_input.
  assert (Py.truthy (join_str [comma; Py.space] (p :: ps)) = true) as ->.
  { inversion Hall as [|? ? (Hp & _) _]; subst.
    destruct p as [|c p]; [done|]. by destruct ps. }
  rewrite split_on_join_str by (eapply Forall_impl; [exact Hall|]; by intros ? (_ & _ & ?)).
  rewrite <- Hset. f_equal.
  clear Hlist Hids Hempty Hset.
  inversion Hall as [|? ? (Hp & Htrim & _) Hrest]; subst. clear Hall.
  cbn [List.filter]. rewrite (trimmed_strip p) by done.
  apply truthy_nonempty in Hp. rewrite Hp. cbn [List.map].
  rewrite (trimmed_strip p) by done. f_equal.
  induction Hrest as [|q qs (Hq & Hqtrim & _) _ IH]; [done|].
  assert (Py.strip (Py.space :: q) = q) as Hstrip.
  { pose proof (strip_unique [Py.space] q []) as Hu.
    rewrite app_nil_r in Hu. apply Hu; [|constructor|done].
    by repeat constructor. }
  cbn [List.map List.filter]. rewrite Hstrip.
  apply truthy_nonempty in Hq. rewrite Hq. cbn [List.map].
  by rewrite Hstrip, IH.
Qed.

Lemma default_buyer_ids_round_trip_witness :
  let saved : gset pystr := {[ Py.lit "user123"; Py.lit "buyer777" ]} in
  manual_ids_of_input (default_buyer_ids elements saved) = saved.
Proof.
  intros saved.
  apply (default_buyer_ids_round_trip elements saved).
  - intros id. apply elem_of_elements.
  - intros id Hid. apply elem_of_union in Hid as [Hid|Hid];
      apply elem_of_singleton in Hid; subst id;
      (split; [discriminate|]); (split; [by vm_compute|]);
      apply contains_false; by vm_compute.
Defined.
